(** * evds_scraper: the Selector Resolver, the Incremental Table Reader,
      the output step of [scrape] and [export_configuration]

    A shallow embedding of [src/evds_scraper/scraper.py].  The browser is
    the environment: what a driver call returns (or that it raises) is a
    parameter of the model, and the Python control flow around those calls
    is written out as it stands in the source, [try]/[except] included.

    Strings are Rocq [string]s (byte strings); Python's [==], [in],
    [count], [split], [endswith] on [str] agree with the byte versions on
    UTF-8 text.  [strip] and [lower] are given on the ASCII range. *)

From Stdlib Require Import String Ascii List ListSet ZArith Bool Arith Lia.
Import ListNotations.

Set Warnings "-register-all".

Local Open Scope string_scope.
Local Open Scope list_scope.

(* ===================================================================== *)
(** * Python values and string primitives                                 *)
(* ===================================================================== *)

Module Py.

(** The outcome of a call that may raise an [Exception]. *)
Inductive outcome (A : Type) : Type :=
| Ok (a : A)
| Raised.
Arguments Ok {A} a.
Arguments Raised {A}.

Definition obind {A B} (o : outcome A) (k : A -> outcome B) : outcome B :=
  match o with
  | Ok a => k a
  | Raised => Raised
  end.

(** [sub in s] on [str]. *)
Fixpoint str_in (sub s : string) : bool :=
  if String.prefix sub s then true
  else match s with
       | EmptyString => false
       | String _ s' => str_in sub s'
       end.

(** [s.endswith(suffix)]. *)
Fixpoint endswith (s suffix : string) : bool :=
  if String.eqb s suffix then true
  else match s with
       | EmptyString => false
       | String _ s' => endswith s' suffix
       end.

(** [s.count(sep)] for a one-character [sep]. *)
Fixpoint count (sep : ascii) (s : string) : nat :=
  match s with
  | EmptyString => 0
  | String c s' => (if Ascii.eqb c sep then 1 else 0) + count sep s'
  end.

(** [s.split(sep)] for a one-character [sep]. *)
Fixpoint split (sep : ascii) (s : string) : list string :=
  match s with
  | EmptyString => [EmptyString]
  | String c s' =>
      if Ascii.eqb c sep then EmptyString :: split sep s'
      else match split sep s' with
           | [] => [String c EmptyString]
           | w :: ws => String c w :: ws
           end
  end.

(** ASCII white space, as [str.isspace] has it below code 128. *)
Definition isspace (c : ascii) : bool :=
  let n := nat_of_ascii c in
  (Nat.eqb n 32 || ((9 <=? n) && (n <=? 13)) || ((28 <=? n) && (n <=? 31)))%nat.

Fixpoint lstrip (s : string) : string :=
  match s with
  | EmptyString => EmptyString
  | String c s' => if isspace c then lstrip s' else s
  end.

Fixpoint rstrip (s : string) : string :=
  match s with
  | EmptyString => EmptyString
  | String c s' =>
      match rstrip s' with
      | EmptyString => if isspace c then EmptyString else String c EmptyString
      | r => String c r
      end
  end.

(** [s.strip()]. *)
Definition strip (s : string) : string := rstrip (lstrip s).

Definition lower_ascii (c : ascii) : ascii :=
  let n := nat_of_ascii c in
  if ((65 <=? n) && (n <=? 90))%nat then ascii_of_nat (n + 32) else c.

(** [s.lower()]. *)
Fixpoint lower (s : string) : string :=
  match s with
  | EmptyString => EmptyString
  | String c s' => String (lower_ascii c) (lower s')
  end.

(** The Python objects that reach [scrape]'s output step and
    [export_configuration].  Dictionaries keep insertion order; their keys
    are [str] throughout this program. *)
Inductive pyval : Type :=
| PNone
| PBool (b : bool)
| PInt (z : Z)
| PStr (s : string)
| PList (l : list pyval)
| PTuple (l : list pyval)
| PDict (d : list (string * pyval)).

(** Truth value of an object, as [if x:] and [not x] test it. *)
Definition truth (v : pyval) : bool :=
  match v with
  | PNone => false
  | PBool b => b
  | PInt z => negb (z =? 0)%Z
  | PStr s => negb (String.eqb s "")
  | PList l | PTuple l => negb (Nat.eqb (length l) 0)
  | PDict d => negb (Nat.eqb (length d) 0)
  end.

Section Dict.
Context {V : Type}.

(** [d.get(k)] on an insertion-ordered dictionary. *)
Fixpoint dict_get (d : list (string * V)) (k : string) : option V :=
  match d with
  | [] => None
  | (k', v) :: d' => if String.eqb k' k then Some v else dict_get d' k
  end.

(** [d[k] = v]: an existing key keeps its position and takes the new
    value, a new key goes last. *)
Fixpoint dict_set (d : list (string * V)) (k : string) (v : V)
  : list (string * V) :=
  match d with
  | [] => [(k, v)]
  | (k', v') :: d' =>
      if String.eqb k' k then (k', v) :: d' else (k', v') :: dict_set d' k v
  end.
End Dict.

(** [v[key]] with a [str] key: a [KeyError] on a missing key, a
    [TypeError] on anything that is not a dictionary. *)
Definition subscript (v : pyval) (key : string) : outcome pyval :=
  match v with
  | PDict d =>
      match dict_get d key with
      | Some x => Ok x
      | None => Raised
      end
  | _ => Raised
  end.

(** ** Stripping by a set of characters, and searching *)

(** Stripping from the left and from the right the characters that [p]
    holds of. *)
Fixpoint lstrip_by (p : ascii -> bool) (s : string) : string :=
  match s with
  | EmptyString => EmptyString
  | String c s' => if p c then lstrip_by p s' else s
  end.

Fixpoint rstrip_by (p : ascii -> bool) (s : string) : string :=
  match s with
  | EmptyString => EmptyString
  | String c s' =>
      match rstrip_by p s' with
      | EmptyString => if p c then EmptyString else String c EmptyString
      | r => String c r
      end
  end.

(** [c in chars]. *)
Fixpoint mem_char (chars : string) (c : ascii) : bool :=
  match chars with
  | EmptyString => false
  | String d chars' => Ascii.eqb c d || mem_char chars' c
  end.

(** [s.strip(chars)]: [chars] is a set of characters, not a prefix or a
    suffix. *)
Definition strip_chars (chars s : string) : string :=
  rstrip_by (mem_char chars) (lstrip_by (mem_char chars) s).

Definition first_char (s : string) : option ascii :=
  match s with
  | EmptyString => None
  | String c _ => Some c
  end.

Fixpoint last_char (s : string) : option ascii :=
  match s with
  | EmptyString => None
  | String c s' =>
      match last_char s' with
      | None => Some c
      | Some d => Some d
      end
  end.

(** [s.find(sub)]: the least index at which [sub] occurs, or [-1]. *)
Fixpoint find (sub s : string) : Z :=
  if String.prefix sub s then 0%Z
  else match s with
       | EmptyString => (-1)%Z
       | String _ s' =>
           let i := find sub s' in
           if (i =? -1)%Z then (-1)%Z else (i + 1)%Z
       end.

End Py.
Import Py.

(* ===================================================================== *)
(** * The Selector Resolver: [_select_base]                               *)
(* ===================================================================== *)

Module Resolver.

(** [selector_value : Union[str, int]]. *)
Inductive selector : Type :=
| SelStr (s : string)
| SelInt (n : Z).

Section SelectBase.

(** A candidate is a [WebElement] or a [Dict]; the resolver only tests
    its truth value, reads its text through [get_text_fn] and hands it
    to [click_fn].  Both callbacks may raise. *)
Variable element : Type.
Variable truthy : element -> bool.
Variable get_text_fn : element -> outcome string.
Variable click_fn : element -> outcome string.

(** What the resolver does to the outside, in order. *)
Inductive event : Type :=
| GetText (e : element)
| Click (e : element)
| PrintNotFound (sel : selector)
| PrintError.

(** A computation that logs events and may raise. *)
Definition M (A : Type) : Type := (list event * outcome A)%type.

Definition ret {A} (a : A) : M A := ([], Ok a).
Definition raise {A} : M A := ([], Raised).
Definition emit (ev : event) : M unit := ([ev], Ok tt).
Definition bind {A B} (m : M A) (k : A -> M B) : M B :=
  match m with
  | (tr, Ok a) => let (tr', r) := k a in (tr ++ tr', r)
  | (tr, Raised) => (tr, Raised)
  end.
Definition call {A} (ev : event) (o : outcome A) : M A := ([ev], o).

Arguments bind {A B} m k : simpl never.
Arguments call {A} ev o : simpl never.

Notation "x <- m ;; k" := (bind m (fun x => k))
  (at level 61, m at next level, right associativity).

(** [not selected]. *)
Definition not_ (selected : option element) : bool :=
  match selected with
  | None => true
  | Some e => negb (truthy e)
  end.

(** The first [for] loop: the first element whose text equals the
    selector. *)
Fixpoint exact_scan (selector_value : string) (elements : list element)
  : M (option element) :=
  match elements with
  | [] => ret None
  | element :: rest =>
      text <- call (GetText element) (get_text_fn element) ;;
      if String.eqb selector_value text then ret (Some element)
      else exact_scan selector_value rest
  end.

(** The second [for] loop: the first element whose text contains the
    selector or is contained in it. *)
Fixpoint contained_scan (selector_value : string) (elements : list element)
  : M (option element) :=
  match elements with
  | [] => ret None
  | element :: rest =>
      text <- call (GetText element) (get_text_fn element) ;;
      if str_in selector_value text || str_in text selector_value
      then ret (Some element)
      else contained_scan selector_value rest
  end.

(** The body of the [try] block. *)
Definition select_body (selector_value : selector) (elements : list element)
  : M (option string) :=
  selected <-
    match selector_value with
    | SelStr s =>
        selected <- exact_scan s elements ;;
        if not_ selected then contained_scan s elements else ret selected
    | SelInt n =>
        if ((1 <=? n) && (n <=? Z.of_nat (length elements)))%Z
        then match nth_error elements (Z.to_nat (n - 1)) with
             | Some e => ret (Some e)
             | None => raise
             end
        else ret None
    end ;;
  if not_ selected then
    _ <- emit (PrintNotFound selector_value) ;; ret None
  else
    match selected with
    | Some e => r <- call (Click e) (click_fn e) ;; ret (Some r)
    | None => ret None
    end.

(** [_select_base]: the body under [except Exception], which prints and
    returns [None]. *)
Definition _select_base (selector_value : selector) (elements : list element)
  : list event * option string :=
  match select_body selector_value elements with
  | (tr, Ok r) => (tr, r)
  | (tr, Raised) => (tr ++ [PrintError], None)
  end.

Definition is_get_text (ev : event) : bool :=
  match ev with GetText _ => true | _ => false end.

End SelectBase.

Arguments GetText {element} e.
Arguments Click {element} e.
Arguments PrintNotFound {element} sel.
Arguments PrintError {element}.
Arguments ret {element A} a.
Arguments raise {element A}.
Arguments emit {element} ev.
Arguments bind {element A B} m k : simpl never.
Arguments call {element A} ev o : simpl never.
Arguments not_ {element} truthy selected.
Arguments exact_scan {element} get_text_fn selector_value elements.
Arguments contained_scan {element} get_text_fn selector_value elements.
Arguments select_body {element} truthy get_text_fn click_fn selector_value elements.
Arguments _select_base {element} truthy get_text_fn click_fn selector_value elements.
Arguments is_get_text {element} ev.

End Resolver.

(** The candidates that [click_fn] was called on, in order. *)
Module ResolverLog.
Import Resolver.

Fixpoint clicked {element : Type} (tr : list (event element)) : list element :=
  match tr with
  | [] => []
  | Click e :: tr' => e :: clicked tr'
  | _ :: tr' => clicked tr'
  end.

End ResolverLog.

(* ===================================================================== *)
(** * The Incremental Table Reader: [parse_table]                         *)
(* ===================================================================== *)

Module TableReader.

(** [cell.text] of a [td], and the [td]s of a row; either read may raise
    (a stale element, for one). *)
Definition cell : Type := outcome string.
Definition row : Type := outcome (list cell).

(** A recorded row: the dictionary from column name to cell text. *)
Definition row_data : Type := list (string * string).

(** What the browser shows to one call of [parse_table]: the text of each
    header found, the rows that the [k]-th pass of the loop finds
    ([wait_for_elements] never raises, it returns the empty list), and
    whether the [k]-th scroll script runs or raises. *)
Record page : Type := {
  header_texts : list (outcome string);
  visible_rows : nat -> list row;
  scroll_script : nat -> outcome unit
}.

(** Lines 609-613: the swapped form of a date with exactly one hyphen. *)
Definition alternative_date_of (begin_date : string) : outcome (option string) :=
  if Nat.eqb (count "-" begin_date) 1 then
    match split "-" begin_date with
    | [month; year] => Ok (Some (year ++ "-" ++ month)%string)
    | _ => Raised
    end
  else Ok None.

(** Line 624: [[header.text.strip() for header in headers]]. *)
Fixpoint header_names (headers : list (outcome string)) : outcome (list string) :=
  match headers with
  | [] => Ok []
  | header :: rest =>
      obind header (fun text =>
      obind (header_names rest) (fun names => Ok (strip text :: names)))
  end.

Section Rows.

Variable column_names : list string.
Variable begin_date : string.
Variable alternative_date : option string.
Variable processed_rows : set string.

(** Lines 654-656: the [enumerate] loop; a cell's text is read only while
    [idx < len(column_names)]. *)
Fixpoint fill_row (idx : nat) (cells : list cell) (acc : row_data)
  : outcome row_data :=
  match cells with
  | [] => Ok acc
  | c :: rest =>
      if (idx <? length column_names)%nat then
        obind c (fun text =>
          fill_row (S idx) rest (dict_set acc (nth idx column_names "") (strip text)))
      else fill_row (S idx) rest acc
  end.

(** Line 661: [row_date == begin_date or (alternative_date and
    row_date == alternative_date)]. *)
Definition is_begin_date (row_date : string) : bool :=
  String.eqb row_date begin_date
  || match alternative_date with
     | Some alt => negb (String.eqb alt "") && String.eqb row_date alt
     | None => false
     end.

(** What one pass of the [for] body does with a row. *)
Inductive row_step : Type :=
| Skipped
| Appended (rd : row_data) (found : bool).

(** Lines 644-668.  Any exception in the body is caught and the row is
    skipped; [data.append] comes after every read of the row. *)
Definition parse_row (r : row) : row_step :=
  match r with
  | Raised => Skipped
  | Ok cells =>
      match cells with
      | [] => Skipped
      | first :: _ =>
          match first with
          | Raised => Skipped
          | Ok text =>
              let row_date := strip text in
              if negb (String.eqb row_date "")
                 && negb (set_mem string_dec row_date processed_rows)
              then
                if (length column_names <=? length cells)%nat then
                  match fill_row 0 cells [] with
                  | Raised => Skipped
                  | Ok rd => Appended rd (is_begin_date row_date)
                  end
                else Skipped
              else Skipped
          end
      end
  end.

(** Lines 643-668: the [for] loop over one batch, with its [break]. *)
Fixpoint scan_rows (rows : list row) (data : list row_data)
  : list row_data * bool :=
  match rows with
  | [] => (data, false)
  | r :: rest =>
      match parse_row r with
      | Skipped => scan_rows rest data
      | Appended rd true => (data ++ [rd], true)
      | Appended rd false => scan_rows rest (data ++ [rd])
      end
  end.

End Rows.

Section Loop.

Variable pg : page.
Variable column_names : list string.
Variable begin_date : string.
Variable alternative_date : option string.

(** The set made on line 632.  No statement of the loop adds to it, so
    every pass sees the set the loop started with. *)
Variable processed_rows : set string.

(** Lines 636-675.  [fuel] bounds the number of passes the model follows
    and [k] counts them: [None] says the loop is still running after [fuel]
    passes, [Some Raised] that the scroll script raised. *)
Fixpoint scroll_loop (fuel k : nat) (data : list row_data)
  : option (outcome (list row_data)) :=
  match fuel with
  | O => None
  | S fuel' =>
      let (data', found_begin_date) :=
        scan_rows column_names begin_date alternative_date processed_rows
                  (visible_rows pg k) data in
      if found_begin_date then Some (Ok data')
      else match scroll_script pg k with
           | Raised => Some Raised
           | Ok _ => scroll_loop fuel' (S k) data'
           end
  end.

End Loop.

(** Line 682: what the outer [except] returns. *)
Definition error_table : pyval :=
  PDict [("columns", PList []); ("data", PList []); ("row_count", PInt 0)].

Definition row_to_py (rd : row_data) : pyval :=
  PDict (map (fun kv => (fst kv, PStr (snd kv))) rd).

(** [parse_table(begin_date)]: [None] while the loop has not ended within
    [fuel] passes; otherwise the value returned, the list [data] on line
    678 or the dictionary of line 682. *)
Definition parse_table (pg : page) (fuel : nat) (begin_date : string)
  : option pyval :=
  match obind (alternative_date_of begin_date) (fun alternative_date =>
        obind (header_names (header_texts pg)) (fun column_names =>
        Ok (alternative_date, column_names))) with
  | Raised => Some error_table
  | Ok (alternative_date, column_names) =>
      match scroll_loop pg column_names begin_date alternative_date
                        (empty_set string) fuel 0 [] with
      | None => None
      | Some (Ok data) => Some (PList (map row_to_py data))
      | Some Raised => Some error_table
      end
  end.

(** ** Notions used to state the reader's properties *)

(** A row all of whose cells can be read. *)
Definition readable (texts : list string) : row := Ok (map Ok texts).

(** The row-key: the stripped text of the first cell. *)
Definition row_key (texts : list string) : string := strip (hd "" texts).

(** Whether a pass of the loop body over row [r] sets [found_begin_date],
    for the target [begin_date] and the alternate derived from it. *)
Definition accepted (column_names : list string) (begin_date : string) (r : row)
  : bool :=
  match alternative_date_of begin_date with
  | Ok alternative_date =>
      match parse_row column_names begin_date alternative_date
                      (empty_set string) r with
      | Appended _ found => found
      | Skipped => false
      end
  | Raised => false
  end.

(** The partial mapping that a row with too few cells would be recorded
    as, in the words of the specification: column names paired with the
    cells that are present. *)
Definition truncated_mapping (column_names texts : list string) : row_data :=
  combine column_names (map strip texts).

(** What a pass of the loop body over row [r] appends to [data], for the
    target [begin_date] and the alternate derived from it: one row, or
    nothing. *)
Definition recorded (column_names : list string) (begin_date : string) (r : row)
  : list row_data :=
  match alternative_date_of begin_date with
  | Ok alternative_date =>
      match parse_row column_names begin_date alternative_date
                      (empty_set string) r with
      | Appended rd _ => [rd]
      | Skipped => []
      end
  | Raised => []
  end.

(** The rows fetched in the passes before the [k]-th, in order. *)
Definition fetched_before (pg : page) (k : nat) : list row :=
  flat_map (visible_rows pg) (seq 0 k).

(** Whether a row has a first cell that can be read and is not blank. *)
Definition has_key (r : row) : bool :=
  match r with
  | Ok (Ok text :: _) => negb (String.eqb (strip text) "")
  | _ => false
  end.

Section Batches.

Variable pg : page.
Variable column_names : list string.
Variable begin_date : string.
Variable alternative_date : option string.

(** The rows that the [k]-th batch contributes, and whether the target is
    among them. *)
Definition batch_rows (k : nat) : list row_data :=
  fst (scan_rows column_names begin_date alternative_date (empty_set string)
                 (visible_rows pg k) []).

Definition batch_found (k : nat) : bool :=
  snd (scan_rows column_names begin_date alternative_date (empty_set string)
                 (visible_rows pg k) []).

(** Everything recorded from batches [0] to [k]. *)
Definition accumulated (k : nat) : list row_data :=
  concat (map batch_rows (seq 0 (S k))).

End Batches.

End TableReader.

(* ===================================================================== *)
(** * The session: configuration, [scrape]'s output step,
      [export_configuration]                                              *)
(* ===================================================================== *)

Module Scraper.
Import TableReader.

(** [class Variable] ([Variable] is a reserved word here). *)
Record Variable_ : Type := {
  category : string;
  subcategory : string;
  item_name : string;
  calculation_type : string
}.

Record ScraperConfig : Type := {
  language : string;
  include_explanations : bool;
  output_format : string;
  variables : option (list Variable_);
  frequency : option string;
  begin_date : option string;
  end_date : option string
}.

(** The scraper object, as far as these two methods read it. *)
Record EVDSScraper : Type := {
  config : ScraperConfig;
  selected_variables : list pyval
}.

(** What [scrape] returns: the outcome of the Excel export, a
    [pd.DataFrame] built from the table with its [attrs], or the plain
    dictionary. *)
Inductive scrape_result : Type :=
| ExcelExport (saved : bool)
| DataFrame (table_data : pyval) (attrs : list (string * pyval))
| Mapping (result : list (string * pyval)).

(** Lines 462-479 with the [except ... raise] of lines 481-483.  The driver
    work of [save_as_excel] and [parse_explanations] is summed up by what
    they return; both catch their own exceptions.  [None] says that
    [parse_table] is still scrolling after [fuel] passes. *)
Definition scrape_output (self : EVDSScraper) (pg : page) (fuel : nat)
    (begin_date : string) (save_as_excel : bool) (parse_explanations : pyval)
  : option (outcome scrape_result) :=
  let fmt := lower (output_format (config self)) in
  if String.eqb fmt "excel" then Some (Ok (ExcelExport save_as_excel))
  else
    match parse_table pg fuel begin_date with
    | None => None
    | Some table_data =>
        let explanations :=
          if include_explanations (config self) then parse_explanations
          else PNone in
        if String.eqb fmt "df" || String.eqb fmt "dataframe" then
          Some (Ok (DataFrame table_data
                      (if truth explanations && include_explanations (config self)
                       then [("explanations", explanations)] else [])))
        else
          Some (obind (subscript table_data "data") (fun data =>
                obind (subscript table_data "columns") (fun columns =>
                let result := [("data", data); ("columns", columns)] in
                Ok (Mapping (if truth explanations
                             then dict_set result "explanations" explanations
                             else result)))))
    end.

(** The files [export_configuration] can touch: whether [open(path, 'w')]
    succeeds, and the document each file holds. *)
Record filesystem : Type := {
  can_open : string -> bool;
  document : string -> option pyval
}.

Definition write_file (fs : filesystem) (path : string) (doc : pyval)
  : filesystem :=
  {| can_open := can_open fs;
     document := fun p => if String.eqb p path then Some doc else document fs p |}.

(** Lines 781-783. *)
Definition with_json_suffix (filepath : string) : string :=
  if negb (endswith filepath ".json") then (filepath ++ ".json")%string
  else filepath.

(** Lines 792-799: the [for] loop that fills [config_dict["variables"]]. *)
Fixpoint collect_variables (selected : list pyval) (acc : list pyval)
  : list pyval :=
  match selected with
  | [] => acc
  | var :: rest =>
      match var with
      | PList l =>
          if Nat.eqb (length l) 4 then
            collect_variables rest
              (acc ++ [PDict [("category", nth 0 l PNone);
                              ("subcategory", nth 1 l PNone);
                              ("item_name", nth 2 l PNone);
                              ("calculation_type", nth 3 l PNone)]])
          else collect_variables rest acc
      | _ => collect_variables rest acc
      end
  end.

(** [export_configuration(filepath)]: the file system afterwards and the
    boolean returned.  [json.dump] cannot fail on the values of [pyval]. *)
Definition export_configuration (self : EVDSScraper) (fs : filesystem)
    (filepath : string) : filesystem * bool :=
  let filepath := with_json_suffix filepath in
  let config_dict :=
    PDict [("language", PStr (language (config self)));
           ("variables", PList (collect_variables (selected_variables self) []))] in
  if can_open fs filepath then (write_file fs filepath config_dict, true)
  else (fs, false).

(** The [variables] list said declaratively: one object for each element
    that is a list of exactly four, in order. *)
Definition is_four_list (var : pyval) : bool :=
  match var with
  | PList l => Nat.eqb (length l) 4
  | _ => false
  end.

Definition variable_object (var : pyval) : pyval :=
  match var with
  | PList l =>
      PDict [("category", nth 0 l PNone); ("subcategory", nth 1 l PNone);
             ("item_name", nth 2 l PNone); ("calculation_type", nth 3 l PNone)]
  | _ => PNone
  end.

Definition exported_variables (selected : list pyval) : list pyval :=
  map variable_object (filter is_four_list selected).

End Scraper.

(* ===================================================================== *)
(** * The console prompt: [get_user_choice]                               *)
(* ===================================================================== *)

Module Console.

(** What [int(input(...))] gives at the successive prompts: a number, or
    a [ValueError]. *)
Definition keyboard : Type := list (outcome Z).

(** Lines 93-103.  The loop prompts until a number within bounds is typed;
    it returns that number and what is left to be typed, [None] when the
    typed lines run out before a valid one. *)
Fixpoint get_user_choice (max_value : Z) (start_from_one : bool)
    (inputs : keyboard) : option (Z * keyboard) :=
  let base := if start_from_one then 1%Z else 0%Z in
  match inputs with
  | [] => None
  | Raised :: rest => get_user_choice max_value start_from_one rest
  | Ok choice :: rest =>
      if ((base <=? choice) && (choice <=? max_value - 1 + base))%Z
      then Some (choice, rest)
      else get_user_choice max_value start_from_one rest
  end.

End Console.

(* ===================================================================== *)
(** * Effects with a log                                                  *)
(* ===================================================================== *)

Module Effect.

(** A computation that logs events of type [E] and may raise; the log up
    to the raise is kept. *)
Definition eff (E A : Type) : Type := (list E * outcome A)%type.

Definition pure {E A} (a : A) : eff E A := ([], Ok a).
Definition perform {E A} (ev : E) (o : outcome A) : eff E A := ([ev], o).
Definition silent {E A} (o : outcome A) : eff E A := ([], o).
Definition then_ {E A B} (m : eff E A) (k : A -> eff E B) : eff E B :=
  match m with
  | (tr, Ok a) => let (tr', r) := k a in (tr ++ tr', r)
  | (tr, Raised) => (tr, Raised)
  end.

End Effect.

(* ===================================================================== *)
(** * Choosing a variable: the four selections and the pipeline           *)
(* ===================================================================== *)

Module Selection.
Import Resolver Console Effect.

(** A [WebElement]: its [.text] and [safe_click] on it may raise; [handle]
    tells elements apart. *)
Record WebElement : Type := {
  handle : nat;
  element_text : outcome string;
  element_click : outcome unit
}.

(** Every object handed to [_select_base] by this module counts as true:
    a [WebElement] defines neither [__bool__] nor [__len__], and the
    dictionaries have two keys. *)
Definition object_truth {A : Type} (x : A) : bool := true.

Inductive action : Type :=
| Clicked (w : WebElement)
| WaitedForPanel
| ClickedDropdown
| ClickedBody.

(** ** Categories *)

(** A category link with what [handle_click] reads about its panel: the
    [class] of [#collapse_<categorycode>] (finding the panel may raise)
    and whether the wait for its visibility times out. *)
Record category_element : Type := {
  toggle : WebElement;
  panel_class : outcome string;
  panel_visible : outcome unit
}.

(** Lines 171-181: [handle_click] of [_select_category_base]. *)
Definition category_handle_click (element : category_element)
  : eff action string :=
  then_ (silent (panel_class element)) (fun cls =>
  let is_expanded := negb (find "in" cls =? -1)%Z in
  then_ (if negb is_expanded then
           then_ (perform (Clicked (toggle element)) (element_click (toggle element)))
                 (fun _ => perform WaitedForPanel (panel_visible element))
         else pure tt) (fun _ =>
  silent (element_text (toggle element)))).

(** Lines 166-183. *)
Definition _select_category_base (category_selector : selector)
    (categories : list category_element)
  : list (event category_element) * option string :=
  _select_base object_truth
    (fun element => element_text (toggle element))
    (fun element => snd (category_handle_click element))
    category_selector categories.

(** ** Subcategories *)

(** [{'text': ..., 'element': ...}]. *)
Record subcategory_entry : Type := {
  sub_text : string;
  sub_element : WebElement
}.

(** Lines 219-224: the links whose stripped text is not empty, each with
    that text.  The text is read for the test and again for the entry. *)
Fixpoint _get_valid_subcategories (subcategories : list WebElement)
  : outcome (list subcategory_entry) :=
  match subcategories with
  | [] => Ok []
  | subcat :: rest =>
      obind (element_text subcat) (fun tested =>
        if negb (String.eqb (strip tested) "") then
          obind (element_text subcat) (fun text =>
          obind (_get_valid_subcategories rest) (fun entries =>
          Ok ({| sub_text := strip text; sub_element := subcat |} :: entries)))
        else _get_valid_subcategories rest)
  end.

(** Whether a link passes the test of the comprehension. *)
Definition shows_text (subcat : WebElement) : bool :=
  match element_text subcat with
  | Ok text => negb (String.eqb (strip text) "")
  | Raised => false
  end.

(** Lines 185-194. *)
Definition _select_subcategory_base (subcategory_selector : selector)
    (subcategories : list subcategory_entry)
  : list (event subcategory_entry) * option string :=
  _select_base object_truth
    (fun element => Ok (sub_text element))
    (fun element =>
       obind (element_click (sub_element element)) (fun _ => Ok (sub_text element)))
    subcategory_selector subcategories.

(** Lines 283-295: the interactive selection.  [None] while the prompt is
    still waiting for a valid number; otherwise the events of the
    resolver, the value returned and what is left to be typed. *)
Definition select_subcategory (links : list WebElement) (inputs : keyboard)
  : option (list (event subcategory_entry) * option string * keyboard) :=
  match _get_valid_subcategories links with
  | Raised => Some ([], None, inputs)
  | Ok subcategories =>
      match get_user_choice (Z.of_nat (length subcategories)) true inputs with
      | None => None
      | Some (choice, rest) =>
          let (tr, r) := _select_subcategory_base (SelInt choice) subcategories in
          Some (tr, r, rest)
      end
  end.

(** ** Items and calculation types *)

(** [{'text': ..., 'checkbox': ...}]. *)
Record checkbox_entry : Type := {
  entry_text : string;
  checkbox : WebElement
}.

(** A [tr.fcsable] row: finding its check box, and finding its text cell
    and reading the text, may raise. *)
Record item_row : Type := {
  row_checkbox : outcome WebElement;
  row_text : outcome string
}.

Fixpoint click_all (elements : list WebElement) : eff action unit :=
  match elements with
  | [] => pure tt
  | item :: rest =>
      then_ (perform (Clicked item) (element_click item)) (fun _ => click_all rest)
  end.

(** Lines 233-245: a row that raises is skipped; the text is kept as it
    is, empty or not. *)
Fixpoint item_entries (rows : list item_row) : list checkbox_entry :=
  match rows with
  | [] => []
  | row :: rest =>
      match row_checkbox row, row_text row with
      | Ok box, Ok text =>
          {| entry_text := text; checkbox := box |} :: item_entries rest
      | _, _ => item_entries rest
      end
  end.

(** Lines 226-245. *)
Definition _get_valid_items (checked_items : list WebElement)
    (rows : list item_row) : eff action (list checkbox_entry) :=
  then_ (click_all checked_items) (fun _ => pure (item_entries rows)).

(** Lines 196-205. *)
Definition _select_item_base (item_selector : selector)
    (items : list checkbox_entry)
  : list (event checkbox_entry) * option string :=
  _select_base object_truth
    (fun element => Ok (entry_text element))
    (fun element =>
       obind (element_click (checkbox element)) (fun _ => Ok (entry_text element)))
    item_selector items.

(** An entry of the calculation-type drop-down: finding the label and
    reading it, and finding the check box, may raise. *)
Record type_element : Type := {
  type_label : outcome string;
  type_checkbox : outcome WebElement
}.

(** Lines 258-266: no [try] here, a raise ends the whole collection. *)
Fixpoint calc_entries (type_elements : list type_element)
  : outcome (list checkbox_entry) :=
  match type_elements with
  | [] => Ok []
  | calc_type :: rest =>
      obind (type_checkbox calc_type) (fun box =>
      obind (type_label calc_type) (fun text =>
      obind (calc_entries rest) (fun entries =>
      Ok ({| entry_text := text; checkbox := box |} :: entries))))
  end.

(** Lines 247-267. *)
Definition _get_valid_calc_types (dropdown_click : outcome unit)
    (checked : list WebElement) (type_elements : list type_element)
  : eff action (list checkbox_entry) :=
  then_ (perform ClickedDropdown dropdown_click) (fun _ =>
  then_ (click_all checked) (fun _ =>
  silent (calc_entries type_elements))).

(** Lines 207-217; [body_click] is the click on [body] that closes the
    drop-down. *)
Definition _select_calculation_type_base (body_click : outcome unit)
    (calc_type_selector : selector) (calc_types : list checkbox_entry)
  : list (event checkbox_entry) * option string :=
  _select_base object_truth
    (fun element => Ok (entry_text element))
    (fun element =>
       obind (element_click (checkbox element)) (fun _ =>
       obind body_click (fun _ => Ok (entry_text element))))
    calc_type_selector calc_types.

(** ** The pipeline for one variable *)

(** What the page gives to one run of [process_single_variable]: the
    elements each helper finds at the moment it is called. *)
Record page_view : Type := {
  category_elements : list category_element;
  subcategory_links : list WebElement;
  checked_items : list WebElement;
  item_rows : list item_row;
  dropdown_click : outcome unit;
  checked_types : list WebElement;
  type_elements : list type_element;
  body_click : outcome unit;
  cart_click : outcome unit
}.

Inductive step : Type :=
| CategoryStep (ev : event category_element)
| SubcategoryStep (ev : event subcategory_entry)
| ItemStep (ev : event checkbox_entry)
| CalcTypeStep (ev : event checkbox_entry)
| Did (a : action)
| AddToCart.

(** [not r] for an [Optional[str]]. *)
Definition not_str (r : option string) : bool :=
  match r with
  | None => true
  | Some s => String.eqb s ""
  end.

Definition is_empty {A} (l : list A) : bool :=
  match l with [] => true | _ => false end.

(** Lines 341-404.  Every [return False] and the [except] branch give
    [false]; the log says what was done before. *)
Definition process_single_variable (variable : Scraper.Variable_) (v : page_view)
  : list step * bool :=
  let categories := category_elements v in
  if is_empty categories then ([], false) else
  let (ev1, r1) :=
    _select_category_base (SelStr (Scraper.category variable)) categories in
  let tr1 := map CategoryStep ev1 in
  if not_str r1 then (tr1, false) else
  match _get_valid_subcategories (subcategory_links v) with
  | Raised => (tr1, false)
  | Ok subcategories =>
  if is_empty subcategories then (tr1, false) else
  let (ev2, r2) :=
    _select_subcategory_base (SelStr (Scraper.subcategory variable)) subcategories in
  let tr2 := tr1 ++ map SubcategoryStep ev2 in
  if not_str r2 then (tr2, false) else
  match _get_valid_items (checked_items v) (item_rows v) with
  | (a3, Raised) => (tr2 ++ map Did a3, false)
  | (a3, Ok items) =>
  let tr3 := tr2 ++ map Did a3 in
  if is_empty items then (tr3, false) else
  let (ev3, r3) := _select_item_base (SelStr (Scraper.item_name variable)) items in
  let tr3 := tr3 ++ map ItemStep ev3 in
  if not_str r3 then (tr3, false) else
  match _get_valid_calc_types (dropdown_click v) (checked_types v) (type_elements v) with
  | (a4, Raised) => (tr3 ++ map Did a4, false)
  | (a4, Ok calc_types) =>
  let tr4 := tr3 ++ map Did a4 in
  if is_empty calc_types then (tr4, false) else
  let (ev4, r4) :=
    _select_calculation_type_base (body_click v)
      (SelStr (Scraper.calculation_type variable)) calc_types in
  let tr4 := tr4 ++ map CalcTypeStep ev4 in
  if not_str r4 then (tr4, false) else
  match cart_click v with
  | Raised => (tr4 ++ [AddToCart], false)
  | Ok _ => (tr4 ++ [AddToCart], true)
  end
  end
  end
  end.

(** Lines 411-420: the [for] loop, with the view the page offers to the
    [i]-th variable; it returns what each variable did and whether it
    succeeded, and the count of successes. *)
Fixpoint process_each (variables : list Scraper.Variable_)
    (views : nat -> page_view) (i success_count : nat)
  : list (list step * bool) * nat :=
  match variables with
  | [] => ([], success_count)
  | variable :: rest =>
      let (tr, ok) := process_single_variable variable (views i) in
      let (runs, total) :=
        process_each rest views (S i)
          (if ok then S success_count else success_count) in
      ((tr, ok) :: runs, total)
  end.

(** Lines 406-423. *)
Definition process_variables_automatically
    (variables : option (list Scraper.Variable_)) (views : nat -> page_view)
  : list (list step * bool) * bool :=
  match variables with
  | None => ([], false)
  | Some [] => ([], false)
  | Some vars =>
      let (runs, success_count) := process_each vars views 0 0 in
      (runs, (0 <? success_count)%nat)
  end.

End Selection.

(* ===================================================================== *)
(** * Frequency and dates                                                 *)
(* ===================================================================== *)

Module Session.
Import Console Effect Scraper.

(** Lines 43-51 and 53-61. *)
Definition FREQUENCIES : list (string * string) :=
  [ ("daily", "Date"); ("workday", "WORKDAY"); ("weekly", "YEARWEEK");
    ("monthly", "MONTH"); ("quarterly", "QUARTER");
    ("semiannual", "SEMIYEAR"); ("annual", "YEAR") ].

Definition DATE_FORMATS : list (string * string) :=
  [ ("Date", "DD-MM-YYYY"); ("WORKDAY", "DD-MM-YYYY");
    ("YEARWEEK", "DD-MM-YYYY"); ("MONTH", "MM-YYYY");
    ("QUARTER", "Q[1-4]-YYYY"); ("SEMIYEAR", "S[1-2]-YYYY");
    ("YEAR", "YYYY") ].

(** Lines 35-39. *)
Definition is_date_mode_automatic (config : ScraperConfig) : bool :=
  match frequency config, begin_date config, end_date config with
  | Some _, Some _, Some _ => true
  | _, _, _ => false
  end.

(** Lines 532-536. *)
Definition get_date_format_by_frequency (frequency : string) : string :=
  match dict_get DATE_FORMATS frequency with
  | Some format_example => format_example
  | None => "MM-YYYY"
  end.

(** An [option] of the frequency drop-down: its [value] attribute and its
    text; reading either may raise. *)
Record option_element : Type := {
  option_value : outcome string;
  option_text : outcome string
}.

Inductive session_event : Type :=
| SetFrequency (value : string)
| TypeBeginDate (date : string)
| TypeEndDate (date : string).

(** [[opt.get_attribute('value') for opt in options]]. *)
Fixpoint available_values (options : list option_element)
  : outcome (list string) :=
  match options with
  | [] => Ok []
  | opt :: rest =>
      obind (option_value opt) (fun value =>
      obind (available_values rest) (fun values => Ok (value :: values)))
  end.

Fixpoint str_mem (x : string) (l : list string) : bool :=
  match l with
  | [] => false
  | y :: l' => String.eqb x y || str_mem x l'
  end.

(** Lines 514-516: printing the options reads the text and the value of
    each. *)
Fixpoint print_options (options : list option_element) : outcome unit :=
  match options with
  | [] => Ok tt
  | opt :: rest =>
      obind (option_text opt) (fun _ =>
      obind (option_value opt) (fun _ => print_options rest))
  end.

(** Lines 513-526: the interactive part.  [None] while the prompt waits
    for a valid number. *)
Definition choose_frequency (options : list option_element)
    (set_value : string -> outcome unit) (inputs : keyboard)
  : option (eff session_event string) :=
  match print_options options with
  | Raised => Some ([], Raised)
  | Ok _ =>
      match get_user_choice (Z.of_nat (length options)) true inputs with
      | None => None
      | Some (choice, _) =>
          match nth_error options (Z.to_nat (choice - 1)) with
          | None => Some ([], Raised)
          | Some selected =>
              Some (then_ (silent (option_value selected)) (fun value =>
                    then_ (perform (SetFrequency value) (set_value value)) (fun _ =>
                    then_ (silent (option_text selected)) (fun _ =>
                    silent (option_text selected)))))
          end
      end
  end.

(** Lines 503-511: the [for] loop of the automatic part; [None] when no
    option carries the value and the loop falls through. *)
Fixpoint set_first_option (options : list option_element) (freq_value : string)
    (set_value : string -> outcome unit)
  : option (eff session_event string) :=
  match options with
  | [] => None
  | opt :: rest =>
      match option_value opt with
      | Raised => Some ([], Raised)
      | Ok value =>
          if String.eqb value freq_value then
            Some (then_ (perform (SetFrequency freq_value) (set_value freq_value)) (fun _ =>
                  then_ (silent (option_text opt)) (fun _ =>
                  silent (option_text opt))))
          else set_first_option rest freq_value set_value
      end
  end.

(** Lines 485-530.  [found_options] is what finding the drop-down and its
    options gives; every exception is printed and raised again. *)
Definition select_frequency (config : ScraperConfig)
    (found_options : outcome (list option_element))
    (set_value : string -> outcome unit) (inputs : keyboard)
  : option (eff session_event string) :=
  match found_options with
  | Raised => Some ([], Raised)
  | Ok options =>
      match frequency config with
      | Some configured =>
          if negb (String.eqb configured "") then
            match dict_get FREQUENCIES (lower configured) with
            | None => Some ([], Raised)
            | Some freq_value =>
                if String.eqb freq_value "" then Some ([], Raised)
                else
                  match available_values options with
                  | Raised => Some ([], Raised)
                  | Ok values =>
                      if negb (str_mem freq_value values) then Some ([], Raised)
                      else
                        match set_first_option options freq_value set_value with
                        | Some r => Some r
                        | None => choose_frequency options set_value inputs
                        end
                  end
            end
          else choose_frequency options set_value inputs
      | None => choose_frequency options set_value inputs
      end
  end.


(** Lines 563-599.  [current_frequency] is the value of the frequency
    select, [typed] the lines typed at the two prompts, [send_begin] and
    [send_end] what typing into the two date fields does.  [None] while a
    prompt waits; an exception is raised again. *)
Definition set_dates (config : ScraperConfig)
    (current_frequency : outcome string) (typed : list string)
    (send_begin send_end : string -> outcome unit)
  : option (eff session_event (string * string)) :=
  match current_frequency with
  | Raised => Some ([], Raised)
  | Ok _ =>
      let dates :=
        if is_date_mode_automatic config then
          match begin_date config, end_date config with
          | Some b, Some e => Some (b, e)
          | _, _ => None
          end
        else
          match typed with
          | b :: e :: _ => Some (strip b, strip e)
          | _ => None
          end in
      match dates with
      | None => None
      | Some (b, e) =>
          Some (then_ (perform (TypeBeginDate b) (send_begin b)) (fun _ =>
                then_ (perform (TypeEndDate e) (send_end e)) (fun _ =>
                pure (b, e))))
      end
  end.

End Session.

(* ===================================================================== *)
(** * The explanation panel: [parse_explanations]                         *)
(* ===================================================================== *)

Module Explanations.

(** One [.col-md-12] section: the three texts the parser reads from it,
    each found and read, or raising. *)
Record section : Type := {
  code_text : outcome string;
  desc_text : outcome string;
  info_text : outcome string
}.

(** [parts[-1]] of a list that [split] returned. *)
Definition last_part (parts : list string) : string := last parts "".

(** Lines 720-722 and 728: description and calculation type out of the
    stripped description text. *)
Definition main_desc (desc_text : string) : string :=
  strip (hd "" (split "-" desc_text)).

Definition calc_type (desc_text : string) : string :=
  let desc_parts := split "-" desc_text in
  if (1 <? length desc_parts)%nat then strip (last_part desc_parts) else "".

Definition shown_calc_type (desc_text : string) : string :=
  strip_chars "</i>" (strip_chars "<i>" (calc_type desc_text)).

(** Lines 699-735: the body of the [for] loop; a raise skips the section. *)
Definition parse_section (s : section) : outcome (list (string * string)) :=
  obind (code_text s) (fun code_raw =>
  let code := strip code_raw in
  obind (desc_text s) (fun desc_raw =>
  let desc := strip desc_raw in
  obind (info_text s) (fun info_raw =>
  let additional_info := strip info_raw in
  Ok [ ("code", code);
       ("description", main_desc desc);
       ("calculation_type", shown_calc_type desc);
       ("additional_info", additional_info) ]))).

(** Lines 684-742: the sections found ([wait_for_elements] gives the empty
    list when it fails), parsed in order. *)
Fixpoint parse_explanations (var_sections : list section)
  : list (list (string * string)) :=
  match var_sections with
  | [] => []
  | s :: rest =>
      match parse_section s with
      | Ok explanation => explanation :: parse_explanations rest
      | Raised => parse_explanations rest
      end
  end.

(** The list as [scrape] holds it. *)
Definition explanations_value (explanations : list (list (string * string)))
  : pyval :=
  PList (map TableReader.row_to_py explanations).

End Explanations.

(* ===================================================================== *)
(** * The interactive loop of [scrape]                                    *)
(* ===================================================================== *)

Module Interactive.

(** One turn of the loop of lines 440-448: what the four interactive
    selections returned, what the click on the cart did, and the answer
    to "Add more variables?". *)
Record turn : Type := {
  chosen_category : option string;
  chosen_subcategory : option string;
  chosen_item : option string;
  chosen_calculation_type : option string;
  cart : outcome unit;
  answer : string
}.

Definition optional (r : option string) : pyval :=
  match r with
  | Some s => PStr s
  | None => PNone
  end.

(** Lines 440-452: [None] while the loop waits for another turn;
    [Some Raised] when adding to the cart raised; otherwise the list that
    becomes [selected_variables]. *)
Fixpoint interactive_loop (turns : list turn) (var : list pyval)
  : option (outcome (list pyval)) :=
  match turns with
  | [] => None
  | t :: rest =>
      match cart t with
      | Raised => Some Raised
      | Ok _ =>
          let var' :=
            var ++ [PList [optional (chosen_category t);
                           optional (chosen_subcategory t);
                           optional (chosen_item t);
                           optional (chosen_calculation_type t)]] in
          if negb (String.eqb (strip (lower (answer t))) "y")
          then Some (Ok var')
          else interactive_loop rest var'
      end
  end.

(** What a turn adds to [var], and the object that
    [export_configuration] writes for it. *)
Definition recorded_variable (t : turn) : pyval :=
  PList [optional (chosen_category t); optional (chosen_subcategory t);
         optional (chosen_item t); optional (chosen_calculation_type t)].

Definition exported_object (t : turn) : pyval :=
  PDict [("category", optional (chosen_category t));
         ("subcategory", optional (chosen_subcategory t));
         ("item_name", optional (chosen_item t));
         ("calculation_type", optional (chosen_calculation_type t))].

End Interactive.

(* ===================================================================== *)
(** * Concrete pages and candidate lists                                  *)
(* ===================================================================== *)

Module Examples.
Import Resolver TableReader Scraper.

(** A candidate as the subcategory, item and calculation-type callers
    build it: a dictionary with a text and a handle. *)
Record candidate : Type := { text : string; handle : nat }.

Definition always_truthy (c : candidate) : bool := true.
Definition text_of (c : candidate) : outcome string := Ok (text c).
Definition click_returns_text (c : candidate) : outcome string := Ok (text c).

Definition prices : candidate := {| text := "Prices"; handle := 0 |}.
Definition rates_archive : candidate :=
  {| text := "Exchange Rates (Archive)"; handle := 1 |}.
Definition rates : candidate := {| text := "Exchange Rates"; handle := 2 |}.
Definition money : candidate := {| text := "Money Supply"; handle := 3 |}.

(** The second entry contains the text of the third. *)
Definition categories : list candidate := [prices; rates_archive; rates; money].

Definition two_headers : list (outcome string) := [Ok "Tarih"; Ok "TP DK USD A"].
Definition two_columns : list string := ["Tarih"; "TP DK USD A"].

(** Three months, newest first, the oldest one only after a scroll. *)
Definition monthly_page : page :=
  {| header_texts := two_headers;
     visible_rows := fun k =>
       match k with
       | 0 => [readable ["03-2023"; "18.9"]; readable ["02-2023"; "18.8"]]
       | _ => [readable ["01-2023"; "18.7"]]
       end;
     scroll_script := fun _ => Ok tt |}.

(** The same grid, but a scroll of 100 pixels leaves the last row of the
    first batch on screen. *)
Definition overlapping_page : page :=
  {| header_texts := two_headers;
     visible_rows := fun k =>
       match k with
       | 0 => [readable ["03-2023"; "18.9"]; readable ["02-2023"; "18.8"]]
       | _ => [readable ["02-2023"; "18.8"]; readable ["01-2023"; "18.7"]]
       end;
     scroll_script := fun _ => Ok tt |}.

(** A batch whose first row is rendered with a single cell. *)
Definition ragged_page : page :=
  {| header_texts := two_headers;
     visible_rows := fun _ => [readable ["02-2023"]; readable ["01-2023"; "18.7"]];
     scroll_script := fun _ => Ok tt |}.

(** The target row itself rendered with a single cell, then nothing. *)
Definition short_target_page : page :=
  {| header_texts := two_headers;
     visible_rows := fun _ => [readable ["01-2023"]];
     scroll_script := fun _ => Ok tt |}.

(** The scroll container was not found: the script raises. *)
Definition no_container_page : page :=
  {| header_texts := two_headers;
     visible_rows := fun _ => [readable ["03-2023"; "18.9"]];
     scroll_script := fun _ => Raised |}.

(** The target never shows up and scrolling always works. *)
Definition endless_page : page :=
  {| header_texts := two_headers;
     visible_rows := fun _ => [readable ["03-2023"; "18.9"]];
     scroll_script := fun _ => Ok tt |}.

Definition dict_config : ScraperConfig :=
  {| language := "english"; include_explanations := false;
     output_format := "dict"; variables := None;
     frequency := Some "monthly"; begin_date := Some "01-2023";
     end_date := Some "03-2023" |}.

Definition dict_scraper : EVDSScraper :=
  {| config := dict_config;
     selected_variables :=
       [ PList [PStr "Exchange Rates"; PStr "Indicative"; PStr "USD"; PStr "Level"];
         PTuple [PStr "a"; PStr "b"; PStr "c"; PStr "d"];
         PList [PStr "a"; PStr "b"; PStr "c"];
         PList [PStr "Prices"; PNone; PStr "CPI"; PStr "Level"] ] |}.

Definition open_disk : filesystem :=
  {| can_open := fun _ => true; document := fun _ => None |}.

End Examples.

Module MoreExamples.
Import Resolver Console Effect Selection.

Definition link (n : nat) (text : string) : WebElement :=
  {| handle := n; element_text := Ok text; element_click := Ok tt |}.

(** Three links of which the second shows only blanks. *)
Definition three_links : list WebElement :=
  [link 0 " Indicative Rates "; link 1 "   "; link 2 "Cross Rates"].


Definition open_category : category_element :=
  {| toggle := link 10 "Exchange Rates";
     panel_class := Ok "panel-collapse collapse in";
     panel_visible := Ok tt |}.

Definition closed_category : category_element :=
  {| toggle := link 11 "Prices";
     panel_class := Ok "panel-collapse collapse";
     panel_visible := Ok tt |}.

(** A page on which the dollar rate can be selected all the way. *)
Definition dollar_view : page_view :=
  {| category_elements := [closed_category; open_category];
     subcategory_links := three_links;
     checked_items := [];
     item_rows := [ {| row_checkbox := Ok (link 20 ""); row_text := Ok "(USD) US Dollar" |};
                    {| row_checkbox := Raised; row_text := Ok "(EUR) Euro" |} ];
     dropdown_click := Ok tt;
     checked_types := [];
     type_elements := [ {| type_label := Ok "Level"; type_checkbox := Ok (link 30 "") |} ];
     body_click := Ok tt;
     cart_click := Ok tt |}.

(** The same page without any item row. *)
Definition no_item_view : page_view :=
  {| category_elements := [closed_category; open_category];
     subcategory_links := three_links;
     checked_items := [];
     item_rows := [];
     dropdown_click := Ok tt;
     checked_types := [];
     type_elements := [ {| type_label := Ok "Level"; type_checkbox := Ok (link 30 "") |} ];
     body_click := Ok tt;
     cart_click := Ok tt |}.

Definition frequency_option (value text : string) : Session.option_element :=
  {| Session.option_value := Ok value; Session.option_text := Ok text |}.

(** The drop-down of a series that is published monthly at most. *)
Definition monthly_options : list Session.option_element :=
  [ frequency_option "MONTH" "Monthly"; frequency_option "QUARTER" "Quarterly";
    frequency_option "YEAR" "Annual" ].

Definition config_with (freq begin_ end_ : option string) : Scraper.ScraperConfig :=
  {| Scraper.language := "english"; Scraper.include_explanations := true;
     Scraper.output_format := "dataframe"; Scraper.variables := None;
     Scraper.frequency := freq; Scraper.begin_date := begin_;
     Scraper.end_date := end_ |}.

Definition scripts_work (value : string) : outcome unit := Ok tt.

Definition readable_section (code desc info : string) : Explanations.section :=
  {| Explanations.code_text := Ok code; Explanations.desc_text := Ok desc;
     Explanations.info_text := Ok info |}.

(** Two sections around one whose additional information is missing. *)
Definition three_sections : list Explanations.section :=
  [ readable_section "TP.DK.USD.A" " (USD) US Dollar - Buying - Level " "Source: CBRT";
    {| Explanations.code_text := Ok "TP.DK.EUR.A";
       Explanations.desc_text := Ok "(EUR) Euro - Level";
       Explanations.info_text := Raised |};
    readable_section "TP.FG.J0" "Price index" "" ].

(** A grid whose second header cannot be read. *)
Definition stale_header_page : TableReader.page :=
  {| TableReader.header_texts := [Ok "Tarih"; Raised];
     TableReader.visible_rows := fun _ => [TableReader.readable ["01-2023"; "18.7"]];
     TableReader.scroll_script := fun _ => Ok tt |}.

(** A grid whose headers were not found. *)
Definition headless_page : TableReader.page :=
  {| TableReader.header_texts := [];
     TableReader.visible_rows := fun k =>
       match k with
       | 0 => [TableReader.readable ["03-2023"; "18.9"]; Ok [Ok "02-2023"; Raised]]
       | _ => [TableReader.readable ["01-2023"; "18.7"]]
       end;
     TableReader.scroll_script := fun _ => Ok tt |}.

(** Two turns at the prompt; in the first the item was not found. *)
Definition two_turns : list Interactive.turn :=
  [ {| Interactive.chosen_category := Some "Exchange Rates";
       Interactive.chosen_subcategory := Some "Indicative Rates";
       Interactive.chosen_item := None;
       Interactive.chosen_calculation_type := Some "Level";
       Interactive.cart := Ok tt; Interactive.answer := " Y " |};
    {| Interactive.chosen_category := Some "Prices";
       Interactive.chosen_subcategory := Some "CPI";
       Interactive.chosen_item := Some "General";
       Interactive.chosen_calculation_type := Some "Level";
       Interactive.cart := Ok tt; Interactive.answer := "n" |} ].

(** Three months and, below the target on the same screen, an older one. *)
Definition older_rows_page : TableReader.page :=
  {| TableReader.header_texts := [Ok "Tarih"; Ok "TP DK USD A"];
     TableReader.visible_rows := fun k =>
       match k with
       | 0 => [TableReader.readable ["03-2023"; "18.9"];
               TableReader.readable ["02-2023"; "18.8"]]
       | _ => [TableReader.readable ["01-2023"; "18.7"];
               TableReader.readable ["12-2022"; "18.6"]]
       end;
     TableReader.scroll_script := fun _ => Ok tt |}.

(** The page of [dollar_view] with a blank row above the dollar. *)
Definition blank_item_view : page_view :=
  {| category_elements := [closed_category; open_category];
     subcategory_links := three_links;
     checked_items := [];
     item_rows := [ {| row_checkbox := Ok (link 22 ""); row_text := Ok "" |};
                    {| row_checkbox := Ok (link 20 ""); row_text := Ok "(USD) US Dollar" |} ];
     dropdown_click := Ok tt;
     checked_types := [];
     type_elements := [ {| type_label := Ok "Level"; type_checkbox := Ok (link 30 "") |} ];
     body_click := Ok tt;
     cart_click := Ok tt |}.

Definition dollar : Scraper.Variable_ :=
  {| Scraper.category := "Exchange Rates"; Scraper.subcategory := "Indicative";
     Scraper.item_name := "USD"; Scraper.calculation_type := "Level" |}.

End MoreExamples.

(* ===================================================================== *)
(** * Properties of the Selector Resolver                                 *)
(* ===================================================================== *)

Import Resolver.

Section ResolverFacts.

Variable element : Type.
Variable truthy : element -> bool.
Variable get_text_fn : element -> outcome string.
Variable click_fn : element -> outcome string.

Local Abbreviation exact_scan := (exact_scan get_text_fn).
Local Abbreviation contained_scan := (contained_scan get_text_fn).
Local Abbreviation select_body := (select_body truthy get_text_fn click_fn).
Local Abbreviation _select_base := (_select_base truthy get_text_fn click_fn).

Lemma bind_call_ok {A B} (ev : event element) (a : A) (k : A -> M element B) :
  bind (call ev (Ok a)) k = (ev :: fst (k a), snd (k a)).
Proof. unfold bind, call. destruct (k a); reflexivity. Qed.

Lemma bind_call_raised {A B} (ev : event element) (k : A -> M element B) :
  bind (call ev (@Raised A)) k = ([ev], Raised).
Proof. reflexivity. Qed.

(** Both scans only ever read texts. *)
Lemma exact_scan_reads t C :
  Forall (fun ev => is_get_text ev = true) (fst (exact_scan t C)).
Proof.
  induction C as [|e C IH]; simpl; [constructor|].
  destruct (get_text_fn e) as [s|].
  - rewrite bind_call_ok. simpl. constructor; [reflexivity|].
    destruct (String.eqb t s); [constructor | exact IH].
  - rewrite bind_call_raised. simpl. repeat constructor.
Qed.

Lemma contained_scan_reads t C :
  Forall (fun ev => is_get_text ev = true) (fst (contained_scan t C)).
Proof.
  induction C as [|e C IH]; simpl; [constructor|].
  destruct (get_text_fn e) as [s|].
  - rewrite bind_call_ok. simpl. constructor; [reflexivity|].
    destruct (str_in t s || str_in s t); [constructor | exact IH].
  - rewrite bind_call_raised. simpl. repeat constructor.
Qed.

(** The exact scan stops at the first element whose text is the selector,
    having read each element before it once. *)
Lemma exact_scan_first t pre e post :
  (forall x, In x pre -> exists s, get_text_fn x = Ok s /\ s <> t) ->
  get_text_fn e = Ok t ->
  exact_scan t (pre ++ e :: post) = (map GetText pre ++ [GetText e], Ok (Some e)).
Proof.
  intros Hpre He. induction pre as [|x pre IH]; simpl.
  - rewrite He, bind_call_ok, String.eqb_refl. reflexivity.
  - destruct (Hpre x (or_introl eq_refl)) as [s [Hs Hne]].
    rewrite Hs, bind_call_ok.
    destruct (String.eqb_spec t s) as [->|_]; [congruence|].
    rewrite IH by (intros y Hy; apply Hpre; right; exact Hy).
    reflexivity.
Qed.

(** A scan over texts none of which matches selects nothing. *)
Lemma exact_scan_miss t C :
  (forall e s, In e C -> get_text_fn e = Ok s -> s <> t) ->
  snd (exact_scan t C) = Ok None \/ snd (exact_scan t C) = Raised.
Proof.
  intros H. induction C as [|e C IH]; simpl; [left; reflexivity|].
  destruct (get_text_fn e) as [s|] eqn:Hs.
  - rewrite bind_call_ok. simpl.
    destruct (String.eqb_spec t s) as [->|_].
    + exfalso. exact (H e s (or_introl eq_refl) Hs eq_refl).
    + apply IH. intros x y Hx. apply H. right; exact Hx.
  - rewrite bind_call_raised. right; reflexivity.
Qed.

Lemma contained_scan_miss t C :
  (forall e s, In e C -> get_text_fn e = Ok s ->
               str_in t s = false /\ str_in s t = false) ->
  snd (contained_scan t C) = Ok None \/ snd (contained_scan t C) = Raised.
Proof.
  intros H. induction C as [|e C IH]; simpl; [left; reflexivity|].
  destruct (get_text_fn e) as [s|] eqn:Hs.
  - rewrite bind_call_ok. simpl.
    destruct (H e s (or_introl eq_refl) Hs) as [H1 H2]. rewrite H1, H2. simpl.
    apply IH. intros x y Hx. apply H. right; exact Hx.
  - rewrite bind_call_raised. right; reflexivity.
Qed.

(** With every text readable and none matching, a scan reads the whole
    list. *)
Lemma exact_scan_all t C :
  (forall e, In e C -> exists s, get_text_fn e = Ok s /\ s <> t) ->
  exact_scan t C = (map GetText C, Ok None).
Proof.
  intros H. induction C as [|e C IH]; simpl; [reflexivity|].
  destruct (H e (or_introl eq_refl)) as [s [Hs Hne]].
  rewrite Hs, bind_call_ok.
  destruct (String.eqb_spec t s) as [->|_]; [congruence|].
  rewrite IH by (intros x Hx; apply H; right; exact Hx). reflexivity.
Qed.

Lemma contained_scan_all t C :
  (forall e, In e C -> exists s, get_text_fn e = Ok s /\
               str_in t s = false /\ str_in s t = false) ->
  contained_scan t C = (map GetText C, Ok None).
Proof.
  intros H. induction C as [|e C IH]; simpl; [reflexivity|].
  destruct (H e (or_introl eq_refl)) as [s [Hs [H1 H2]]].
  rewrite Hs, bind_call_ok, H1, H2. simpl.
  rewrite IH by (intros x Hx; apply H; right; exact Hx). reflexivity.
Qed.

Lemma reads_no_click (tr : list (event element)) e :
  Forall (fun ev => is_get_text ev = true) tr -> ~ In (Click e) tr.
Proof.
  intros HF Hin. rewrite Forall_forall in HF.
  specialize (HF _ Hin). discriminate.
Qed.

(** C3.  When some candidate's text is exactly the text target [t], the
    resolver takes the first such candidate in list order and activates
    it: it reads the text of each candidate up to that one once, never
    starts the containment scan, and calls [click_fn] on that candidate
    only, whatever the earlier texts are (they may contain [t] or be
    contained in it).  The result is what [click_fn] returns, or [None]
    with the error message if the click raises.  Candidates are objects
    that count as true, as [WebElement]s and the callers' dictionaries
    are, and the texts before the match can be read. *)
Theorem select_exact_match_first (t : string) (pre : list element)
    (e : element) (post : list element) :
  (forall x, In x pre -> exists s, get_text_fn x = Ok s /\ s <> t) ->
  get_text_fn e = Ok t ->
  truthy e = true ->
  _select_base (SelStr t) (pre ++ e :: post)
  = match click_fn e with
    | Ok r => (map GetText pre ++ [GetText e; Click e], Some r)
    | Raised => (map GetText pre ++ [GetText e; Click e; PrintError], None)
    end.
Proof.
  intros Hpre He Ht.
  unfold Resolver._select_base, Resolver.select_body.
  rewrite (exact_scan_first t pre e post Hpre He).
  unfold bind, call, ret, emit, not_. simpl. rewrite Ht. simpl.
  destruct (click_fn e) as [r|]; simpl; rewrite ?Ht; simpl;
    rewrite ?app_nil_r, <- ?app_assoc; reflexivity.
Qed.

(** C6.  An ordinal selector [n] with [1 <= n <= |C|] selects [C[n-1]]
    directly: the only event is the click on that candidate, no text is
    read; the result is what [click_fn] returns ([None] after the error
    message if the click raises).  For [n] outside that range nothing
    raises inside the body: the resolver prints that the selection was not
    found and returns [None], with no click and no text read. *)
Theorem select_ordinal (n : Z) (C : list element) :
  ((1 <= n <= Z.of_nat (length C))%Z ->
   exists e, nth_error C (Z.to_nat (n - 1)) = Some e /\
     (truthy e = true ->
      _select_base (SelInt n) C
      = match click_fn e with
        | Ok r => ([Click e], Some r)
        | Raised => ([Click e; PrintError], None)
        end)) /\
  (~ (1 <= n <= Z.of_nat (length C))%Z ->
   select_body (SelInt n) C = ([PrintNotFound (SelInt n)], Ok None) /\
   _select_base (SelInt n) C = ([PrintNotFound (SelInt n)], None)).
Proof.
  split.
  - intros [H1 H2].
    destruct (nth_error C (Z.to_nat (n - 1))) as [e|] eqn:Hn.
    + exists e. split; [reflexivity|]. intros Ht.
      unfold Resolver._select_base, Resolver.select_body.
      assert (Hr : ((1 <=? n) && (n <=? Z.of_nat (length C)))%Z = true)
        by (apply andb_true_intro; split; apply Z.leb_le; assumption).
      rewrite Hr, Hn. unfold bind, call, ret. simpl. rewrite Ht. simpl.
      destruct (click_fn e); reflexivity.
    + apply nth_error_None in Hn. lia.
  - intros Hout.
    assert (Hr : ((1 <=? n) && (n <=? Z.of_nat (length C)))%Z = false).
    { apply andb_false_iff.
      destruct (Z.leb_spec 1 n); [right | left; reflexivity].
      apply Z.leb_gt. lia. }
    unfold Resolver._select_base, Resolver.select_body.
    rewrite Hr. split; reflexivity.
Qed.

(** C7.  When no candidate's text equals the text target [t] and none
    stands in containment with it in either direction, the resolver
    returns [None] (it cannot raise: the body runs under [except
    Exception]) and [click_fn] is not called on any candidate; if every
    text can be read, it reads each text twice, prints that the selection
    was not found, and nothing else. *)
Theorem select_no_match_not_found (t : string) (C : list element) :
  (forall e s, In e C -> get_text_fn e = Ok s ->
     s <> t /\ str_in t s = false /\ str_in s t = false) ->
  snd (_select_base (SelStr t) C) = None /\
  (forall e, ~ In (Click e) (fst (_select_base (SelStr t) C))) /\
  ((forall e, In e C -> get_text_fn e <> Raised) ->
   _select_base (SelStr t) C
   = (map GetText C ++ map GetText C ++ [PrintNotFound (SelStr t)], None)).
Proof.
  intros H.
  assert (Hex : forall e s, In e C -> get_text_fn e = Ok s -> s <> t)
    by (intros e s Hi Hs; exact (proj1 (H e s Hi Hs))).
  assert (Hco : forall e s, In e C -> get_text_fn e = Ok s ->
                            str_in t s = false /\ str_in s t = false)
    by (intros e s Hi Hs; exact (proj2 (H e s Hi Hs))).
  pose proof (exact_scan_reads t C) as R1.
  pose proof (contained_scan_reads t C) as R2.
  pose proof (exact_scan_miss t C Hex) as M1.
  pose proof (contained_scan_miss t C Hco) as M2.
  assert (Hshape :
    (exists tr, _select_base (SelStr t) C = (tr ++ [PrintNotFound (SelStr t)], None)
                /\ Forall (fun ev => is_get_text ev = true) tr) \/
    (exists tr, _select_base (SelStr t) C = (tr ++ [PrintError], None)
                /\ Forall (fun ev => is_get_text ev = true) tr)).
  { unfold Resolver._select_base, Resolver.select_body.
    destruct (exact_scan t C) as [tr1 r1]. simpl in R1, M1.
    destruct (contained_scan t C) as [tr2 r2] eqn:E2. simpl in R2, M2.
    destruct M1 as [-> | ->].
    - destruct M2 as [-> | ->].
      + left. exists (tr1 ++ tr2). split.
        * unfold bind, emit, ret, not_. simpl. rewrite ?app_nil_r. reflexivity.
        * apply Forall_app; split; assumption.
      + right. exists (tr1 ++ tr2). split.
        * unfold bind, not_. simpl. reflexivity.
        * apply Forall_app; split; assumption.
    - right. exists tr1. split; [reflexivity | assumption]. }
  split; [|split].
  - destruct Hshape as [[tr [-> _]] | [tr [-> _]]]; reflexivity.
  - intros e Hin.
    destruct Hshape as [[tr [E F]] | [tr [E F]]]; rewrite E in Hin; simpl in Hin;
      apply in_app_or in Hin; destruct Hin as [Hin | Hin].
    + exact (reads_no_click tr e F Hin).
    + destruct Hin as [Hin | []]; discriminate.
    + exact (reads_no_click tr e F Hin).
    + destruct Hin as [Hin | []]; discriminate.
  - intros Hread.
    assert (A1 : forall e, In e C -> exists s, get_text_fn e = Ok s /\ s <> t).
    { intros e Hi. destruct (get_text_fn e) as [s|] eqn:Hs.
      - exists s. split; [reflexivity | exact (Hex e s Hi Hs)].
      - exfalso. exact (Hread e Hi Hs). }
    assert (A2 : forall e, In e C -> exists s, get_text_fn e = Ok s /\
                         str_in t s = false /\ str_in s t = false).
    { intros e Hi. destruct (get_text_fn e) as [s|] eqn:Hs.
      - exists s. split; [reflexivity | exact (Hco e s Hi Hs)].
      - exfalso. exact (Hread e Hi Hs). }
    unfold Resolver._select_base, Resolver.select_body.
    rewrite (exact_scan_all t C A1), (contained_scan_all t C A2).
    unfold bind, emit, ret, not_. simpl.
    rewrite ?app_nil_r, <- ?app_assoc. reflexivity.
Qed.

End ResolverFacts.

Import Examples.

(** The exact match [rates] is taken although [rates_archive], which
    comes first, contains the target. *)
Lemma select_exact_match_first_witness :
  str_in "Exchange Rates" (text rates_archive) = true /\
  _select_base always_truthy text_of click_returns_text
    (SelStr "Exchange Rates") categories
  = ([GetText prices; GetText rates_archive; GetText rates; Click rates],
     Some "Exchange Rates").
Proof.
  split; [reflexivity|].
  apply (select_exact_match_first candidate always_truthy text_of click_returns_text
           "Exchange Rates" [prices; rates_archive] rates [money]).
  - intros x [<- | [<- | []]].
    + exists "Prices". split; [reflexivity | discriminate].
    + exists "Exchange Rates (Archive)". split; [reflexivity | discriminate].
  - reflexivity.
  - reflexivity.
Defined.

Lemma select_ordinal_witness :
  _select_base always_truthy text_of click_returns_text (SelInt 3) categories
  = ([Click rates], Some "Exchange Rates") /\
  _select_base always_truthy text_of click_returns_text (SelInt 5) categories
  = ([PrintNotFound (SelInt 5)], None).
Proof.
  pose proof (select_ordinal candidate always_truthy text_of click_returns_text 3 categories)
    as [Hin _].
  pose proof (select_ordinal candidate always_truthy text_of click_returns_text 5 categories)
    as [_ Hout].
  split.
  - destruct Hin as [e [He Hsel]]; [simpl; lia|].
    simpl in He. injection He as <-. apply Hsel. reflexivity.
  - apply Hout. simpl. lia.
Defined.

Lemma select_no_match_not_found_witness :
  _select_base always_truthy text_of click_returns_text (SelStr "Gold") categories
  = (map GetText categories ++ map GetText categories
       ++ [PrintNotFound (SelStr "Gold")], None).
Proof.
  apply (select_no_match_not_found candidate always_truthy text_of click_returns_text
           "Gold" categories).
  - intros e s [<- | [<- | [<- | [<- | []]]]] [= <-];
      (split; [discriminate | split; reflexivity]).
  - intros e _. discriminate.
Defined.

(* ===================================================================== *)
(** * Properties of [count], [split] and the alternate date               *)
(* ===================================================================== *)

Import TableReader.

Lemma split_length sep s : length (split sep s) = S (count sep s).
Proof.
  induction s as [|c s IH]; simpl; [reflexivity|].
  destruct (Ascii.eqb c sep); simpl.
  - rewrite IH. reflexivity.
  - destruct (split sep s) as [|w ws]; simpl in *; [discriminate | exact IH].
Qed.

Lemma split_no_sep sep s : count sep s = 0 -> split sep s = [s].
Proof.
  induction s as [|c s IH]; simpl; [reflexivity|].
  destruct (Ascii.eqb c sep); simpl; [discriminate|].
  intros H. rewrite (IH H). reflexivity.
Qed.

(** A string with exactly one separator splits into the part before it
    and the part after it. *)
Lemma split_one_sep sep s :
  count sep s = 1 ->
  exists m y, split sep s = [m; y] /\ s = (m ++ String sep y)%string /\
              count sep m = 0 /\ count sep y = 0.
Proof.
  induction s as [|c s IH]; simpl; [discriminate|].
  destruct (Ascii.eqb_spec c sep) as [-> | Hne]; simpl; intros H.
  - injection H as H. exists EmptyString, s.
    rewrite (split_no_sep sep s H).
    split; [reflexivity | split; [reflexivity | split; [reflexivity | exact H]]].
  - destruct (IH H) as [m [y [Hs [Heq [Hm Hy]]]]].
    exists (String c m), y. rewrite Hs.
    split; [reflexivity | split; [| split; [| exact Hy]]].
    + rewrite Heq at 1. reflexivity.
    + simpl. destruct (Ascii.eqb_spec c sep); [contradiction | exact Hm].
Qed.

Lemma count_join sep m y :
  count sep m = 0 -> count sep y = 0 -> count sep (m ++ String sep y) = 1.
Proof.
  induction m as [|c m IH]; simpl; intros Hm Hy.
  - rewrite Ascii.eqb_refl, Hy. reflexivity.
  - destruct (Ascii.eqb c sep); simpl in *; [discriminate | exact (IH Hm Hy)].
Qed.

Lemma split_join sep m y :
  count sep m = 0 -> count sep y = 0 -> split sep (m ++ String sep y) = [m; y].
Proof.
  induction m as [|c m IH]; simpl; intros Hm Hy.
  - rewrite Ascii.eqb_refl, (split_no_sep sep y Hy). reflexivity.
  - destruct (Ascii.eqb c sep); simpl in *; [discriminate|].
    rewrite (IH Hm Hy). reflexivity.
Qed.

(** The alternate exists exactly for single-hyphen dates, and is the date
    with its two parts swapped; unpacking the split never fails. *)
Lemma alternative_date_of_one t :
  count "-" t = 1 ->
  exists m y, t = (m ++ "-" ++ y)%string /\ count "-" m = 0 /\ count "-" y = 0 /\
              alternative_date_of t = Ok (Some (y ++ "-" ++ m)%string).
Proof.
  intros H. destruct (split_one_sep "-" t H) as [m [y [Hs [Heq [Hm Hy]]]]].
  exists m, y.
  split; [exact Heq | split; [exact Hm | split; [exact Hy |]]].
  unfold alternative_date_of. rewrite H, Hs. reflexivity.
Qed.

Lemma alternative_date_of_other t :
  count "-" t <> 1 -> alternative_date_of t = Ok None.
Proof.
  intros H. unfold alternative_date_of.
  destruct (Nat.eqb_spec (count "-" t) 1); [contradiction | reflexivity].
Qed.

Lemma alternative_date_of_some t alt :
  alternative_date_of t = Ok (Some alt) -> count "-" t = 1.
Proof.
  intros H. destruct (Nat.eq_dec (count "-" t) 1) as [E | E]; [exact E|].
  rewrite (alternative_date_of_other t E) in H. discriminate.
Qed.

(** Swapping twice gives the date back. *)
Lemma alternative_date_of_involutive t alt :
  alternative_date_of t = Ok (Some alt) -> alternative_date_of alt = Ok (Some t).
Proof.
  intros H. pose proof (alternative_date_of_some t alt H) as Hc.
  destruct (alternative_date_of_one t Hc) as [m [y [Heq [Hm [Hy Ha]]]]].
  rewrite Ha in H. injection H as <-.
  unfold alternative_date_of. simpl append.
  rewrite (count_join "-" y m Hy Hm), (split_join "-" y m Hy Hm).
  simpl. rewrite Heq. reflexivity.
Qed.

Lemma alternative_date_nonempty t alt :
  alternative_date_of t = Ok (Some alt) -> alt <> "".
Proof.
  intros H. pose proof (alternative_date_of_involutive t alt H) as H'.
  intros ->. discriminate.
Qed.

(* ===================================================================== *)
(** * Properties of the Incremental Table Reader                          *)
(* ===================================================================== *)

Section RowFacts.

Variable column_names : list string.
Variable begin_date : string.
Variable alternative_date : option string.

Local Abbreviation fill_row := (fill_row column_names).
Local Abbreviation parse_row := (parse_row column_names begin_date alternative_date).
Local Abbreviation scan_rows := (scan_rows column_names begin_date alternative_date).
Local Abbreviation is_begin_date := (is_begin_date begin_date alternative_date).

(** Reading a row whose cells are all readable never raises. *)
Lemma fill_row_readable texts : forall idx acc,
  exists rd, fill_row idx (map Ok texts) acc = Ok rd.
Proof.
  induction texts as [|x texts IH]; intros idx acc; simpl.
  - exists acc. reflexivity.
  - destruct (idx <? length column_names)%nat; simpl; apply IH.
Qed.

(** What the loop body decides for a readable row: it sets
    [found_begin_date] exactly when the row has a cell, its key is not
    empty, it has a cell for every column name, and its key is the target
    or the alternate. *)
Lemma parse_row_readable_found texts :
  match parse_row (empty_set string) (readable texts) with
  | Appended _ found => found
  | Skipped => false
  end
  = negb (Nat.eqb (length texts) 0)
    && negb (String.eqb (row_key texts) "")
    && (length column_names <=? length texts)%nat
    && is_begin_date (row_key texts).
Proof.
  destruct texts as [|x texts]; [reflexivity|].
  unfold TableReader.parse_row, readable, row_key.
  cbn [map hd length Nat.eqb negb andb].
  destruct (String.eqb (strip x) ""); [reflexivity|].
  cbn [negb andb set_mem empty_set].
  rewrite length_map.
  destruct (length column_names <=? S (length texts))%nat; [|reflexivity].
  destruct (fill_row_readable (x :: texts) 0 []) as [rd Hrd].
  cbn [map] in Hrd. rewrite Hrd. reflexivity.
Qed.

(** A row with fewer cells than there are column names is skipped, whatever
    its cells hold. *)
Lemma parse_row_short processed_rows cells :
  length cells < length column_names ->
  parse_row processed_rows (Ok cells) = Skipped.
Proof.
  intros Hlt. unfold TableReader.parse_row.
  destruct cells as [|first rest]; [reflexivity|].
  destruct first as [text|]; [|reflexivity].
  destruct (negb (String.eqb (strip text) "")
            && negb (set_mem string_dec (strip text) processed_rows));
    [|reflexivity].
  match goal with
  | |- context [(?a <=? ?b)%nat] => destruct (Nat.leb_spec a b)
  end; [lia | reflexivity].
Qed.

(** A row is appended only if it has a cell for every column name. *)
Lemma parse_row_appended processed_rows r rd found :
  parse_row processed_rows r = Appended rd found ->
  exists cells, r = Ok cells /\ length column_names <= length cells.
Proof.
  destruct r as [cells|]; [|discriminate].
  intros H. exists cells. split; [reflexivity|].
  destruct (Nat.le_gt_cases (length column_names) (length cells)) as [Hle | Hgt];
    [exact Hle|].
  rewrite (parse_row_short processed_rows cells Hgt) in H. discriminate.
Qed.

(** The rows already in [data] are a prefix of the result, untouched; what
    a batch adds and whether it holds the target do not depend on [data]. *)
Lemma scan_rows_app processed_rows rows : forall data,
  scan_rows processed_rows rows data
  = (data ++ fst (scan_rows processed_rows rows []),
     snd (scan_rows processed_rows rows [])).
Proof.
  induction rows as [|r rows IH]; intros data; simpl.
  - rewrite app_nil_r. reflexivity.
  - destruct (parse_row processed_rows r) as [|rd [|]].
    + apply IH.
    + reflexivity.
    + rewrite (IH (data ++ [rd])), (IH [rd]). simpl.
      rewrite <- app_assoc. reflexivity.
Qed.

End RowFacts.

Section LoopFacts.

Variable pg : page.
Variable column_names : list string.
Variable begin_date : string.
Variable alternative_date : option string.

Local Abbreviation scroll_loop :=
  (scroll_loop pg column_names begin_date alternative_date (empty_set string)).
Local Abbreviation batch_rows := (batch_rows pg column_names begin_date alternative_date).
Local Abbreviation batch_found := (batch_found pg column_names begin_date alternative_date).
Local Abbreviation accumulated := (accumulated pg column_names begin_date alternative_date).

(** One pass of the loop, by what the batch holds and what the scroll
    does. *)
Lemma scroll_loop_pass fuel k data :
  scroll_loop (S fuel) k data
  = if batch_found k then Some (Ok (data ++ batch_rows k))
    else match scroll_script pg k with
         | Raised => Some Raised
         | Ok _ => scroll_loop fuel (S k) (data ++ batch_rows k)
         end.
Proof.
  cbn [TableReader.scroll_loop]. rewrite scan_rows_app. reflexivity.
Qed.

(** Passes over batches without the target, each followed by a scroll
    that works, only accumulate rows. *)
Lemma scroll_loop_run n : forall fuel k data,
  (forall j, k <= j < k + n ->
     batch_found j = false /\ scroll_script pg j <> Raised) ->
  scroll_loop (n + fuel) k data
  = scroll_loop fuel (k + n) (data ++ concat (map batch_rows (seq k n))).
Proof.
  induction n as [|n IH]; intros fuel k data H.
  - simpl. rewrite Nat.add_0_r, app_nil_r. reflexivity.
  - cbn [Nat.add]. rewrite scroll_loop_pass.
    destruct (H k ltac:(lia)) as [Hf Hs]. rewrite Hf.
    destruct (scroll_script pg k) as [u|]; [|contradiction].
    rewrite IH by (intros j Hj; apply H; lia).
    cbn [seq map concat]. rewrite app_assoc.
    replace (S k + n) with (k + S n) by lia. reflexivity.
Qed.

(** If the loop ends, it ends at the first batch that holds the target or
    whose scroll raises. *)
Lemma scroll_loop_ends fuel : forall k data r,
  scroll_loop fuel k data = Some r ->
  exists n, n < fuel /\
    (forall j, k <= j < k + n ->
       batch_found j = false /\ scroll_script pg j <> Raised) /\
    ((batch_found (k + n) = true /\
      r = Ok (data ++ concat (map batch_rows (seq k (S n))))) \/
     (batch_found (k + n) = false /\ scroll_script pg (k + n) = Raised /\
      r = Raised)).
Proof.
  induction fuel as [|fuel IH]; intros k data r H; [discriminate|].
  rewrite scroll_loop_pass in H.
  destruct (batch_found k) eqn:Hf.
  - exists 0. rewrite Nat.add_0_r. split; [lia|]. split; [intros j Hj; lia|].
    left. split; [exact Hf|]. injection H as <-.
    cbn [seq map concat]. rewrite app_nil_r. reflexivity.
  - destruct (scroll_script pg k) as [u|] eqn:Hs.
    + destruct (IH _ _ _ H) as [n [Hn [Hq Hend]]].
      exists (S n). split; [lia|]. split.
      * intros j Hj. destruct (Nat.eq_dec j k) as [-> | Hne].
        -- split; [exact Hf | rewrite Hs; discriminate].
        -- apply Hq. lia.
      * replace (k + S n) with (S k + n) by lia.
        destruct Hend as [[Hf' ->] | [Hf' [Hs' ->]]]; [left | right].
        -- split; [exact Hf'|]. f_equal.
           rewrite <- app_assoc. reflexivity.
        -- split; [exact Hf' | split; [exact Hs' | reflexivity]].
    + exists 0. rewrite Nat.add_0_r. split; [lia|]. split; [intros j Hj; lia|].
      right. split; [exact Hf|]. split; [exact Hs|]. injection H as <-. reflexivity.
Qed.

End LoopFacts.

(** ** Accumulation under re-scans *)

(** C1.  On a grid where a scroll leaves the row ["02-2023"] on screen,
    that row is recorded a second time: [processed_rows] is tested by the
    loop body but nothing is ever added to it, so a key that was already
    recorded is not recognised when it is fetched again. *)
Theorem rescan_records_row_again :
  parse_table overlapping_page 2 "01-2023"
  = Some (PList
      [ row_to_py [("Tarih", "03-2023"); ("TP DK USD A", "18.9")];
        row_to_py [("Tarih", "02-2023"); ("TP DK USD A", "18.8")];
        row_to_py [("Tarih", "02-2023"); ("TP DK USD A", "18.8")];
        row_to_py [("Tarih", "01-2023"); ("TP DK USD A", "18.7")] ]).
Proof. reflexivity. Qed.

(** ** Rows with fewer cells than column names *)

(** The first row of [ragged_page] has a non-empty key and one cell for
    two column names; the table returned has no entry for it, in
    particular not the mapping truncated to its one cell. *)
Lemma short_row_not_in_output :
  truncated_mapping two_columns ["02-2023"] = [("Tarih", "02-2023")] /\
  exists out,
    parse_table ragged_page 1 "01-2023" = Some (PList out) /\
    out = [row_to_py [("Tarih", "01-2023"); ("TP DK USD A", "18.7")]] /\
    ~ In (row_to_py (truncated_mapping two_columns ["02-2023"])) out.
Proof.
  split; [reflexivity|].
  eexists. split; [reflexivity|]. split; [reflexivity|].
  intros [H | []]. discriminate.
Qed.

(** C2, as the code has it.  A fetched row with fewer cells than there are
    column names is dropped: the loop body records nothing for it and
    goes on to the next row with [data] unchanged, and it is never taken
    for the target; conversely every row that is recorded has a cell for
    each column name. *)
Theorem short_row_is_dropped (column_names : list string) (begin_date : string)
    (alternative_date : option string) (processed_rows : set string)
    (cells : list cell) (rest : list row) (data : list row_data) :
  length cells < length column_names ->
  parse_row column_names begin_date alternative_date processed_rows (Ok cells)
  = Skipped /\
  scan_rows column_names begin_date alternative_date processed_rows
            (Ok cells :: rest) data
  = scan_rows column_names begin_date alternative_date processed_rows rest data /\
  accepted column_names begin_date (Ok cells) = false /\
  (forall r rd found,
     parse_row column_names begin_date alternative_date processed_rows r
     = Appended rd found ->
     exists cells', r = Ok cells' /\ length column_names <= length cells').
Proof.
  intros Hlt. split; [|split; [|split]].
  - apply parse_row_short. exact Hlt.
  - cbn [scan_rows]. rewrite parse_row_short by exact Hlt. reflexivity.
  - unfold accepted. destruct (alternative_date_of begin_date); [|reflexivity].
    rewrite parse_row_short by exact Hlt. reflexivity.
  - intros r rd found H. exact (parse_row_appended _ _ _ _ _ _ _ H).
Qed.

Lemma short_row_is_dropped_witness :
  scan_rows two_columns "01-2023" (Some "2023-01") (empty_set string)
            [readable ["02-2023"]; readable ["01-2023"; "18.7"]] []
  = scan_rows two_columns "01-2023" (Some "2023-01") (empty_set string)
            [readable ["01-2023"; "18.7"]] [].
Proof.
  apply (short_row_is_dropped two_columns "01-2023" (Some "2023-01")
           (empty_set string) [Ok "02-2023"] [readable ["01-2023"; "18.7"]] []).
  simpl. lia.
Defined.

(** ** The alternate key *)

(** A row whose key is the target itself, rendered with one cell for two
    column names, is not accepted: equality of keys is not enough. *)
Lemma key_equal_but_not_accepted :
  row_key ["01-2023"] = "01-2023" /\
  ~ (accepted two_columns "01-2023" (readable ["01-2023"]) = true <->
     (row_key ["01-2023"] = "01-2023" \/
      alternative_date_of "01-2023" = Ok (Some (row_key ["01-2023"])))).
Proof.
  split; [reflexivity|].
  intros [_ H]. specialize (H (or_introl eq_refl)). discriminate.
Qed.

(** C4, as the code has it.  An alternate key is derived exactly when the
    target has exactly one hyphen, and it is the target with the parts on
    either side of the hyphen swapped; a target with no hyphen or with
    several has none and is matched literally.  A fetched row (with
    readable cells) is accepted as the target exactly when it is recorded,
    that is it has a cell, its key is not empty and it has a cell for each
    column name, and its key equals the target or that alternate. *)
Theorem alternate_key_policy (column_names : list string) (t : string) :
  (count "-" t = 1 <-> exists alt, alternative_date_of t = Ok (Some alt)) /\
  (count "-" t = 1 ->
   exists m y, t = (m ++ "-" ++ y)%string /\ count "-" m = 0 /\ count "-" y = 0 /\
               alternative_date_of t = Ok (Some (y ++ "-" ++ m)%string)) /\
  (count "-" t <> 1 ->
   alternative_date_of t = Ok None /\
   forall row_date, is_begin_date t None row_date = String.eqb row_date t) /\
  (forall texts,
     accepted column_names t (readable texts) = true <->
     (texts <> [] /\ row_key texts <> "" /\
      length column_names <= length texts /\
      (row_key texts = t \/
       alternative_date_of t = Ok (Some (row_key texts))))).
Proof.
  split; [|split; [|split]].
  - split.
    + intros H. destruct (alternative_date_of_one t H) as [m [y [_ [_ [_ Ha]]]]].
      eexists. exact Ha.
    + intros [alt H]. exact (alternative_date_of_some t alt H).
  - apply alternative_date_of_one.
  - intros H. split; [apply alternative_date_of_other; exact H|].
    intros row_date. unfold is_begin_date. apply orb_false_r.
  - intros texts. unfold accepted.
    destruct (alternative_date_of t) as [alt|] eqn:Ha.
    + rewrite parse_row_readable_found.
      rewrite !andb_true_iff, !negb_true_iff.
      unfold is_begin_date. rewrite orb_true_iff.
      split.
      * intros [[[Hlen Hkey] Hcols] Hmatch].
        split; [intros ->; discriminate|].
        split; [intros E; rewrite E in Hkey; discriminate|].
        split; [apply Nat.leb_le; exact Hcols|].
        destruct Hmatch as [Hm | Hm].
        -- left. apply String.eqb_eq. exact Hm.
        -- right. destruct alt as [a|]; [|discriminate].
           apply andb_true_iff in Hm. destruct Hm as [_ Hm].
           apply String.eqb_eq in Hm. rewrite Hm. reflexivity.
      * intros [Hne [Hkey [Hcols Hmatch]]].
        split; [split; [split|]|].
        -- destruct texts; [contradiction | reflexivity].
        -- apply String.eqb_neq. exact Hkey.
        -- apply Nat.leb_le. exact Hcols.
        -- destruct Hmatch as [Hm | Hm].
           ++ left. apply String.eqb_eq. exact Hm.
           ++ right. injection Hm as ->.
              rewrite String.eqb_refl, andb_true_r.
              apply negb_true_iff, String.eqb_neq. exact Hkey.
    + split; [discriminate|].
      intros [_ [_ [_ Hm]]].
      destruct (Nat.eq_dec (count "-" t) 1) as [E | E].
      * destruct (alternative_date_of_one t E) as [m [y [_ [_ [_ Ha']]]]].
        rewrite Ha' in Ha. discriminate.
      * rewrite (alternative_date_of_other t E) in Ha. discriminate.
Qed.

Lemma alternate_key_policy_witness :
  (exists m y, "Q1-2023" = (m ++ "-" ++ y)%string /\
               alternative_date_of "Q1-2023" = Ok (Some (y ++ "-" ++ m)%string)) /\
  alternative_date_of "01-01-2023" = Ok None /\
  accepted two_columns "01-2023" (readable ["2023-01"; "18.7"]) = true.
Proof.
  pose proof (alternate_key_policy two_columns "Q1-2023") as [_ [Hone _]].
  pose proof (alternate_key_policy two_columns "01-01-2023") as [_ [_ [Hnone _]]].
  pose proof (alternate_key_policy two_columns "01-2023") as [_ [_ [_ Hacc]]].
  split; [|split].
  - destruct Hone as [m [y [Heq [_ [_ Ha]]]]]; [reflexivity|].
    exists m, y. split; [exact Heq | exact Ha].
  - apply Hnone. simpl. discriminate.
  - apply Hacc. split; [discriminate|]. split; [discriminate|].
    split; [simpl; lia|]. right. reflexivity.
Defined.

(** With target ["2023-01"] the row whose key is ["01-2023"] is accepted,
    and the reader of [monthly_page] stops on it. *)
Lemma swapped_target_accepts_row :
  accepted two_columns "2023-01" (readable ["01-2023"; "18.7"]) = true /\
  parse_table monthly_page 2 "2023-01"
  = Some (PList
      [ row_to_py [("Tarih", "03-2023"); ("TP DK USD A", "18.9")];
        row_to_py [("Tarih", "02-2023"); ("TP DK USD A", "18.8")];
        row_to_py [("Tarih", "01-2023"); ("TP DK USD A", "18.7")] ]).
Proof. split; reflexivity. Qed.

(** C5, as the code has it.  The alternate is computed from the target
    only and compared with the literal row key, but the swap is its own
    inverse: the alternate of ["2023-01"] is ["01-2023"], so a row with
    key ["01-2023"] is accepted for the target ["2023-01"], and in general a
    recorded row whose key is the alternate of the target is accepted. *)
Theorem swapped_target_matches :
  (forall t alt,
     alternative_date_of t = Ok (Some alt) ->
     alternative_date_of alt = Ok (Some t)) /\
  (forall column_names t alt texts,
     alternative_date_of t = Ok (Some alt) ->
     length column_names <= length texts ->
     row_key texts = alt ->
     accepted column_names t (readable texts) = true) /\
  alternative_date_of "2023-01" = Ok (Some "01-2023") /\
  accepted two_columns "2023-01" (readable ["01-2023"; "18.7"]) = true.
Proof.
  split; [exact alternative_date_of_involutive|].
  split; [|split; reflexivity].
  intros column_names t alt texts Ha Hlen Hkey.
  pose proof (alternative_date_nonempty t alt Ha) as Hne.
  unfold accepted. rewrite Ha, parse_row_readable_found, Hkey.
  assert (Hnil : Nat.eqb (length texts) 0 = false).
  { destruct texts; [|reflexivity]. exfalso. apply Hne. rewrite <- Hkey. reflexivity. }
  rewrite Hnil. apply String.eqb_neq in Hne. rewrite Hne.
  apply Nat.leb_le in Hlen. rewrite Hlen.
  unfold is_begin_date. rewrite Hne, String.eqb_refl.
  simpl. apply orb_true_r.
Qed.

Lemma swapped_target_matches_witness :
  alternative_date_of "2023-Q1" = Ok (Some "Q1-2023") /\
  accepted two_columns "Q1-2023" (readable ["2023-Q1"; "7"]) = true.
Proof.
  pose proof swapped_target_matches as [Hinv [Hacc _]].
  split.
  - apply (Hinv "Q1-2023" "2023-Q1"). reflexivity.
  - apply (Hacc two_columns "Q1-2023" "2023-Q1" ["2023-Q1"; "7"]).
    + reflexivity.
    + simpl. lia.
    + reflexivity.
Defined.

(** ** Termination of the scroll loop *)

(** On [no_container_page] no batch ever holds the target, and yet the
    loop ends in its first pass: the scroll script raises and
    [parse_table] returns the dictionary of its [except] branch. *)
Lemma loop_ends_without_target :
  (forall k, batch_found no_container_page two_columns "01-2023"
                         (Some "2023-01") k = false) /\
  scroll_loop no_container_page two_columns "01-2023" (Some "2023-01")
              (empty_set string) 1 0 []
  = Some Raised /\
  parse_table no_container_page 1 "01-2023" = Some error_table.
Proof.
  split; [intros k; reflexivity | split; reflexivity].
Qed.

(** How the scan of a batch relates to its rows taken one by one. *)
Lemma scan_rows_without_target column_names begin_date alt rows :
  alternative_date_of begin_date = Ok alt ->
  (forall r, In r rows -> accepted column_names begin_date r = false) ->
  forall data,
    scan_rows column_names begin_date alt (empty_set string) rows data
    = (data ++ flat_map (recorded column_names begin_date) rows, false).
Proof.
  intros Ha. induction rows as [|r rows IH]; intros Hno data.
  - cbn. rewrite app_nil_r. reflexivity.
  - pose proof (Hno r (or_introl eq_refl)) as Hr.
    unfold accepted in Hr. rewrite Ha in Hr.
    cbn [scan_rows flat_map]. unfold recorded at 1. rewrite Ha.
    destruct (parse_row column_names begin_date alt (empty_set string) r)
      as [|rd [|]]; [|discriminate|].
    + apply IH. intros x Hx. apply Hno. right; exact Hx.
    + rewrite IH by (intros x Hx; apply Hno; right; exact Hx).
      rewrite <- app_assoc. reflexivity.
Qed.

Lemma scan_rows_with_target column_names begin_date alt pre r post :
  alternative_date_of begin_date = Ok alt ->
  (forall x, In x pre -> accepted column_names begin_date x = false) ->
  accepted column_names begin_date r = true ->
  forall data,
    scan_rows column_names begin_date alt (empty_set string) (pre ++ r :: post) data
    = (data ++ flat_map (recorded column_names begin_date) (pre ++ [r]), true).
Proof.
  intros Ha Hpre Hr. induction pre as [|x pre IH]; intros data.
  - unfold accepted in Hr. rewrite Ha in Hr.
    cbn [app scan_rows flat_map]. unfold recorded. rewrite Ha.
    destruct (parse_row column_names begin_date alt (empty_set string) r)
      as [|rd [|]]; try discriminate.
    reflexivity.
  - pose proof (Hpre x (or_introl eq_refl)) as Hx.
    unfold accepted in Hx. rewrite Ha in Hx.
    cbn [app scan_rows flat_map]. unfold recorded at 1. rewrite Ha.
    destruct (parse_row column_names begin_date alt (empty_set string) x)
      as [|rd [|]]; [|discriminate|].
    + apply IH. intros y Hy. apply Hpre. right; exact Hy.
    + rewrite IH by (intros y Hy; apply Hpre; right; exact Hy).
      rewrite <- app_assoc. reflexivity.
Qed.

(** A batch either holds no accepted row or has a first one. *)
Lemma first_accepted column_names begin_date rows :
  (forall r, In r rows -> accepted column_names begin_date r = false) \/
  (exists pre r post,
     rows = pre ++ r :: post /\
     (forall x, In x pre -> accepted column_names begin_date x = false) /\
     accepted column_names begin_date r = true).
Proof.
  induction rows as [|x rows IH].
  - left. intros r [].
  - destruct (accepted column_names begin_date x) eqn:Hx.
    + right. exists [], x, rows. split; [reflexivity|]. split; [intros y []|exact Hx].
    + destruct IH as [Hno | [pre [r [post [-> [Hpre Hr]]]]]].
      * left. intros r [<- | Hr]; [exact Hx | exact (Hno r Hr)].
      * right. exists (x :: pre), r, post. split; [reflexivity|].
        split; [|exact Hr]. intros y [<- | Hy]; [exact Hx | exact (Hpre y Hy)].
Qed.

Section ReaderFacts.

Variable pg : page.
Variable column_names : list string.
Variable begin_date : string.
Variable alt : option string.
Hypothesis Halt : alternative_date_of begin_date = Ok alt.

Local Abbreviation no_target k :=
  (forall r, In r (visible_rows pg k) -> accepted column_names begin_date r = false).

Lemma batch_without_target k :
  no_target k ->
  batch_found pg column_names begin_date alt k = false /\
  batch_rows pg column_names begin_date alt k
  = flat_map (recorded column_names begin_date) (visible_rows pg k).
Proof.
  intros Hno. unfold batch_found, batch_rows.
  rewrite (scan_rows_without_target column_names begin_date alt _ Halt Hno).
  split; reflexivity.
Qed.

Lemma batch_with_target k pre r post :
  visible_rows pg k = pre ++ r :: post ->
  (forall x, In x pre -> accepted column_names begin_date x = false) ->
  accepted column_names begin_date r = true ->
  batch_found pg column_names begin_date alt k = true /\
  batch_rows pg column_names begin_date alt k
  = flat_map (recorded column_names begin_date) (pre ++ [r]).
Proof.
  intros Hk Hpre Hr. unfold batch_found, batch_rows. rewrite Hk.
  rewrite (scan_rows_with_target column_names begin_date alt pre r post Halt Hpre Hr).
  split; reflexivity.
Qed.

Lemma batch_found_false k :
  batch_found pg column_names begin_date alt k = false -> no_target k.
Proof.
  intros Hf.
  destruct (first_accepted column_names begin_date (visible_rows pg k))
    as [Hno | [pre [r [post [Hk [Hpre Hr]]]]]]; [exact Hno|].
  destruct (batch_with_target k pre r post Hk Hpre Hr) as [Ht _]. congruence.
Qed.

(** The rows of the passes before [k], none of which held the target. *)
Lemma batches_before k :
  (forall j, j < k -> no_target j) ->
  concat (map (batch_rows pg column_names begin_date alt) (seq 0 k))
  = flat_map (recorded column_names begin_date) (fetched_before pg k).
Proof.
  unfold fetched_before. induction k as [|k IH]; intros Hq; [reflexivity|].
  rewrite seq_S, map_app, concat_app, flat_map_app, flat_map_app.
  cbn [Nat.add map concat flat_map]. rewrite !app_nil_r.
  rewrite IH by (intros j Hj; apply Hq; lia).
  destruct (batch_without_target k (Hq k (Nat.lt_succ_diag_r k))) as [_ ->].
  reflexivity.
Qed.

(** The loop from its start: where it ends and what it gives. *)
Lemma scroll_loop_on_target k pre r post fuel :
  (forall j, j < k -> no_target j /\ scroll_script pg j <> Raised) ->
  visible_rows pg k = pre ++ r :: post ->
  (forall x, In x pre -> accepted column_names begin_date x = false) ->
  accepted column_names begin_date r = true ->
  k < fuel ->
  scroll_loop pg column_names begin_date alt (empty_set string) fuel 0 []
  = Some (Ok (flat_map (recorded column_names begin_date)
                (fetched_before pg k ++ pre ++ [r]))).
Proof.
  intros Hq Hk Hpre Hr Hlt.
  replace fuel with (k + S (fuel - S k)) by lia.
  rewrite scroll_loop_run.
  2:{ intros j Hj. destruct (Hq j ltac:(lia)) as [Hno Hs].
      split; [exact (proj1 (batch_without_target j Hno)) | exact Hs]. }
  rewrite scroll_loop_pass. cbn [Nat.add app].
  destruct (batch_with_target k pre r post Hk Hpre Hr) as [-> ->].
  rewrite batches_before by (intros j Hj; exact (proj1 (Hq j Hj))).
  rewrite !flat_map_app. reflexivity.
Qed.

Lemma scroll_loop_on_raise k fuel :
  (forall j, j < k -> no_target j /\ scroll_script pg j <> Raised) ->
  no_target k ->
  scroll_script pg k = Raised ->
  k < fuel ->
  scroll_loop pg column_names begin_date alt (empty_set string) fuel 0 []
  = Some Raised.
Proof.
  intros Hq Hno Hs Hlt.
  replace fuel with (k + S (fuel - S k)) by lia.
  rewrite scroll_loop_run.
  2:{ intros j Hj. destruct (Hq j ltac:(lia)) as [Hnj Hsj].
      split; [exact (proj1 (batch_without_target j Hnj)) | exact Hsj]. }
  rewrite scroll_loop_pass. cbn [Nat.add].
  rewrite (proj1 (batch_without_target k Hno)), Hs. reflexivity.
Qed.

Lemma scroll_loop_returns fuel res :
  scroll_loop pg column_names begin_date alt (empty_set string) fuel 0 []
  = Some res ->
  exists k, k < fuel /\
    (forall j, j < k -> no_target j /\ scroll_script pg j <> Raised) /\
    ((exists pre r post,
        visible_rows pg k = pre ++ r :: post /\
        (forall x, In x pre -> accepted column_names begin_date x = false) /\
        accepted column_names begin_date r = true /\
        res = Ok (flat_map (recorded column_names begin_date)
                    (fetched_before pg k ++ pre ++ [r]))) \/
     (no_target k /\ scroll_script pg k = Raised /\ res = Raised)).
Proof.
  intros H.
  destruct (scroll_loop_ends _ _ _ _ _ _ _ _ H) as [k [Hk [Hq Hend]]].
  cbn [Nat.add] in Hq, Hend.
  assert (Hq' : forall j, j < k -> no_target j /\ scroll_script pg j <> Raised).
  { intros j Hj. destruct (Hq j ltac:(lia)) as [Hf Hs].
    split; [exact (batch_found_false j Hf) | exact Hs]. }
  exists k. split; [exact Hk|]. split; [exact Hq'|].
  destruct Hend as [[Hf _] | [Hf [Hs ->]]].
  - left.
    destruct (first_accepted column_names begin_date (visible_rows pg k))
      as [Hno | [pre [r [post [Hvk [Hpre Hr]]]]]].
    + destruct (batch_without_target k Hno) as [Hf' _]. congruence.
    + exists pre, r, post. split; [exact Hvk|]. split; [exact Hpre|].
      split; [exact Hr|].
      pose proof (scroll_loop_on_target k pre r post fuel Hq' Hvk Hpre Hr Hk) as E.
      rewrite H in E. injection E as ->. reflexivity.
  - right. split; [exact (batch_found_false k Hf)|]. split; [exact Hs | reflexivity].
Qed.

End ReaderFacts.

(** C8, as the code has it.  Once the headers are read, [parse_table] has
    no bound of its own.  It returns at the first pass that fetches a row
    accepted as the target (its key is the target or the target's
    alternate), with the rows recorded from all the rows fetched before
    and from the rows of that pass up to and including that row; or at the
    first pass that fetches no such row and whose scroll raises, with the
    error dictionary.  It returns in no other way: when no pass fetches an
    accepted row and no scroll raises, it is still scrolling after any
    number of passes. *)
Theorem parse_table_ends_exactly (pg : page) (column_names : list string)
    (begin_date : string) :
  header_names (header_texts pg) = Ok column_names ->
  let no_target k :=
    forall r, In r (visible_rows pg k) -> accepted column_names begin_date r = false in
  let quiet k := no_target k /\ scroll_script pg k <> Raised in
  let rows_up_to k pre r :=
    PList (map row_to_py
             (flat_map (recorded column_names begin_date)
                       (fetched_before pg k ++ pre ++ [r]))) in
  (forall k pre r post fuel,
     (forall j, j < k -> quiet j) ->
     visible_rows pg k = pre ++ r :: post ->
     (forall x, In x pre -> accepted column_names begin_date x = false) ->
     accepted column_names begin_date r = true ->
     k < fuel ->
     parse_table pg fuel begin_date = Some (rows_up_to k pre r)) /\
  (forall k fuel,
     (forall j, j < k -> quiet j) ->
     no_target k ->
     scroll_script pg k = Raised ->
     k < fuel ->
     parse_table pg fuel begin_date = Some error_table) /\
  (forall fuel v,
     parse_table pg fuel begin_date = Some v ->
     exists k, k < fuel /\ (forall j, j < k -> quiet j) /\
       ((exists pre r post,
           visible_rows pg k = pre ++ r :: post /\
           (forall x, In x pre -> accepted column_names begin_date x = false) /\
           accepted column_names begin_date r = true /\
           v = rows_up_to k pre r) \/
        (no_target k /\ scroll_script pg k = Raised /\ v = error_table))) /\
  ((forall k, quiet k) -> forall fuel, parse_table pg fuel begin_date = None).
Proof.
  intros Hh no_target quiet rows_up_to.
  assert (Hex : exists alt, alternative_date_of begin_date = Ok alt).
  { destruct (Nat.eq_dec (count "-" begin_date) 1) as [Hc | Hc].
    - destruct (alternative_date_of_one begin_date Hc) as [m [y [_ [_ [_ Ha]]]]].
      eexists. exact Ha.
    - exists None. exact (alternative_date_of_other begin_date Hc). }
  destruct Hex as [alt Ha].
  assert (Hpt : forall fuel,
            parse_table pg fuel begin_date
            = match scroll_loop pg column_names begin_date alt
                      (empty_set string) fuel 0 [] with
              | None => None
              | Some (Ok data) => Some (PList (map row_to_py data))
              | Some Raised => Some error_table
              end)
    by (intros fuel; unfold parse_table; rewrite Ha, Hh; reflexivity).
  split; [|split; [|split]].
  - intros k pre r post fuel Hq Hk Hpre Hr Hlt. rewrite Hpt.
    rewrite (scroll_loop_on_target pg column_names begin_date alt Ha
               k pre r post fuel Hq Hk Hpre Hr Hlt).
    reflexivity.
  - intros k fuel Hq Hno Hs Hlt. rewrite Hpt.
    rewrite (scroll_loop_on_raise pg column_names begin_date alt Ha
               k fuel Hq Hno Hs Hlt).
    reflexivity.
  - intros fuel v Hv. rewrite Hpt in Hv.
    destruct (scroll_loop pg column_names begin_date alt (empty_set string)
                fuel 0 []) as [res|] eqn:E; [|discriminate].
    destruct (scroll_loop_returns pg column_names begin_date alt Ha fuel res E)
      as [k [Hk [Hq Hend]]].
    exists k. split; [exact Hk|]. split; [exact Hq|].
    destruct Hend as [[pre [r [post [Hvk [Hpre [Hr ->]]]]]] | [Hno [Hs ->]]].
    + left. exists pre, r, post. injection Hv as <-. auto.
    + right. injection Hv as <-. auto.
  - intros Hall fuel. rewrite Hpt.
    destruct (scroll_loop pg column_names begin_date alt (empty_set string)
                fuel 0 []) as [res|] eqn:E; [|reflexivity].
    destruct (scroll_loop_returns pg column_names begin_date alt Ha fuel res E)
      as [k [_ [_ Hend]]].
    destruct (Hall k) as [Hno Hs].
    destruct Hend as [[pre [r [post [Hvk [_ [Hr _]]]]]] | [_ [Hs' _]]].
    + rewrite (Hno r) in Hr; [discriminate|].
      rewrite Hvk. apply in_or_app. right. left. reflexivity.
    + contradiction.
Qed.

(** The target on the second screen with an older month below it: the
    older month is not recorded.  A page without the target scrolls for
    ever, and one whose scroll raises gives the error dictionary. *)
Lemma parse_table_ends_exactly_witness :
  parse_table MoreExamples.older_rows_page 2 "01-2023"
  = Some (PList
      [ row_to_py [("Tarih", "03-2023"); ("TP DK USD A", "18.9")];
        row_to_py [("Tarih", "02-2023"); ("TP DK USD A", "18.8")];
        row_to_py [("Tarih", "01-2023"); ("TP DK USD A", "18.7")] ]) /\
  (forall fuel, parse_table endless_page fuel "01-2023" = None) /\
  parse_table no_container_page 1 "01-2023" = Some error_table.
Proof.
  split; [|split].
  - pose proof (parse_table_ends_exactly MoreExamples.older_rows_page two_columns
                  "01-2023" eq_refl) as [Hend _].
    apply (Hend 1 [] (readable ["01-2023"; "18.7"])
                [readable ["12-2022"; "18.6"]] 2).
    + intros j Hj. assert (j = 0) as -> by lia. split.
      * intros r [<- | [<- | []]]; reflexivity.
      * discriminate.
    + reflexivity.
    + intros x [].
    + reflexivity.
    + lia.
  - pose proof (parse_table_ends_exactly endless_page two_columns
                  "01-2023" eq_refl) as [_ [_ [_ Hnever]]].
    apply Hnever. intros k. split.
    + intros r [<- | []]. reflexivity.
    + discriminate.
  - pose proof (parse_table_ends_exactly no_container_page two_columns
                  "01-2023" eq_refl) as [_ [Hraise _]].
    apply (Hraise 0 1).
    + intros j Hj. lia.
    + intros r [<- | []]. reflexivity.
    + reflexivity.
    + lia.
Defined.

(* ===================================================================== *)
(** * Properties of the output step and of [export_configuration]        *)
(* ===================================================================== *)

Import Scraper.

(** When the output format is neither excel nor a dataframe, the step
    subscripts whatever [parse_table] returned. *)
Lemma scrape_output_dict_branch self pg fuel begin_date saved explanations table :
  lower (output_format (config self)) <> "excel" ->
  lower (output_format (config self)) <> "df" ->
  lower (output_format (config self)) <> "dataframe" ->
  parse_table pg fuel begin_date = Some table ->
  scrape_output self pg fuel begin_date saved explanations
  = Some (obind (subscript table "data") (fun data =>
          obind (subscript table "columns") (fun columns =>
          let result := [("data", data); ("columns", columns)] in
          let expl := if include_explanations (config self) then explanations
                      else PNone in
          Ok (Mapping (if truth expl then dict_set result "explanations" expl
                       else result))))).
Proof.
  intros H1 H2 H3 Hp. unfold scrape_output.
  apply String.eqb_neq in H1, H2, H3. rewrite H1, H2, H3, Hp. reflexivity.
Qed.

(** C9.  With the dict output format, whenever [parse_table] returns through
    its normal exit (line 678, the list [data]), the lookup
    [table_data["data"]] raises and [scrape] re-raises: no mapping is
    returned.  Only the dictionary of [parse_table]'s [except] branch can
    be subscripted, and then the mapping holds its empty [data] and
    [columns]. *)
Theorem dict_output_raises_on_parsed_rows (self : EVDSScraper) (pg : page)
    (fuel : nat) (begin_date : string) (saved : bool) (explanations : pyval) :
  lower (output_format (config self)) <> "excel" ->
  lower (output_format (config self)) <> "df" ->
  lower (output_format (config self)) <> "dataframe" ->
  (forall data,
     parse_table pg fuel begin_date = Some (PList data) ->
     scrape_output self pg fuel begin_date saved explanations = Some Raised) /\
  (parse_table pg fuel begin_date = Some error_table ->
   exists result,
     scrape_output self pg fuel begin_date saved explanations
     = Some (Ok (Mapping result)) /\
     dict_get result "data" = Some (PList []) /\
     dict_get result "columns" = Some (PList [])).
Proof.
  intros H1 H2 H3. split.
  - intros data Hp.
    rewrite (scrape_output_dict_branch self pg fuel begin_date saved explanations
               (PList data) H1 H2 H3 Hp).
    reflexivity.
  - intros Hp.
    rewrite (scrape_output_dict_branch self pg fuel begin_date saved explanations
               error_table H1 H2 H3 Hp).
    cbn [subscript error_table dict_get obind String.eqb].
    simpl. eexists. split; [reflexivity|].
    destruct (truth (if include_explanations (config self) then explanations
                     else PNone)); split; reflexivity.
Qed.

Lemma dict_output_raises_on_parsed_rows_witness :
  scrape_output dict_scraper monthly_page 2 "01-2023" true (PList []) = Some Raised.
Proof.
  pose proof (dict_output_raises_on_parsed_rows dict_scraper monthly_page 2
                "01-2023" true (PList [])) as H.
  destruct H as [Hraise _]; [discriminate | discriminate | discriminate |].
  eapply Hraise. reflexivity.
Defined.

Lemma endswith_refl s : endswith s s = true.
Proof. destruct s; simpl; rewrite ?Ascii.eqb_refl, ?String.eqb_refl; reflexivity. Qed.

Lemma endswith_app s suffix : endswith (s ++ suffix)%string suffix = true.
Proof.
  induction s as [|c s IH].
  - apply endswith_refl.
  - cbn [append endswith].
    destruct (String.eqb (String c (s ++ suffix)) suffix); [reflexivity | exact IH].
Qed.

(** The [for] loop of [export_configuration] appends, in order, one
    object per element that is a list of four. *)
Lemma collect_variables_filter selected : forall acc,
  collect_variables selected acc = acc ++ exported_variables selected.
Proof.
  unfold exported_variables.
  induction selected as [|var rest IH]; intros acc; cbn [collect_variables filter map].
  - rewrite app_nil_r. reflexivity.
  - destruct var as [| b | z | s | l | l | d]; cbn [is_four_list]; try apply IH.
    destruct (Nat.eqb (length l) 4); [|apply IH].
    rewrite IH. cbn [map variable_object]. rewrite <- app_assoc. reflexivity.
Qed.

(** C10.  [export_configuration] writes to the path with [.json] appended
    unless the path already ends in it, and the document written holds the
    language and, under ["variables"], exactly one object of category,
    subcategory, item name and calculation type for each element of
    [selected_variables] that is a list of four, in order; elements of any
    other shape or length leave no trace.  If the file cannot be opened
    nothing is written and [False] is returned. *)
Theorem export_configuration_document (self : EVDSScraper) (fs : filesystem)
    (filepath : string) :
  let path := with_json_suffix filepath in
  let doc := PDict [("language", PStr (language (config self)));
                    ("variables",
                     PList (exported_variables (selected_variables self)))] in
  endswith path ".json" = true /\
  (endswith filepath ".json" = true -> path = filepath) /\
  (endswith filepath ".json" = false -> path = (filepath ++ ".json")%string) /\
  (can_open fs path = true ->
   snd (export_configuration self fs filepath) = true /\
   document (fst (export_configuration self fs filepath)) path = Some doc /\
   forall p, p <> path ->
     document (fst (export_configuration self fs filepath)) p = document fs p) /\
  (can_open fs path = false ->
   export_configuration self fs filepath = (fs, false)).
Proof.
  intros path doc. unfold path, doc, with_json_suffix, export_configuration.
  rewrite (collect_variables_filter (selected_variables self) []).
  cbn [app].
  destruct (endswith filepath ".json") eqn:E; cbn [negb].
  - split; [exact E|]. split; [reflexivity|]. split; [discriminate|].
    unfold with_json_suffix. rewrite E. cbn [negb].
    split; intros Ho; rewrite Ho; cbn [fst snd write_file document].
    + split; [reflexivity|]. split; [rewrite String.eqb_refl; reflexivity|].
      intros p Hp. apply String.eqb_neq in Hp. rewrite Hp. reflexivity.
    + reflexivity.
  - split; [apply endswith_app|]. split; [discriminate|]. split; [reflexivity|].
    unfold with_json_suffix. rewrite E. cbn [negb].
    split; intros Ho; rewrite Ho; cbn [fst snd write_file document].
    + split; [reflexivity|]. split; [rewrite String.eqb_refl; reflexivity|].
      intros p Hp. apply String.eqb_neq in Hp. rewrite Hp. reflexivity.
    + reflexivity.
Qed.

Lemma export_configuration_document_witness :
  document (fst (export_configuration dict_scraper open_disk "evds_config"))
           "evds_config.json"
  = Some (PDict
      [("language", PStr "english");
       ("variables", PList
          [ PDict [("category", PStr "Exchange Rates");
                   ("subcategory", PStr "Indicative");
                   ("item_name", PStr "USD");
                   ("calculation_type", PStr "Level")];
            PDict [("category", PStr "Prices"); ("subcategory", PNone);
                   ("item_name", PStr "CPI");
                   ("calculation_type", PStr "Level")] ])]).
Proof.
  pose proof (export_configuration_document dict_scraper open_disk "evds_config")
    as [_ [_ [_ [Hw _]]]].
  destruct Hw as [_ [Hdoc _]]; [reflexivity|].
  exact Hdoc.
Defined.

(* ===================================================================== *)
(** * More on the Selector Resolver                                       *)
(* ===================================================================== *)

Import ResolverLog.

Section ResolverMore.

Variable element : Type.
Variable truthy : element -> bool.
Variable get_text_fn : element -> outcome string.
Variable click_fn : element -> outcome string.

Local Abbreviation exact_scan := (exact_scan get_text_fn).
Local Abbreviation contained_scan := (contained_scan get_text_fn).
Local Abbreviation select_body := (select_body truthy get_text_fn click_fn).
Local Abbreviation _select_base := (_select_base truthy get_text_fn click_fn).

(** The containment scan stops at the first element whose text contains
    the selector or is contained in it. *)
Lemma contained_scan_first t pre e s post :
  (forall x, In x pre -> exists u, get_text_fn x = Ok u /\
     str_in t u = false /\ str_in u t = false) ->
  get_text_fn e = Ok s ->
  str_in t s || str_in s t = true ->
  contained_scan t (pre ++ e :: post) = (map GetText pre ++ [GetText e], Ok (Some e)).
Proof.
  intros Hpre He Hin. induction pre as [|x pre IH]; simpl.
  - rewrite He, bind_call_ok, Hin. reflexivity.
  - destruct (Hpre x (or_introl eq_refl)) as [u [Hu [H1 H2]]].
    rewrite Hu, bind_call_ok, H1, H2. simpl.
    rewrite IH by (intros y Hy; apply Hpre; right; exact Hy).
    reflexivity.
Qed.

Lemma exact_scan_in t C e :
  snd (exact_scan t C) = Ok (Some e) -> In e C.
Proof.
  induction C as [|x C IH]; simpl; [discriminate|].
  destruct (get_text_fn x) as [s|].
  - rewrite bind_call_ok. simpl.
    destruct (String.eqb t s); simpl.
    + intros [= ->]. left; reflexivity.
    + intros H. right. exact (IH H).
  - rewrite bind_call_raised. discriminate.
Qed.

Lemma contained_scan_in t C e :
  snd (contained_scan t C) = Ok (Some e) -> In e C.
Proof.
  induction C as [|x C IH]; simpl; [discriminate|].
  destruct (get_text_fn x) as [s|].
  - rewrite bind_call_ok. simpl.
    destruct (str_in t s || str_in s t); simpl.
    + intros [= ->]. left; reflexivity.
    + intros H. right. exact (IH H).
  - rewrite bind_call_raised. discriminate.
Qed.

Lemma clicked_app (tr1 tr2 : list (event element)) :
  clicked (tr1 ++ tr2) = clicked tr1 ++ clicked tr2.
Proof.
  induction tr1 as [|ev tr1 IH]; simpl; [reflexivity|].
  destruct ev; simpl; rewrite IH; reflexivity.
Qed.

Lemma clicked_reads (tr : list (event element)) :
  Forall (fun ev => is_get_text ev = true) tr -> clicked tr = [].
Proof.
  induction 1 as [|ev tr Hev _ IH]; [reflexivity|].
  destruct ev; try discriminate. exact IH.
Qed.

End ResolverMore.

Section ResolverExtras.

Variable element : Type.
Variable truthy : element -> bool.
Variable get_text_fn : element -> outcome string.
Variable click_fn : element -> outcome string.

Local Abbreviation _select_base := (_select_base truthy get_text_fn click_fn).

(** X1.  With no exact match, the resolver takes the first candidate in
    list order whose text contains the target or is contained in it: it
    reads every text once for the exact scan, then the texts up to that
    candidate, and clicks that candidate only. *)
Theorem select_containment_first (t : string) (pre : list element)
    (e : element) (s : string) (post : list element) :
  (forall x, In x (pre ++ e :: post) -> exists u, get_text_fn x = Ok u /\ u <> t) ->
  (forall x, In x pre -> exists u, get_text_fn x = Ok u /\
     str_in t u = false /\ str_in u t = false) ->
  get_text_fn e = Ok s ->
  str_in t s || str_in s t = true ->
  truthy e = true ->
  _select_base (SelStr t) (pre ++ e :: post)
  = match click_fn e with
    | Ok r => (map GetText (pre ++ e :: post) ++ map GetText pre
                 ++ [GetText e; Click e], Some r)
    | Raised => (map GetText (pre ++ e :: post) ++ map GetText pre
                   ++ [GetText e; Click e; PrintError], None)
    end.
Proof.
  intros Hall Hpre He Hin Ht.
  unfold Resolver._select_base, Resolver.select_body.
  rewrite (exact_scan_all element get_text_fn t (pre ++ e :: post) Hall).
  rewrite (contained_scan_first element get_text_fn t pre e s post Hpre He Hin).
  unfold bind, call, ret, emit, not_. simpl. rewrite Ht. simpl.
  destruct (click_fn e) as [r|]; simpl; rewrite ?Ht; simpl;
    rewrite ?app_nil_r, <- ?app_assoc; reflexivity.
Qed.

Ltac use_truth :=
  repeat match goal with
         | H : ?truthy ?e = _ |- context [?truthy ?e] => rewrite H; simpl
         end.

Lemma select_base_one_click (selector_value : selector) (C : list element) :
  (clicked (fst (_select_base selector_value C)) = [] /\
   snd (_select_base selector_value C) = None) \/
  (exists e,
     clicked (fst (_select_base selector_value C)) = [e] /\
     In e C /\ truthy e = true /\
     snd (_select_base selector_value C)
     = match click_fn e with Ok r => Some r | Raised => None end).
Proof.
  destruct selector_value as [t | n].
  - pose proof (exact_scan_reads element get_text_fn t C) as R1.
    pose proof (contained_scan_reads element get_text_fn t C) as R2.
    pose proof (exact_scan_in element get_text_fn t C) as I1.
    pose proof (contained_scan_in element get_text_fn t C) as I2.
    unfold Resolver._select_base, Resolver.select_body.
    destruct (Resolver.exact_scan get_text_fn t C) as [tr1 r1].
    destruct (Resolver.contained_scan get_text_fn t C) as [tr2 r2].
    simpl in R1, R2, I1, I2.
    apply clicked_reads in R1. apply clicked_reads in R2.
    unfold bind, ret, emit, call, not_.
    destruct r1 as [[e1|]|]; simpl.
    + destruct (truthy e1) eqn:Ht1; simpl.
      * right. exists e1.
        destruct (click_fn e1) as [r|]; simpl; use_truth;
          rewrite ?clicked_app, ?R1; simpl;
          (split; [reflexivity | split; [apply I1; reflexivity | split; [first [assumption | reflexivity] | reflexivity]]]).
      * destruct r2 as [[e2|]|]; simpl.
        -- destruct (truthy e2) eqn:Ht2; simpl.
           ++ right. exists e2.
              destruct (click_fn e2) as [r|]; simpl; use_truth;
                rewrite ?clicked_app, ?R1, ?R2; simpl;
                (split; [reflexivity | split; [apply I2; reflexivity | split; [first [assumption | reflexivity] | reflexivity]]]).
           ++ left. use_truth. rewrite ?clicked_app, ?R1, ?R2. split; reflexivity.
        -- left. use_truth. rewrite ?clicked_app, ?R1, ?R2. split; reflexivity.
        -- left. use_truth. rewrite ?clicked_app, ?R1, ?R2. split; reflexivity.
    + destruct r2 as [[e2|]|]; simpl.
      * destruct (truthy e2) eqn:Ht2; simpl.
        -- right. exists e2.
           destruct (click_fn e2) as [r|]; simpl; use_truth;
             rewrite ?clicked_app, ?R1, ?R2; simpl;
             (split; [reflexivity | split; [apply I2; reflexivity | split; [first [assumption | reflexivity] | reflexivity]]]).
        -- left. use_truth. rewrite ?clicked_app, ?R1, ?R2. split; reflexivity.
      * left. use_truth. rewrite ?clicked_app, ?R1, ?R2. split; reflexivity.
      * left. use_truth. rewrite ?clicked_app, ?R1, ?R2. split; reflexivity.
    + left. rewrite ?clicked_app, ?R1. split; reflexivity.
  - unfold Resolver._select_base, Resolver.select_body.
    destruct ((1 <=? n) && (n <=? Z.of_nat (length C)))%Z.
    + destruct (nth_error C (Z.to_nat (n - 1))) as [e|] eqn:Hn.
      * unfold bind, ret, emit, call, not_. simpl.
        destruct (truthy e) eqn:Ht; simpl.
        -- right. exists e.
           destruct (click_fn e) as [r|]; simpl; use_truth;
             (split; [reflexivity | split; [exact (nth_error_In _ _ Hn) | split; [first [assumption | reflexivity] | reflexivity]]]).
        -- left. use_truth. split; reflexivity.
      * left. split; reflexivity.
    + left. split; reflexivity.
Qed.

(** X2.  Whatever the selector and the candidates, the resolver calls
    [click_fn] at most once, on a candidate of the list that counts as
    true; it returns a text only as the result of that one click, and
    [None] when it clicked nothing or the click raised. *)
Theorem select_base_clicks_once (selector_value : selector) (C : list element) :
  (clicked (fst (_select_base selector_value C)) = [] /\
   snd (_select_base selector_value C) = None) \/
  (exists e,
     clicked (fst (_select_base selector_value C)) = [e] /\
     In e C /\ truthy e = true /\
     snd (_select_base selector_value C)
     = match click_fn e with Ok r => Some r | Raised => None end).
Proof.
  apply select_base_one_click.
Qed.

(** X3.  An empty text selector never fails on a non-empty list of
    candidates with non-empty texts: no text equals it, every text
    contains it, so the first candidate is clicked. *)
Theorem select_empty_selector_takes_first (e : element) (s : string)
    (rest : list element) :
  (forall x, In x (e :: rest) -> exists u, get_text_fn x = Ok u /\ u <> "") ->
  get_text_fn e = Ok s ->
  truthy e = true ->
  _select_base (SelStr "") (e :: rest)
  = match click_fn e with
    | Ok r => (map GetText (e :: rest) ++ [GetText e; Click e], Some r)
    | Raised => (map GetText (e :: rest) ++ [GetText e; Click e; PrintError], None)
    end.
Proof.
  intros Hall He Ht.
  unfold Resolver._select_base, Resolver.select_body.
  rewrite (exact_scan_all element get_text_fn "" (e :: rest) Hall).
  assert (Hc : Resolver.contained_scan get_text_fn "" (e :: rest)
               = ([GetText e], Ok (Some e))).
  { apply (contained_scan_first element get_text_fn "" [] e s rest).
    - intros x [].
    - exact He.
    - destruct s; reflexivity. }
  rewrite Hc.
  unfold bind, call, ret, emit, not_. simpl. rewrite Ht. simpl.
  destruct (click_fn e) as [r|]; simpl; rewrite ?Ht; simpl;
    rewrite ?app_nil_r, <- ?app_assoc; reflexivity.
Qed.

End ResolverExtras.

Lemma select_containment_first_witness :
  _select_base always_truthy text_of click_returns_text (SelStr "Rates") categories
  = (map GetText categories ++ [GetText prices; GetText rates_archive;
                                Click rates_archive],
     Some "Exchange Rates (Archive)").
Proof.
  apply (select_containment_first candidate always_truthy text_of
           click_returns_text "Rates" [prices] rates_archive
           "Exchange Rates (Archive)" [rates; money]).
  - intros x [<- | [<- | [<- | [<- | []]]]]; eexists; (split; [reflexivity | discriminate]).
  - intros x [<- | []]. exists "Prices". repeat split.
  - reflexivity.
  - reflexivity.
  - reflexivity.
Defined.

Lemma select_empty_selector_takes_first_witness :
  _select_base always_truthy text_of click_returns_text (SelStr "") categories
  = (map GetText categories ++ [GetText prices; Click prices], Some "Prices").
Proof.
  apply (select_empty_selector_takes_first candidate always_truthy text_of
           click_returns_text prices "Prices" [rates_archive; rates; money]).
  - intros x [<- | [<- | [<- | [<- | []]]]]; eexists; (split; [reflexivity | discriminate]).
  - reflexivity.
  - reflexivity.
Defined.

(* ===================================================================== *)
(** * Stripping                                                           *)
(* ===================================================================== *)

Section StripFacts.

Variable p : ascii -> bool.

Lemma lstrip_by_first s c :
  first_char (lstrip_by p s) = Some c -> p c = false.
Proof.
  induction s as [|a s IH]; simpl; [discriminate|].
  destruct (p a) eqn:Ha; [exact IH|].
  simpl. intros [= <-]. exact Ha.
Qed.

Lemma lstrip_by_fixed s :
  (forall c, first_char s = Some c -> p c = false) -> lstrip_by p s = s.
Proof.
  destruct s as [|a s]; simpl; [reflexivity|].
  intros H. rewrite (H a eq_refl). reflexivity.
Qed.

Lemma rstrip_by_first s :
  (forall c, first_char s = Some c -> p c = false) ->
  forall c, first_char (rstrip_by p s) = Some c -> p c = false.
Proof.
  destruct s as [|a s]; simpl; [discriminate|].
  intros H c. destruct (rstrip_by p s).
  - destruct (p a) eqn:Ha; simpl; [discriminate|]. intros [= <-]. exact Ha.
  - simpl. intros [= <-]. apply H. reflexivity.
Qed.

Lemma rstrip_by_last s c :
  last_char (rstrip_by p s) = Some c -> p c = false.
Proof.
  induction s as [|a s IH]; simpl; [discriminate|].
  destruct (rstrip_by p s) as [|b r] eqn:E.
  - destruct (p a) eqn:Ha; simpl; [discriminate|]. intros [= <-]. exact Ha.
  - cbn [last_char]. cbn [last_char] in IH.
    destruct (last_char r) as [d|].
    + exact IH.
    + exact IH.
Qed.

Lemma rstrip_by_idem s : rstrip_by p (rstrip_by p s) = rstrip_by p s.
Proof.
  induction s as [|a s IH]; simpl; [reflexivity|].
  destruct (rstrip_by p s) as [|b r] eqn:E.
  - destruct (p a) eqn:Ha; simpl; [reflexivity|]. rewrite Ha. reflexivity.
  - cbn [rstrip_by]. cbn [rstrip_by] in IH. rewrite IH. reflexivity.
Qed.

(** Stripping both ends is idempotent, and what it returns neither begins
    nor ends with a stripped character. *)
Lemma strip_by_idem s :
  rstrip_by p (lstrip_by p (rstrip_by p (lstrip_by p s)))
  = rstrip_by p (lstrip_by p s).
Proof.
  rewrite (lstrip_by_fixed (rstrip_by p (lstrip_by p s))).
  - apply rstrip_by_idem.
  - apply rstrip_by_first. intros c. apply lstrip_by_first.
Qed.

Lemma strip_by_ends s c :
  first_char (rstrip_by p (lstrip_by p s)) = Some c \/
  last_char (rstrip_by p (lstrip_by p s)) = Some c ->
  p c = false.
Proof.
  intros [H | H].
  - revert c H. apply rstrip_by_first. intros c. apply lstrip_by_first.
  - exact (rstrip_by_last _ _ H).
Qed.

End StripFacts.

Lemma lstrip_is_lstrip_by s : lstrip s = lstrip_by isspace s.
Proof.
  induction s as [|a s IH]; simpl; [reflexivity|].
  rewrite IH. reflexivity.
Qed.

Lemma rstrip_is_rstrip_by s : rstrip s = rstrip_by isspace s.
Proof.
  induction s as [|a s IH]; simpl; [reflexivity|].
  rewrite IH. reflexivity.
Qed.

Lemma strip_is_strip_by s : strip s = rstrip_by isspace (lstrip_by isspace s).
Proof. unfold strip. rewrite rstrip_is_rstrip_by, lstrip_is_lstrip_by. reflexivity. Qed.

Lemma strip_idem s : strip (strip s) = strip s.
Proof. rewrite !strip_is_strip_by. apply strip_by_idem. Qed.

(* ===================================================================== *)
(** * Properties of the prompt and of the interactive selection           *)
(* ===================================================================== *)

Import Console Effect Selection MoreExamples.

Lemma get_user_choice_sound max_value start_from_one inputs c rest :
  get_user_choice max_value start_from_one inputs = Some (c, rest) ->
  let base := if start_from_one then 1%Z else 0%Z in
  (base <= c <= max_value - 1 + base)%Z /\
  exists skipped,
    inputs = skipped ++ Ok c :: rest /\
    forall z, In (Ok z) skipped -> ~ (base <= z <= max_value - 1 + base)%Z.
Proof.
  intros H base. induction inputs as [|x inputs IH]; [discriminate|].
  cbn [get_user_choice] in H. fold base in H.
  destruct x as [z|].
  - destruct ((base <=? z) && (z <=? max_value - 1 + base))%Z eqn:Hb.
    + injection H as <- <-. apply andb_true_iff in Hb. destruct Hb as [H1 H2].
      apply Z.leb_le in H1, H2. split; [lia|].
      exists []. split; [reflexivity | intros y []].
    + destruct (IH H) as [Hc [skipped [-> Hs]]]. split; [exact Hc|].
      exists (Ok z :: skipped). split; [reflexivity|].
      intros y [[= <-] | Hy]; [|exact (Hs y Hy)].
      apply andb_false_iff in Hb. destruct Hb as [Hb | Hb];
        apply Z.leb_gt in Hb; lia.
  - destruct (IH H) as [Hc [skipped [-> Hs]]]. split; [exact Hc|].
    exists (Raised :: skipped). split; [reflexivity|].
    intros y [Hy | Hy]; [discriminate | exact (Hs y Hy)].
Qed.

Lemma get_user_choice_complete (max_value : Z) (start_from_one : bool)
    (skipped : keyboard) (c : Z) (rest : keyboard) :
  let base := if start_from_one then 1%Z else 0%Z in
  (base <= c <= max_value - 1 + base)%Z ->
  (forall z, In (Ok z) skipped -> ~ (base <= z <= max_value - 1 + base)%Z) ->
  get_user_choice max_value start_from_one (skipped ++ Ok c :: rest)
  = Some (c, rest).
Proof.
  intros base Hc Hs. induction skipped as [|x skipped IH];
    cbn [app get_user_choice]; fold base.
  - assert (E : ((base <=? c) && (c <=? max_value - 1 + base))%Z = true)
      by (apply andb_true_iff; split; apply Z.leb_le; lia).
    rewrite E. reflexivity.
  - destruct x as [z|].
    + assert (E : ((base <=? z) && (z <=? max_value - 1 + base))%Z = false).
      { apply andb_false_iff.
        destruct (Z.leb_spec base z); [right | left; reflexivity].
        apply Z.leb_gt. specialize (Hs z (or_introl eq_refl)). lia. }
      rewrite E. apply IH. intros y Hy. apply Hs. right; exact Hy.
    + apply IH. intros y Hy. apply Hs. right; exact Hy.
Qed.


(** X4.  [get_user_choice] returns exactly the first typed number that
    lies within the bounds ([1..max_value], or [0..max_value-1] when
    counting from zero); lines that are not numbers and numbers out of
    bounds before it are skipped, the lines after it are left untouched. *)
Theorem get_user_choice_first_valid (max_value : Z) (start_from_one : bool)
    (inputs : keyboard) (c : Z) (rest : keyboard) :
  let base := if start_from_one then 1%Z else 0%Z in
  get_user_choice max_value start_from_one inputs = Some (c, rest) <->
  ((base <= c <= max_value - 1 + base)%Z /\
   exists skipped,
     inputs = skipped ++ Ok c :: rest /\
     forall z, In (Ok z) skipped -> ~ (base <= z <= max_value - 1 + base)%Z).
Proof.
  intros base. split.
  - apply get_user_choice_sound.
  - intros [Hc [skipped [-> Hs]]].
    apply get_user_choice_complete; assumption.
Qed.

Lemma get_user_choice_first_valid_witness :
  get_user_choice 4 true [Raised; Ok 0%Z; Ok 7%Z; Ok 3%Z; Ok 1%Z]
  = Some (3%Z, [Ok 1%Z]).
Proof.
  apply (get_user_choice_first_valid 4 true
           [Raised; Ok 0%Z; Ok 7%Z; Ok 3%Z; Ok 1%Z] 3 [Ok 1%Z]).
  split; [lia|].
  exists [Raised; Ok 0%Z; Ok 7%Z]. split; [reflexivity|].
  intros z [H | [[= <-] | [[= <-] | []]]]; [discriminate | lia | lia].
Defined.

(** An ordinal in range clicks the candidate at that position. *)
Lemma select_base_at_index {element : Type} (truthy : element -> bool)
    (get_text_fn click_fn : element -> outcome string)
    (n : Z) (C : list element) (e : element) :
  (1 <= n <= Z.of_nat (length C))%Z ->
  nth_error C (Z.to_nat (n - 1)) = Some e ->
  truthy e = true ->
  _select_base truthy get_text_fn click_fn (SelInt n) C
  = match click_fn e with
    | Ok r => ([Click e], Some r)
    | Raised => ([Click e; PrintError], None)
    end.
Proof.
  intros [H1 H2] Hn Ht.
  unfold _select_base, select_body.
  assert (Hr : ((1 <=? n) && (n <=? Z.of_nat (length C)))%Z = true)
    by (apply andb_true_intro; split; apply Z.leb_le; assumption).
  rewrite Hr, Hn. unfold bind, call, ret, not_. simpl. rewrite Ht. simpl.
  destruct (click_fn e); reflexivity.
Qed.

Lemma valid_subcategories_raised links :
  (exists w, In w links /\ element_text w = Raised) ->
  _get_valid_subcategories links = Raised.
Proof.
  induction links as [|x links IH]; intros [w [Hin Hw]]; [destruct Hin|].
  cbn [_get_valid_subcategories].
  destruct (element_text x) as [t|] eqn:Hx; [|reflexivity].
  assert (Hrest : _get_valid_subcategories links = Raised).
  { apply IH. destruct Hin as [-> | Hin]; [congruence|]. exists w. auto. }
  cbn [obind]. rewrite Hrest. destruct (negb (String.eqb (strip t) "")); reflexivity.
Qed.

Lemma valid_subcategories_readable links :
  (forall w, In w links -> element_text w <> Raised) ->
  exists entries,
    _get_valid_subcategories links = Ok entries /\
    map sub_element entries = filter shows_text links /\
    forall e, In e entries ->
      (exists t, element_text (sub_element e) = Ok t /\ sub_text e = strip t) /\
      sub_text e <> "" /\ strip (sub_text e) = sub_text e.
Proof.
  induction links as [|x links IH]; intros Hall.
  - exists []. split; [reflexivity|]. split; [reflexivity | intros e []].
  - destruct IH as [entries [He [Hm Hp]]];
      [intros w Hw; apply Hall; right; exact Hw|].
    cbn [_get_valid_subcategories filter]. unfold shows_text at 1.
    destruct (element_text x) as [t|] eqn:Hx;
      [|exfalso; exact (Hall x (or_introl eq_refl) Hx)].
    cbn [obind]. rewrite He.
    destruct (String.eqb_spec (strip t) "") as [Hb | Hb]; cbn [negb obind].
    + exists entries. split; [reflexivity|]. split; [exact Hm | exact Hp].
    + eexists. split; [reflexivity|]. split.
      * cbn [map sub_element]. rewrite Hm. reflexivity.
      * intros e [<- | Hin]; [|exact (Hp e Hin)].
        cbn [sub_text sub_element]. split; [exists t; split; [exact Hx | reflexivity]|].
        split; [exact Hb | apply strip_idem].
Qed.

(** X5.  [_get_valid_subcategories] keeps, in order, exactly the links
    whose stripped text is not empty, each paired with that stripped text:
    no entry has an empty text or a text with white space at an end.  If
    the text of any link cannot be read the whole call raises. *)
Theorem valid_subcategories_filter (links : list WebElement) :
  ((forall w, In w links -> element_text w <> Raised) ->
   exists entries,
     _get_valid_subcategories links = Ok entries /\
     map sub_element entries = filter shows_text links /\
     forall e, In e entries ->
       (exists t, element_text (sub_element e) = Ok t /\ sub_text e = strip t) /\
       sub_text e <> "" /\ strip (sub_text e) = sub_text e) /\
  ((exists w, In w links /\ element_text w = Raised) ->
   _get_valid_subcategories links = Raised).
Proof.
  split; [apply valid_subcategories_readable | apply valid_subcategories_raised].
Qed.

Lemma valid_subcategories_filter_witness :
  _get_valid_subcategories three_links
  = Ok [ {| sub_text := "Indicative Rates"; sub_element := link 0 " Indicative Rates " |};
         {| sub_text := "Cross Rates"; sub_element := link 2 "Cross Rates" |} ].
Proof.
  destruct (valid_subcategories_filter three_links) as [Hread _].
  destruct Hread as [entries [He _]].
  - intros w [<- | [<- | [<- | []]]]; discriminate.
  - rewrite He. vm_compute in He. injection He as <-. reflexivity.
Defined.



(** X7.  The interactive selection cannot miss: the number that the prompt
    accepts is a position in the list of valid subcategories, so the
    resolver clicks the entry at that position, reads no text, prints no
    "not found", and returns the entry's text (or [None] if the click
    raises). *)
Theorem select_subcategory_clicks_choice (links : list WebElement)
    (subcategories : list subcategory_entry) (inputs : keyboard)
    (choice : Z) (rest : keyboard) :
  _get_valid_subcategories links = Ok subcategories ->
  get_user_choice (Z.of_nat (length subcategories)) true inputs
  = Some (choice, rest) ->
  exists e,
    nth_error subcategories (Z.to_nat (choice - 1)) = Some e /\
    select_subcategory links inputs
    = Some (match element_click (sub_element e) with
            | Ok _ => ([Click e], Some (sub_text e))
            | Raised => ([Click e; PrintError], None)
            end, rest).
Proof.
  intros He Hc.
  destruct (get_user_choice_sound _ _ _ _ _ Hc) as [Hb _]. cbv zeta in Hb.
  destruct (nth_error subcategories (Z.to_nat (choice - 1))) as [e|] eqn:Hn;
    [|apply nth_error_None in Hn; lia].
  exists e. split; [reflexivity|].
  unfold select_subcategory. rewrite He, Hc.
  unfold _select_subcategory_base.
  rewrite (select_base_at_index _ _ _ choice subcategories e);
    [| lia | exact Hn | reflexivity].
  destruct (element_click (sub_element e)); reflexivity.
Qed.

Lemma select_subcategory_clicks_choice_witness :
  select_subcategory three_links [Ok 5%Z; Ok 2%Z]
  = Some ([Click {| sub_text := "Cross Rates"; sub_element := link 2 "Cross Rates" |}],
          Some "Cross Rates", []).
Proof.
  destruct (select_subcategory_clicks_choice three_links
              [ {| sub_text := "Indicative Rates";
                   sub_element := link 0 " Indicative Rates " |};
                {| sub_text := "Cross Rates"; sub_element := link 2 "Cross Rates" |} ]
              [Ok 5%Z; Ok 2%Z] 2 [])
    as [e [He Hs]]; [reflexivity | reflexivity |].
  injection He as <-. exact Hs.
Defined.

(* ===================================================================== *)
(** * Properties of the category click and of the variable pipeline       *)
(* ===================================================================== *)

Lemma find_spec sub s :
  (-1 <= find sub s)%Z /\ (find sub s = (-1)%Z <-> str_in sub s = false).
Proof.
  induction s as [|c s [IH1 IH2]]; cbn [find str_in].
  - destruct (String.prefix sub ""); split; try lia; split; (discriminate || reflexivity).
  - destruct (String.prefix sub (String c s)).
    + split; [lia|]. split; discriminate.
    + destruct (Z.eqb_spec (find sub s) (-1)) as [E | E].
      * split; [lia|]. split; [intros _; apply IH2; exact E | reflexivity].
      * split; [lia|]. split; [lia|].
        intros H. apply IH2 in H. contradiction.
Qed.

(** X8.  [handle_click] of a category first looks at the panel: when the
    panel's class contains the letters "in" anywhere (as in "collapse in",
    but also "collapsing") the category is taken to be open and is not
    clicked, and its text is returned; otherwise the category is clicked
    and the panel awaited before the text is returned. *)
Theorem category_click_skipped_when_open (element : category_element)
    (cls : string) :
  panel_class element = Ok cls ->
  (str_in "in" cls = true ->
   category_handle_click element = ([], element_text (toggle element))) /\
  (str_in "in" cls = false ->
   category_handle_click element
   = match element_click (toggle element) with
     | Raised => ([Clicked (toggle element)], Raised)
     | Ok _ =>
         match panel_visible element with
         | Raised => ([Clicked (toggle element); WaitedForPanel], Raised)
         | Ok _ => ([Clicked (toggle element); WaitedForPanel],
                    element_text (toggle element))
         end
     end).
Proof.
  intros Hc. unfold category_handle_click. rewrite Hc.
  destruct (find_spec "in" cls) as [_ Hf].
  unfold then_, silent, pure, perform. cbn.
  split; intros Hin.
  - destruct (Z.eqb_spec (find "in" cls) (-1)) as [E | E].
    + apply Hf in E. congruence.
    + cbn. destruct (element_text (toggle element)); reflexivity.
  - destruct (Z.eqb_spec (find "in" cls) (-1)) as [E | E].
    + cbn. destruct (element_click (toggle element)); [|reflexivity].
      destruct (panel_visible element); [|reflexivity].
      destruct (element_text (toggle element)); reflexivity.
    + exfalso. apply E. apply Hf. exact Hin.
Qed.

Lemma category_click_skipped_when_open_witness :
  category_handle_click open_category = ([], Ok "Exchange Rates") /\
  category_handle_click closed_category
  = ([Clicked (link 11 "Prices"); WaitedForPanel], Ok "Prices").
Proof.
  split.
  - apply (category_click_skipped_when_open open_category
             "panel-collapse collapse in"); reflexivity.
  - apply (category_click_skipped_when_open closed_category
             "panel-collapse collapse"); reflexivity.
Defined.

Ltac no_cart Hin :=
  repeat (apply in_app_or in Hin; destruct Hin as [Hin | Hin]);
  try (apply in_map_iff in Hin; destruct Hin as [? [Hin _]]; discriminate);
  try (destruct Hin).

Lemma not_str_false r : not_str r = false -> exists s, r = Some s /\ s <> "".
Proof.
  destruct r as [s|]; [|discriminate]. cbn [not_str]. intros H.
  exists s. split; [reflexivity | apply String.eqb_neq; exact H].
Qed.

(** The run of the pipeline when each of the four selections returns a
    non-empty text. *)
Lemma pipeline_reaches_cart variable v ev1 c subs ev2 s a3 items ev3 i
    a4 calcs ev4 t :
  _select_category_base (SelStr (Scraper.category variable)) (category_elements v)
  = (ev1, Some c) -> c <> "" ->
  _get_valid_subcategories (subcategory_links v) = Ok subs ->
  _select_subcategory_base (SelStr (Scraper.subcategory variable)) subs
  = (ev2, Some s) -> s <> "" ->
  _get_valid_items (checked_items v) (item_rows v) = (a3, Ok items) ->
  _select_item_base (SelStr (Scraper.item_name variable)) items
  = (ev3, Some i) -> i <> "" ->
  _get_valid_calc_types (dropdown_click v) (checked_types v) (type_elements v)
  = (a4, Ok calcs) ->
  _select_calculation_type_base (body_click v)
    (SelStr (Scraper.calculation_type variable)) calcs = (ev4, Some t) -> t <> "" ->
  process_single_variable variable v
  = (map CategoryStep ev1 ++ map SubcategoryStep ev2 ++ map Did a3
       ++ map ItemStep ev3 ++ map Did a4 ++ map CalcTypeStep ev4 ++ [AddToCart],
     match cart_click v with Ok _ => true | Raised => false end).
Proof.
  intros H1 Hc H2 H3 Hs H4 H5 Hi H6 H7 Ht.
  apply String.eqb_neq in Hc, Hs, Hi, Ht.
  unfold process_single_variable. cbv zeta.
  destruct (category_elements v) as [|ce ces];
    [apply (f_equal snd) in H1; cbn in H1; discriminate|].
  cbn [is_empty]. rewrite H1. cbn [not_str]. rewrite Hc.
  rewrite H2.
  destruct subs as [|sb sbs];
    [apply (f_equal snd) in H3; cbn in H3; discriminate|].
  cbn [is_empty]. rewrite H3. cbn [not_str]. rewrite Hs.
  rewrite H4.
  destruct items as [|it its];
    [apply (f_equal snd) in H5; cbn in H5; discriminate|].
  cbn [is_empty]. rewrite H5. cbn [not_str]. rewrite Hi.
  rewrite H6.
  destruct calcs as [|ct cts];
    [apply (f_equal snd) in H7; cbn in H7; discriminate|].
  cbn [is_empty]. rewrite H7. cbn [not_str]. rewrite Ht.
  destruct (cart_click v); rewrite <- !app_assoc; reflexivity.
Qed.

(** X9.  [process_single_variable] clicks "add to cart" exactly when each
    of the four selections (category, subcategory, item, calculation type)
    has returned a non-empty text, and then as the last thing it does,
    after the events of the four selections in that order; and it reports
    success exactly when that click was made and did not raise.  So a
    variable for which any selection returns [None] or an empty text, also
    after having clicked a candidate, leaves the cart untouched and is
    reported as failed. *)
Theorem cart_only_after_four_selections (variable : Scraper.Variable_)
    (v : page_view) :
  let reached ev1 c subs ev2 s a3 items ev3 i a4 calcs ev4 t :=
    (_select_category_base (SelStr (Scraper.category variable)) (category_elements v)
     = (ev1, Some c) /\ c <> "") /\
    (_get_valid_subcategories (subcategory_links v) = Ok subs /\
     _select_subcategory_base (SelStr (Scraper.subcategory variable)) subs
     = (ev2, Some s) /\ s <> "") /\
    (_get_valid_items (checked_items v) (item_rows v) = (a3, Ok items) /\
     _select_item_base (SelStr (Scraper.item_name variable)) items
     = (ev3, Some i) /\ i <> "") /\
    (_get_valid_calc_types (dropdown_click v) (checked_types v) (type_elements v)
     = (a4, Ok calcs) /\
     _select_calculation_type_base (body_click v)
       (SelStr (Scraper.calculation_type variable)) calcs = (ev4, Some t) /\
     t <> "") in
  (forall ev1 c subs ev2 s a3 items ev3 i a4 calcs ev4 t,
     reached ev1 c subs ev2 s a3 items ev3 i a4 calcs ev4 t ->
     process_single_variable variable v
     = (map CategoryStep ev1 ++ map SubcategoryStep ev2 ++ map Did a3
          ++ map ItemStep ev3 ++ map Did a4 ++ map CalcTypeStep ev4 ++ [AddToCart],
        match cart_click v with Ok _ => true | Raised => false end)) /\
  (In AddToCart (fst (process_single_variable variable v)) ->
   exists ev1 c subs ev2 s a3 items ev3 i a4 calcs ev4 t,
     reached ev1 c subs ev2 s a3 items ev3 i a4 calcs ev4 t /\
     length (clicked ev1) = 1 /\ length (clicked ev2) = 1 /\
     length (clicked ev3) = 1 /\ length (clicked ev4) = 1) /\
  (snd (process_single_variable variable v) = true <->
   In AddToCart (fst (process_single_variable variable v)) /\
   cart_click v <> Raised) /\
  (not_str (snd (_select_category_base (SelStr (Scraper.category variable))
                   (category_elements v))) = true ->
   ~ In AddToCart (fst (process_single_variable variable v))) /\
  (forall subs,
     _get_valid_subcategories (subcategory_links v) = Ok subs ->
     not_str (snd (_select_subcategory_base
                     (SelStr (Scraper.subcategory variable)) subs)) = true ->
     ~ In AddToCart (fst (process_single_variable variable v))) /\
  (forall a3 items,
     _get_valid_items (checked_items v) (item_rows v) = (a3, Ok items) ->
     not_str (snd (_select_item_base (SelStr (Scraper.item_name variable)) items))
     = true ->
     ~ In AddToCart (fst (process_single_variable variable v))) /\
  (forall a4 calcs,
     _get_valid_calc_types (dropdown_click v) (checked_types v) (type_elements v)
     = (a4, Ok calcs) ->
     not_str (snd (_select_calculation_type_base (body_click v)
                     (SelStr (Scraper.calculation_type variable)) calcs)) = true ->
     ~ In AddToCart (fst (process_single_variable variable v))).
Proof.
  intros reached.
  assert (Hto : forall ev1 c subs ev2 s a3 items ev3 i a4 calcs ev4 t,
            reached ev1 c subs ev2 s a3 items ev3 i a4 calcs ev4 t ->
            process_single_variable variable v
            = (map CategoryStep ev1 ++ map SubcategoryStep ev2 ++ map Did a3
                 ++ map ItemStep ev3 ++ map Did a4 ++ map CalcTypeStep ev4
                 ++ [AddToCart],
               match cart_click v with Ok _ => true | Raised => false end)).
  { intros ev1 c subs ev2 s a3 items ev3 i a4 calcs ev4 t
           [[H1 Hc] [[H2 [H3 Hs]] [[H4 [H5 Hi]] [H6 [H7 Ht]]]]].
    apply (pipeline_reaches_cart variable v ev1 c subs ev2 s a3 items ev3 i
             a4 calcs ev4 t); assumption. }
  assert (Hfrom : In AddToCart (fst (process_single_variable variable v)) ->
            exists ev1 c subs ev2 s a3 items ev3 i a4 calcs ev4 t,
              reached ev1 c subs ev2 s a3 items ev3 i a4 calcs ev4 t /\
              length (clicked ev1) = 1 /\ length (clicked ev2) = 1 /\
              length (clicked ev3) = 1 /\ length (clicked ev4) = 1).
  { unfold process_single_variable.
    destruct (is_empty (category_elements v)); [intros []|].
    destruct (_select_category_base _ _) as [ev1 r1] eqn:E1.
    destruct (not_str r1) eqn:N1; [cbn [fst]; intros Hin; exfalso; no_cart Hin|].
    destruct (_get_valid_subcategories _) as [subs|] eqn:E2;
      [|cbn [fst]; intros Hin; exfalso; no_cart Hin].
    destruct (is_empty subs); [cbn [fst]; intros Hin; exfalso; no_cart Hin|].
    destruct (_select_subcategory_base _ _) as [ev2 r2] eqn:E3.
    destruct (not_str r2) eqn:N2; [cbn [fst]; intros Hin; exfalso; no_cart Hin|].
    destruct (_get_valid_items _ _) as [a3 [items|]] eqn:E4;
      [|cbn [fst]; intros Hin; exfalso; no_cart Hin].
    destruct (is_empty items); [cbn [fst]; intros Hin; exfalso; no_cart Hin|].
    destruct (_select_item_base _ _) as [ev3 r3] eqn:E5.
    destruct (not_str r3) eqn:N3; [cbn [fst]; intros Hin; exfalso; no_cart Hin|].
    destruct (_get_valid_calc_types _ _ _) as [a4 [calcs|]] eqn:E6;
      [|cbn [fst]; intros Hin; exfalso; no_cart Hin].
    destruct (is_empty calcs); [cbn [fst]; intros Hin; exfalso; no_cart Hin|].
    destruct (_select_calculation_type_base _ _ _) as [ev4 r4] eqn:E7.
    destruct (not_str r4) eqn:N4; [cbn [fst]; intros Hin; exfalso; no_cart Hin|].
    intros _.
    destruct (not_str_false _ N1) as [c [-> Hc]].
    destruct (not_str_false _ N2) as [s [-> Hs]].
    destruct (not_str_false _ N3) as [i [-> Hi]].
    destruct (not_str_false _ N4) as [t [-> Ht]].
    exists ev1, c, subs, ev2, s, a3, items, ev3, i, a4, calcs, ev4, t.
    split; [unfold reached; repeat split; assumption|].
    assert (Hone : forall (element : Type) truthy get_text_fn click_fn sel
                     (C : list element) ev r,
              _select_base truthy get_text_fn click_fn sel C = (ev, Some r) ->
              length (clicked ev) = 1).
    { intros element truthy get_text_fn click_fn sel C ev r E.
      destruct (select_base_one_click element truthy get_text_fn click_fn sel C)
        as [[_ Hr] | [e [Hcl _]]]; rewrite E in *; cbn [fst snd] in *.
      - discriminate.
      - rewrite Hcl. reflexivity. }
    split; [exact (Hone _ _ _ _ _ _ _ _ E1)|].
    split; [exact (Hone _ _ _ _ _ _ _ _ E3)|].
    split; [exact (Hone _ _ _ _ _ _ _ _ E5) | exact (Hone _ _ _ _ _ _ _ _ E7)]. }
  assert (Hfail : forall P : Prop,
            (forall ev1 c subs ev2 s a3 items ev3 i a4 calcs ev4 t,
               reached ev1 c subs ev2 s a3 items ev3 i a4 calcs ev4 t -> P -> False) ->
            P -> ~ In AddToCart (fst (process_single_variable variable v))).
  { intros P HP Hp Hin.
    destruct (Hfrom Hin)
      as [ev1 [c [subs [ev2 [s [a3 [items [ev3 [i [a4 [calcs [ev4 [t [Hr _]]]]]]]]]]]]]].
    exact (HP _ _ _ _ _ _ _ _ _ _ _ _ _ Hr Hp). }
  split; [exact Hto|]. split; [exact Hfrom|]. split; [|split; [|split; [|split]]].
  - split.
    + intros Hok.
      assert (Hin : In AddToCart (fst (process_single_variable variable v))).
      { revert Hok. unfold process_single_variable.
        destruct (is_empty (category_elements v)); [discriminate|].
        destruct (_select_category_base _ _) as [ev1 r1].
        destruct (not_str r1); [discriminate|].
        destruct (_get_valid_subcategories _) as [subs|]; [|discriminate].
        destruct (is_empty subs); [discriminate|].
        destruct (_select_subcategory_base _ _) as [ev2 r2].
        destruct (not_str r2); [discriminate|].
        destruct (_get_valid_items _ _) as [a3 [items|]]; [|discriminate].
        destruct (is_empty items); [discriminate|].
        destruct (_select_item_base _ _) as [ev3 r3].
        destruct (not_str r3); [discriminate|].
        destruct (_get_valid_calc_types _ _ _) as [a4 [calcs|]]; [|discriminate].
        destruct (is_empty calcs); [discriminate|].
        destruct (_select_calculation_type_base _ _ _) as [ev4 r4].
        destruct (not_str r4); [discriminate|].
        destruct (cart_click v); [|discriminate].
        intros _. cbn [fst]. apply in_or_app. right. left. reflexivity. }
      split; [exact Hin|].
      destruct (Hfrom Hin)
        as [ev1 [c [subs [ev2 [s [a3 [items [ev3 [i [a4 [calcs [ev4 [t [Hr _]]]]]]]]]]]]]].
      rewrite (Hto _ _ _ _ _ _ _ _ _ _ _ _ _ Hr) in Hok. cbn [snd] in Hok.
      destruct (cart_click v); [discriminate | discriminate].
    + intros [Hin Hcart].
      destruct (Hfrom Hin)
        as [ev1 [c [subs [ev2 [s [a3 [items [ev3 [i [a4 [calcs [ev4 [t [Hr _]]]]]]]]]]]]]].
      rewrite (Hto _ _ _ _ _ _ _ _ _ _ _ _ _ Hr). cbn [snd].
      destruct (cart_click v); [reflexivity | contradiction].
  - apply Hfail.
    intros ev1 c subs ev2 s a3 items ev3 i a4 calcs ev4 t [[H1 Hc] _] Hn.
    rewrite H1 in Hn. cbn [snd not_str] in Hn.
    apply String.eqb_eq in Hn. contradiction.
  - intros subs0 E Hn. revert Hn. apply Hfail.
    intros ev1 c subs ev2 s a3 items ev3 i a4 calcs ev4 t [_ [[H2 [H3 Hs]] _]] Hn.
    rewrite E in H2. injection H2 as <-.
    rewrite H3 in Hn. cbn [snd not_str] in Hn.
    apply String.eqb_eq in Hn. contradiction.
  - intros a30 items0 E Hn. revert Hn. apply Hfail.
    intros ev1 c subs ev2 s a3 items ev3 i a4 calcs ev4 t [_ [_ [[H4 [H5 Hi]] _]]] Hn.
    rewrite E in H4. injection H4 as <- <-.
    rewrite H5 in Hn. cbn [snd not_str] in Hn.
    apply String.eqb_eq in Hn. contradiction.
  - intros a40 calcs0 E Hn. revert Hn. apply Hfail.
    intros ev1 c subs ev2 s a3 items ev3 i a4 calcs ev4 t [_ [_ [_ [H6 [H7 Ht]]]]] Hn.
    rewrite E in H6. injection H6 as <- <-.
    rewrite H7 in Hn. cbn [snd not_str] in Hn.
    apply String.eqb_eq in Hn. contradiction.
Qed.

(** An item row without a text: its box is ticked, the selection returns
    the empty text, and the cart is left alone. *)
Lemma cart_only_after_four_selections_witness :
  process_single_variable dollar dollar_view
  = (fst (process_single_variable dollar dollar_view), true) /\
  last (fst (process_single_variable dollar dollar_view)) AddToCart = AddToCart /\
  In (ItemStep (Click {| entry_text := ""; checkbox := link 22 "" |}))
     (fst (process_single_variable dollar blank_item_view)) /\
  ~ In AddToCart (fst (process_single_variable dollar blank_item_view)).
Proof.
  destruct (cart_only_after_four_selections dollar dollar_view)
    as [Hto [Hfrom [Hok _]]].
  destruct (cart_only_after_four_selections dollar blank_item_view)
    as [_ [_ [_ [_ [_ [Hitem _]]]]]].
  assert (Hin : In AddToCart (fst (process_single_variable dollar dollar_view))).
  { apply Hok. reflexivity. }
  destruct (Hfrom Hin)
    as [ev1 [c [subs [ev2 [s [a3 [items [ev3 [i [a4 [calcs [ev4 [t [Hr _]]]]]]]]]]]]]].
  split; [|split; [|split]].
  - rewrite (Hto _ _ _ _ _ _ _ _ _ _ _ _ _ Hr). reflexivity.
  - rewrite (Hto _ _ _ _ _ _ _ _ _ _ _ _ _ Hr). cbn [fst].
    rewrite !app_assoc. apply last_last.
  - vm_compute. tauto.
  - apply (Hitem [] [ {| entry_text := ""; checkbox := link 22 "" |};
                      {| entry_text := "(USD) US Dollar"; checkbox := link 20 "" |} ]);
      reflexivity.
Defined.

Lemma process_each_runs variables views : forall i success_count,
  process_each variables views i success_count
  = (map (fun iv => process_single_variable (snd iv) (views (fst iv)))
         (combine (seq i (length variables)) variables),
     success_count
     + length (filter (fun run => snd run)
                 (map (fun iv => process_single_variable (snd iv) (views (fst iv)))
                      (combine (seq i (length variables)) variables)))).
Proof.
  induction variables as [|variable rest IH]; intros i success_count.
  - cbn. rewrite Nat.add_0_r. reflexivity.
  - cbn [process_each length seq combine map filter fst snd].
    destruct (process_single_variable variable (views i)) as [tr ok].
    rewrite IH. cbn [snd]. destruct ok; cbn [length]; f_equal; lia.
Qed.

Lemma filter_length_existsb {A} (f : A -> bool) l :
  (0 <? length (filter f l))%nat = existsb f l.
Proof.
  induction l as [|x l IH]; [reflexivity|].
  cbn [filter existsb]. destruct (f x); [reflexivity | exact IH].
Qed.

(** X10.  [process_variables_automatically] attempts every configured
    variable, in order, each on the page as it is at its turn, whether or
    not the earlier ones succeeded, and reports success exactly when at
    least one of them succeeded; with no variables configured nothing is
    attempted and the result is [False]. *)
Theorem batch_attempts_every_variable (variables : list Scraper.Variable_)
    (views : nat -> page_view) :
  process_variables_automatically None views = ([], false) /\
  process_variables_automatically (Some []) views = ([], false) /\
  (variables <> [] ->
   fst (process_variables_automatically (Some variables) views)
   = map (fun iv => process_single_variable (snd iv) (views (fst iv)))
         (combine (seq 0 (length variables)) variables) /\
   length (fst (process_variables_automatically (Some variables) views))
   = length variables /\
   snd (process_variables_automatically (Some variables) views)
   = existsb (fun run => snd run)
       (fst (process_variables_automatically (Some variables) views))).
Proof.
  split; [reflexivity|]. split; [reflexivity|].
  intros Hne. unfold process_variables_automatically.
  destruct variables as [|variable rest]; [contradiction|].
  rewrite process_each_runs. cbn [fst snd Nat.add].
  split; [reflexivity|]. split.
  - rewrite length_map, length_combine, length_seq. apply Nat.min_id.
  - apply filter_length_existsb.
Qed.

Lemma batch_attempts_every_variable_witness :
  process_variables_automatically (Some [dollar; dollar])
    (fun i => match i with 0 => no_item_view | _ => dollar_view end)
  = ([process_single_variable dollar no_item_view;
      process_single_variable dollar dollar_view], true).
Proof.
  pose proof (batch_attempts_every_variable [dollar; dollar]
                (fun i => match i with 0 => no_item_view | _ => dollar_view end))
    as [_ [_ H]].
  destruct H as [Hruns [_ Hok]]; [discriminate|].
  rewrite (surjective_pairing (process_variables_automatically _ _)).
  rewrite Hok, Hruns. reflexivity.
Defined.

(* ===================================================================== *)
(** * Properties of the frequency and date steps                          *)
(* ===================================================================== *)

Import Session.

(** The tokens of the vocabulary. *)
Lemma frequency_tokens key token :
  dict_get FREQUENCIES key = Some token ->
  In (key, token) FREQUENCIES.
Proof.
  unfold FREQUENCIES. cbn [dict_get].
  repeat match goal with
         | |- context [String.eqb ?a key] =>
             destruct (String.eqb_spec a key) as [<- | _];
             [intros [= <-]; cbn; tauto |]
         end.
  discriminate.
Qed.

Lemma frequency_token_nonempty key token :
  dict_get FREQUENCIES key = Some token -> token <> "".
Proof.
  intros H. apply frequency_tokens in H. unfold FREQUENCIES in H.
  cbn [In] in H.
  repeat (destruct H as [[= <- <-] | H]; [discriminate|]).
  destruct H.
Qed.

(** X11.  The two tables agree: every key of the frequency vocabulary
    maps to a non-empty token that has its own entry in the table of date
    formats, so [get_date_format_by_frequency] falls back on its default
    "MM-YYYY" only for a value outside the vocabulary; and every key of
    the vocabulary is in lower case, which is what the lookup of the
    lower-cased configuration value relies on. *)
Theorem frequency_tokens_have_formats (key token : string) :
  dict_get FREQUENCIES key = Some token ->
  token <> "" /\
  dict_get DATE_FORMATS token = Some (get_date_format_by_frequency token) /\
  lower key = key.
Proof.
  intros H. apply frequency_tokens in H. unfold FREQUENCIES in H.
  cbn [In] in H.
  repeat (destruct H as [[= <- <-] | H];
          [split; [discriminate | split; reflexivity]|]).
  destruct H.
Qed.

Lemma frequency_tokens_have_formats_witness :
  dict_get DATE_FORMATS "QUARTER" = Some (get_date_format_by_frequency "QUARTER").
Proof.
  apply (frequency_tokens_have_formats "quarterly" "QUARTER"). reflexivity.
Defined.

Lemma available_values_readable options :
  (forall o, In o options -> option_value o <> Raised) ->
  exists values,
    available_values options = Ok values /\
    forall token, str_mem token values = true <->
                  exists o, In o options /\ option_value o = Ok token.
Proof.
  induction options as [|o options IH]; intros Hall.
  - exists []. split; [reflexivity|]. intros token. split; [discriminate|].
    intros [x [[] _]].
  - destruct IH as [values [Hv Hm]]; [intros x Hx; apply Hall; right; exact Hx|].
    cbn [available_values].
    destruct (option_value o) as [value|] eqn:Ho;
      [|exfalso; exact (Hall o (or_introl eq_refl) Ho)].
    cbn [obind]. rewrite Hv. cbn [obind].
    exists (value :: values). split; [reflexivity|].
    intros token. cbn [str_mem]. rewrite orb_true_iff, Hm. split.
    + intros [He | [x [Hx Hxv]]].
      * apply String.eqb_eq in He. subst. exists o. split; [left; reflexivity | exact Ho].
      * exists x. split; [right; exact Hx | exact Hxv].
    + intros [x [[<- | Hx] Hxv]].
      * left. rewrite Ho in Hxv. injection Hxv as ->. apply String.eqb_refl.
      * right. exists x. split; assumption.
Qed.

Lemma set_first_option_first pre opt post token set_value :
  (forall o, In o pre -> option_value o <> Raised /\ option_value o <> Ok token) ->
  option_value opt = Ok token ->
  set_first_option (pre ++ opt :: post) token set_value
  = Some (match set_value token with
          | Raised => ([SetFrequency token], Raised)
          | Ok _ => ([SetFrequency token], option_text opt)
          end).
Proof.
  intros Hpre Ho. induction pre as [|x pre IH]; cbn [app set_first_option].
  - rewrite Ho, String.eqb_refl. unfold then_, perform, silent.
    destruct (set_value token); [|reflexivity].
    destruct (option_text opt); reflexivity.
  - destruct (Hpre x (or_introl eq_refl)) as [H1 H2].
    destruct (option_value x) as [value|]; [|contradiction].
    destruct (String.eqb_spec value token) as [-> | _]; [contradiction|].
    apply IH. intros o Hin. apply Hpre. right; exact Hin.
Qed.

(** X12.  With a frequency configured, [select_frequency] never prompts.
    It raises, without touching the drop-down, when the key (compared in
    lower case) is not in the vocabulary or its token is not among the
    values offered; otherwise it sets the token and returns the text of
    the first option that carries it. *)
Theorem select_frequency_from_config (config : Scraper.ScraperConfig)
    (key : string) (options : list option_element)
    (set_value : string -> outcome unit) (inputs : keyboard) :
  Scraper.frequency config = Some key ->
  key <> "" ->
  (forall o, In o options -> option_value o <> Raised) ->
  (dict_get FREQUENCIES (lower key) = None ->
   select_frequency config (Ok options) set_value inputs = Some ([], Raised)) /\
  (forall token,
     dict_get FREQUENCIES (lower key) = Some token ->
     ((forall o, In o options -> option_value o <> Ok token) ->
      select_frequency config (Ok options) set_value inputs = Some ([], Raised)) /\
     (forall pre opt post,
        options = pre ++ opt :: post ->
        (forall o, In o pre -> option_value o <> Ok token) ->
        option_value opt = Ok token ->
        select_frequency config (Ok options) set_value inputs
        = Some (match set_value token with
                | Raised => ([SetFrequency token], Raised)
                | Ok _ => ([SetFrequency token], option_text opt)
                end))).
Proof.
  intros Hf Hk Hread.
  apply String.eqb_neq in Hk.
  unfold select_frequency. rewrite Hf, Hk. cbn [negb].
  split.
  - intros ->. reflexivity.
  - intros token Ht. rewrite Ht.
    pose proof (frequency_token_nonempty _ _ Ht) as Hne.
    apply String.eqb_neq in Hne. rewrite Hne.
    destruct (available_values_readable options Hread) as [values [Hv Hm]].
    rewrite Hv. split.
    + intros Hnone.
      destruct (str_mem token values) eqn:Hmem; [|reflexivity].
      apply Hm in Hmem. destruct Hmem as [o [Hin Ho]].
      exfalso. exact (Hnone o Hin Ho).
    + intros pre opt post -> Hpre Ho.
      assert (Hmem : str_mem token values = true).
      { apply Hm. exists opt. split; [apply in_or_app; right; left; reflexivity | exact Ho]. }
      rewrite Hmem. cbn [negb].
      rewrite (set_first_option_first pre opt post token set_value); [reflexivity| |exact Ho].
      intros o Hin. split; [|apply Hpre; exact Hin].
      apply Hread. apply in_or_app. left; exact Hin.
Qed.

Lemma select_frequency_from_config_witness :
  select_frequency (config_with (Some "Quarterly") None None) (Ok monthly_options)
                   scripts_work []
  = Some ([SetFrequency "QUARTER"], Ok "Quarterly") /\
  select_frequency (config_with (Some "weekly") None None) (Ok monthly_options)
                   scripts_work []
  = Some ([], Raised) /\
  select_frequency (config_with (Some "biweekly") None None) (Ok monthly_options)
                   scripts_work []
  = Some ([], Raised).
Proof.
  assert (Hread : forall o, In o monthly_options -> option_value o <> Raised)
    by (intros o [<- | [<- | [<- | []]]]; discriminate).
  split; [|split].
  - destruct (select_frequency_from_config (config_with (Some "Quarterly") None None)
                "Quarterly" monthly_options scripts_work [] eq_refl
                ltac:(discriminate) Hread) as [_ H].
    destruct (H "QUARTER" eq_refl) as [_ Hset].
    apply (Hset [frequency_option "MONTH" "Monthly"]
                (frequency_option "QUARTER" "Quarterly")
                [frequency_option "YEAR" "Annual"]).
    + reflexivity.
    + intros o [<- | []]. discriminate.
    + reflexivity.
  - destruct (select_frequency_from_config (config_with (Some "weekly") None None)
                "weekly" monthly_options scripts_work [] eq_refl
                ltac:(discriminate) Hread) as [_ H].
    destruct (H "YEARWEEK" eq_refl) as [Hmiss _].
    apply Hmiss. intros o [<- | [<- | [<- | []]]]; discriminate.
  - destruct (select_frequency_from_config (config_with (Some "biweekly") None None)
                "biweekly" monthly_options scripts_work [] eq_refl
                ltac:(discriminate) Hread) as [H _].
    apply H. reflexivity.
Defined.

Lemma frequency_key_nonempty key token :
  dict_get FREQUENCIES (lower key) = Some token -> key <> "".
Proof. intros H ->. discriminate H. Qed.

(** X13.  The configured frequency key is case-insensitive within the
    vocabulary: two keys with the same lower-case form, that form being a
    key of the frequency vocabulary, select the same frequency in every
    situation (the same script call and the same result).  A key outside
    the vocabulary is left out: the code then raises an error that quotes
    the key as configured. *)
Theorem select_frequency_ignores_case (config config' : Scraper.ScraperConfig)
    (key key' token : string) (found_options : outcome (list option_element))
    (set_value : string -> outcome unit) (inputs : keyboard) :
  Scraper.frequency config = Some key ->
  Scraper.frequency config' = Some key' ->
  lower key' = lower key ->
  dict_get FREQUENCIES (lower key) = Some token ->
  select_frequency config found_options set_value inputs
  = select_frequency config' found_options set_value inputs.
Proof.
  intros H H' Hl Ht.
  pose proof (frequency_key_nonempty key token Ht) as Hk.
  assert (Hk' : key' <> "")
    by (apply (frequency_key_nonempty key' token); rewrite Hl; exact Ht).
  apply String.eqb_neq in Hk, Hk'.
  unfold select_frequency. rewrite H, H', Hk, Hk', Hl. reflexivity.
Qed.

Lemma select_frequency_ignores_case_witness :
  select_frequency (config_with (Some "MONTHLY") None None) (Ok monthly_options)
                   scripts_work []
  = select_frequency (config_with (Some "Monthly") None None) (Ok monthly_options)
                     scripts_work [] /\
  select_frequency (config_with (Some "MONTHLY") None None) (Ok monthly_options)
                   scripts_work []
  = Some ([SetFrequency "MONTH"], Ok "Monthly").
Proof.
  split; [|reflexivity].
  apply (select_frequency_ignores_case _ _ "MONTHLY" "Monthly" "MONTH"); reflexivity.
Defined.

(** What typing the two dates does. *)
Lemma typing_dates (send_begin send_end : string -> outcome unit) b e :
  then_ (perform (TypeBeginDate b) (send_begin b)) (fun _ =>
  then_ (perform (TypeEndDate e) (send_end e)) (fun _ => pure (b, e)))
  = match send_begin b with
    | Raised => ([TypeBeginDate b], Raised)
    | Ok _ =>
        match send_end e with
        | Raised => ([TypeBeginDate b; TypeEndDate e], Raised)
        | Ok _ => ([TypeBeginDate b; TypeEndDate e], Ok (b, e))
        end
    end.
Proof.
  unfold then_, perform, pure.
  destruct (send_begin b); [|reflexivity].
  destruct (send_end e); reflexivity.
Qed.

(** X14.  [set_dates] takes the dates from the configuration, exactly as
    written there, only when the frequency and both dates are configured;
    as soon as one of the three is missing it prompts for both dates and
    uses what is typed, stripped, even if dates are configured.  Either
    way it types the begin date before the end date and returns the pair
    it typed. *)
Theorem set_dates_source (config : Scraper.ScraperConfig)
    (current_frequency : string) (typed : list string)
    (send_begin send_end : string -> outcome unit) :
  let typing b e :=
    match send_begin b with
    | Raised => ([TypeBeginDate b], Raised)
    | Ok _ =>
        match send_end e with
        | Raised => ([TypeBeginDate b; TypeEndDate e], Raised)
        | Ok _ => ([TypeBeginDate b; TypeEndDate e], Ok (b, e))
        end
    end in
  (forall f b e,
     Scraper.frequency config = Some f ->
     Scraper.begin_date config = Some b ->
     Scraper.end_date config = Some e ->
     set_dates config (Ok current_frequency) typed send_begin send_end
     = Some (typing b e)) /\
  (Scraper.frequency config = None \/ Scraper.begin_date config = None \/
   Scraper.end_date config = None ->
   (forall b e rest,
      typed = b :: e :: rest ->
      set_dates config (Ok current_frequency) typed send_begin send_end
      = Some (typing (strip b) (strip e))) /\
   (length typed < 2 ->
    set_dates config (Ok current_frequency) typed send_begin send_end = None)).
Proof.
  intros typing. split.
  - intros f b e Hf Hb He. unfold set_dates, is_date_mode_automatic.
    rewrite Hf, Hb, He. rewrite typing_dates. reflexivity.
  - intros Hmiss.
    assert (Hauto : is_date_mode_automatic config = false).
    { unfold is_date_mode_automatic.
      destruct Hmiss as [-> | [-> | ->]];
        destruct (Scraper.frequency config), (Scraper.begin_date config),
                 (Scraper.end_date config); reflexivity. }
    split.
    + intros b e rest ->. unfold set_dates. rewrite Hauto, typing_dates. reflexivity.
    + intros Hlen. unfold set_dates. rewrite Hauto.
      destruct typed as [|b [|e rest]]; [reflexivity | reflexivity |].
      cbn [length] in Hlen. lia.
Qed.

Lemma set_dates_source_witness :
  set_dates (config_with (Some "monthly") (Some " 01-2023") (Some "03-2023"))
            (Ok "MONTH") ["ignored"] scripts_work scripts_work
  = Some ([TypeBeginDate " 01-2023"; TypeEndDate "03-2023"],
          Ok (" 01-2023", "03-2023")) /\
  set_dates (config_with None (Some "01-2023") (Some "03-2023"))
            (Ok "MONTH") [" 02-2023 "; "04-2023"] scripts_work scripts_work
  = Some ([TypeBeginDate "02-2023"; TypeEndDate "04-2023"],
          Ok ("02-2023", "04-2023")).
Proof.
  split.
  - apply (set_dates_source
             (config_with (Some "monthly") (Some " 01-2023") (Some "03-2023"))
             "MONTH" ["ignored"] scripts_work scripts_work) with (f := "monthly");
      reflexivity.
  - destruct (set_dates_source (config_with None (Some "01-2023") (Some "03-2023"))
                "MONTH" [" 02-2023 "; "04-2023"] scripts_work scripts_work)
      as [_ H].
    destruct H as [Htyped _]; [left; reflexivity|].
    apply (Htyped " 02-2023 " "04-2023" []). reflexivity.
Defined.

Lemma print_options_readable options :
  (forall o, In o options -> option_value o <> Raised /\ option_text o <> Raised) ->
  print_options options = Ok tt.
Proof.
  induction options as [|o options IH]; intros Hall; [reflexivity|].
  cbn [print_options].
  destruct (Hall o (or_introl eq_refl)) as [Hv Ht].
  destruct (option_text o); [|contradiction].
  destruct (option_value o); [|contradiction].
  cbn [obind]. apply IH. intros x Hx. apply Hall. right; exact Hx.
Qed.

(** X15.  Without a configured frequency (none, or the empty string)
    [select_frequency] prompts, and the number it accepts always is a
    position in the drop-down: indexing never fails, the value of the
    option at that position is set and its text returned.  While no valid
    number has been typed, nothing is set. *)
Theorem select_frequency_interactive (config : Scraper.ScraperConfig)
    (options : list option_element) (set_value : string -> outcome unit)
    (inputs : keyboard) :
  Scraper.frequency config = None \/ Scraper.frequency config = Some "" ->
  (forall o, In o options -> option_value o <> Raised /\ option_text o <> Raised) ->
  match get_user_choice (Z.of_nat (length options)) true inputs with
  | None => select_frequency config (Ok options) set_value inputs = None
  | Some (choice, _) =>
      exists selected value text,
        nth_error options (Z.to_nat (choice - 1)) = Some selected /\
        option_value selected = Ok value /\
        option_text selected = Ok text /\
        select_frequency config (Ok options) set_value inputs
        = Some (match set_value value with
                | Raised => ([SetFrequency value], Raised)
                | Ok _ => ([SetFrequency value], Ok text)
                end)
  end.
Proof.
  intros Hf Hread.
  assert (Hsel : select_frequency config (Ok options) set_value inputs
                 = choose_frequency options set_value inputs).
  { unfold select_frequency. destruct Hf as [-> | ->]; reflexivity. }
  rewrite Hsel. unfold choose_frequency.
  rewrite (print_options_readable options Hread).
  destruct (get_user_choice (Z.of_nat (length options)) true inputs)
    as [[choice rest]|] eqn:Hc; [|reflexivity].
  destruct (get_user_choice_sound _ _ _ _ _ Hc) as [Hb _]. cbv zeta in Hb.
  destruct (nth_error options (Z.to_nat (choice - 1))) as [selected|] eqn:Hn;
    [|apply nth_error_None in Hn; lia].
  destruct (Hread selected (nth_error_In _ _ Hn)) as [Hv Ht].
  destruct (option_value selected) as [value|] eqn:Ev; [|contradiction].
  destruct (option_text selected) as [text|] eqn:Et; [|contradiction].
  exists selected, value, text. rewrite Ev, Et.
  split; [reflexivity|]. split; [reflexivity|]. split; [reflexivity|].
  unfold then_, silent, perform. destruct (set_value value); reflexivity.
Qed.

Lemma select_frequency_interactive_witness :
  select_frequency (config_with None None None) (Ok monthly_options)
                   scripts_work [Ok 4%Z; Ok 3%Z]
  = Some ([SetFrequency "YEAR"], Ok "Annual").
Proof.
  pose proof (select_frequency_interactive (config_with None None None)
                monthly_options scripts_work [Ok 4%Z; Ok 3%Z]
                (or_introl eq_refl)) as H.
  cbn [get_user_choice monthly_options length Z.of_nat] in H.
  destruct H as [selected [value [text [Hn [Hv [Ht Hs]]]]]].
  - intros o [<- | [<- | [<- | []]]]; split; discriminate.
  - cbn in Hn. injection Hn as <-. injection Hv as <-. injection Ht as <-.
    exact Hs.
Defined.



(* ===================================================================== *)
(** * Properties of the explanation parser                                *)
(* ===================================================================== *)

Import Explanations.

Lemma count_app sep a b : count sep (a ++ b) = count sep a + count sep b.
Proof.
  induction a as [|c a IH]; simpl; [reflexivity|].
  rewrite IH. lia.
Qed.

Lemma split_not_nil sep s : split sep s <> [].
Proof.
  intros H. pose proof (split_length sep s) as Hl. rewrite H in Hl. discriminate.
Qed.

(** The first part of a split is what stands before the first separator. *)
Lemma split_hd sep a rest :
  count sep a = 0 -> hd "" (split sep (a ++ String sep rest)) = a.
Proof.
  induction a as [|c a IH]; simpl; intros Ha.
  - rewrite Ascii.eqb_refl. reflexivity.
  - destruct (Ascii.eqb c sep); [discriminate|].
    specialize (IH Ha).
    destruct (split sep (a ++ String sep rest)) as [|w ws] eqn:E.
    + exfalso. exact (split_not_nil _ _ E).
    + simpl in *. rewrite IH. reflexivity.
Qed.

(** The last part of a split is what stands after the last separator. *)
Lemma split_last sep rest b :
  count sep b = 0 -> last (split sep (rest ++ String sep b)) "" = b.
Proof.
  intros Hb. induction rest as [|c rest IH].
  - simpl. rewrite Ascii.eqb_refl, (split_no_sep sep b Hb). reflexivity.
  - pose proof (split_length sep (rest ++ String sep b)) as Hl.
    rewrite count_app in Hl. cbn [count] in Hl. rewrite Ascii.eqb_refl in Hl.
    cbn [append split].
    destruct (split sep (rest ++ String sep b)) as [|w [|w' ws]] eqn:E;
      cbn [length] in Hl; try lia.
    destruct (Ascii.eqb c sep); exact IH.
Qed.

(** X17.  [parse_explanations] never fails: it returns, in page order,
    one dictionary for every section whose code, description and
    additional information can all be read, with the four keys [code],
    [description], [calculation_type] and [additional_info] in that order;
    a section of which any of the three cannot be read leaves no trace. *)
Theorem parse_explanations_skips_unreadable :
  (forall a b,
     parse_explanations (a ++ b) = parse_explanations a ++ parse_explanations b) /\
  (forall s,
     code_text s = Raised \/ desc_text s = Raised \/ info_text s = Raised ->
     parse_explanations [s] = []) /\
  (forall s code desc info,
     code_text s = Ok code -> desc_text s = Ok desc -> info_text s = Ok info ->
     parse_explanations [s]
     = [[ ("code", strip code);
          ("description", main_desc (strip desc));
          ("calculation_type", shown_calc_type (strip desc));
          ("additional_info", strip info) ]]).
Proof.
  split; [|split].
  - intros a b. induction a as [|s a IH]; [reflexivity|].
    cbn [app parse_explanations]. rewrite IH.
    destruct (parse_section s); reflexivity.
  - intros s H. cbn [parse_explanations]. unfold parse_section.
    destruct (code_text s), (desc_text s), (info_text s);
      try reflexivity; destruct H as [H | [H | H]]; discriminate.
  - intros s code desc info Hc Hd Hi. cbn [parse_explanations].
    unfold parse_section. rewrite Hc, Hd, Hi. reflexivity.
Qed.

Lemma parse_explanations_skips_unreadable_witness :
  parse_explanations three_sections
  = [ [ ("code", "TP.DK.USD.A"); ("description", "(USD) US Dollar");
        ("calculation_type", "Level"); ("additional_info", "Source: CBRT") ];
      [ ("code", "TP.FG.J0"); ("description", "Price index");
        ("calculation_type", ""); ("additional_info", "") ] ].
Proof.
  destruct parse_explanations_skips_unreadable as [Happ [Hskip Hkeep]].
  change three_sections with
    ([readable_section "TP.DK.USD.A" " (USD) US Dollar - Buying - Level " "Source: CBRT"]
     ++ [ {| code_text := Ok "TP.DK.EUR.A"; desc_text := Ok "(EUR) Euro - Level";
             info_text := Raised |} ]
     ++ [readable_section "TP.FG.J0" "Price index" ""]).
  rewrite !Happ.
  rewrite (Hskip {| code_text := Ok "TP.DK.EUR.A"; desc_text := Ok "(EUR) Euro - Level";
                    info_text := Raised |}) by (right; right; reflexivity).
  rewrite (Hkeep (readable_section "TP.DK.USD.A" " (USD) US Dollar - Buying - Level "
                    "Source: CBRT") _ _ _ eq_refl eq_refl eq_refl).
  rewrite (Hkeep (readable_section "TP.FG.J0" "Price index" "") _ _ _
             eq_refl eq_refl eq_refl).
  reflexivity.
Defined.

(** X18.  How a description text is cut at its hyphens: without a hyphen
    the whole text is the description and the calculation type is empty;
    with hyphens the description is what stands before the first one and
    the calculation type comes from what stands after the last one, so
    anything between two hyphens is lost. *)
Theorem description_cut_at_hyphens (desc : string) :
  (count "-" desc = 0 ->
   main_desc desc = strip desc /\ calc_type desc = "" /\ shown_calc_type desc = "") /\
  (forall a rest,
     count "-" a = 0 -> desc = (a ++ "-" ++ rest)%string ->
     main_desc desc = strip a) /\
  (forall rest b,
     count "-" b = 0 -> desc = (rest ++ "-" ++ b)%string ->
     calc_type desc = strip b /\
     shown_calc_type desc = strip_chars "</i>" (strip_chars "<i>" (strip b))).
Proof.
  split; [|split].
  - intros H. unfold shown_calc_type, main_desc, calc_type.
    rewrite (split_no_sep "-" desc H). repeat split.
  - intros a rest Ha ->. unfold main_desc.
    cbn [append]. rewrite (split_hd "-" a rest Ha). reflexivity.
  - intros rest b Hb ->.
    assert (Hc : calc_type (rest ++ "-" ++ b) = strip b).
    { unfold calc_type, last_part. cbn [append].
      pose proof (split_length "-" (rest ++ String "-" b)) as Hl.
      rewrite count_app in Hl. cbn [count] in Hl. rewrite Ascii.eqb_refl in Hl.
      destruct (Nat.ltb_spec 1 (length (split "-" (rest ++ String "-" b)))); [|lia].
      rewrite (split_last "-" rest b Hb). reflexivity. }
    split; [exact Hc|]. unfold shown_calc_type. rewrite Hc. reflexivity.
Qed.

Lemma description_cut_at_hyphens_witness :
  main_desc "(USD) US Dollar - Buying - Level" = "(USD) US Dollar" /\
  calc_type "(USD) US Dollar - Buying - Level" = "Level".
Proof.
  destruct (description_cut_at_hyphens "(USD) US Dollar - Buying - Level")
    as [_ [Hfirst Hlast]].
  split.
  - rewrite (Hfirst "(USD) US Dollar " " Buying - Level"); reflexivity.
  - destruct (Hlast "(USD) US Dollar - Buying " " Level") as [Hc _]; [reflexivity..|].
    rewrite Hc. reflexivity.
Defined.

(** X19.  The calculation type is cleaned with [strip("<i>")] and
    [strip("</i>")], which strip characters, not tags: the value stored
    never begins or ends with [<], [/], [i] or [>], so a calculation type
    that begins or ends with the letter i loses it. *)
Theorem shown_calc_type_ends (desc : string) (c : ascii) :
  first_char (shown_calc_type desc) = Some c \/
  last_char (shown_calc_type desc) = Some c ->
  c <> "<"%char /\ c <> "/"%char /\ c <> "i"%char /\ c <> ">"%char.
Proof.
  intros H. unfold shown_calc_type, strip_chars in H.
  apply strip_by_ends in H. cbn [mem_char] in H.
  repeat (apply orb_false_iff in H; destruct H as [? H]).
  repeat split; intros ->; discriminate.
Qed.

Lemma shown_calc_type_ends_witness :
  shown_calc_type "Price - index" = "ndex" /\
  "n"%char <> "i"%char.
Proof.
  split; [reflexivity|].
  apply (shown_calc_type_ends "Price - index" "n"). left. reflexivity.
Defined.

(* ===================================================================== *)
(** * More on the Incremental Table Reader                                *)
(* ===================================================================== *)

Lemma alternative_date_of_total t : exists alt, alternative_date_of t = Ok alt.
Proof.
  destruct (Nat.eq_dec (count "-" t) 1) as [E | E].
  - destruct (alternative_date_of_one t E) as [m [y [_ [_ [_ H]]]]].
    eexists. exact H.
  - exists None. apply alternative_date_of_other. exact E.
Qed.

Lemma header_names_raised headers :
  In Raised headers -> header_names headers = Raised.
Proof.
  induction headers as [|h headers IH]; intros Hin; [destruct Hin|].
  cbn [header_names]. destruct h as [text|]; [|reflexivity].
  destruct Hin as [Hh | Hin]; [discriminate|].
  cbn [obind]. rewrite (IH Hin). reflexivity.
Qed.

Lemma header_names_readable headers :
  (forall h, In h headers -> h <> Raised) ->
  exists names, header_names headers = Ok names.
Proof.
  induction headers as [|h headers IH]; intros Hall.
  - exists []. reflexivity.
  - destruct IH as [names Hn]; [intros x Hx; apply Hall; right; exact Hx|].
    destruct h as [text|]; [|exfalso; exact (Hall Raised (or_introl eq_refl) eq_refl)].
    cbn [header_names obind]. rewrite Hn. eexists. reflexivity.
Qed.

(** X20.  If the text of any header cannot be read, [parse_table] returns
    its error dictionary at once: it never enters the scroll loop, so it
    returns even on a page where the target would never show up. *)
Theorem unreadable_header_gives_error_table (pg : page) :
  In Raised (header_texts pg) ->
  forall fuel begin_date, parse_table pg fuel begin_date = Some error_table.
Proof.
  intros Hin fuel begin_date. unfold parse_table.
  destruct (alternative_date_of_total begin_date) as [alt ->].
  cbn [obind]. rewrite (header_names_raised _ Hin). reflexivity.
Qed.

Lemma unreadable_header_gives_error_table_witness :
  parse_table stale_header_page 0 "12-1999" = Some error_table.
Proof.
  apply (unreadable_header_gives_error_table stale_header_page).
  right. left. reflexivity.
Defined.

Lemma fill_row_no_columns cells : forall idx acc,
  fill_row [] idx cells acc = Ok acc.
Proof.
  induction cells as [|c cells IH]; intros idx acc; [reflexivity|].
  cbn [fill_row length].
  destruct (idx <? 0)%nat eqn:E; [apply Nat.ltb_lt in E; lia|].
  apply IH.
Qed.

(** Without column names a row is recorded, as the empty dictionary, as
    soon as it has a key. *)
Lemma recorded_no_columns begin_date r :
  recorded [] begin_date r = if has_key r then [[]] else [].
Proof.
  destruct (alternative_date_of_total begin_date) as [alt Ha].
  unfold recorded. rewrite Ha.
  destruct r as [[|[text|] rest]|]; try reflexivity.
  cbn [parse_row has_key set_mem empty_set negb andb].
  rewrite andb_true_r.
  destruct (negb (String.eqb (strip text) "")); [|reflexivity].
  cbn [length Nat.leb]. rewrite fill_row_no_columns. reflexivity.
Qed.

Lemma recorded_rows_no_columns begin_date rows :
  map row_to_py (flat_map (recorded [] begin_date) rows)
  = map (fun _ => PDict []) (filter has_key rows).
Proof.
  induction rows as [|r rows IH]; [reflexivity|].
  cbn [flat_map filter]. rewrite map_app, IH, recorded_no_columns.
  destruct (has_key r); reflexivity.
Qed.

Lemma accepted_has_key column_names begin_date r :
  accepted column_names begin_date r = true -> has_key r = true.
Proof.
  unfold accepted. destruct (alternative_date_of begin_date) as [alt|]; [|discriminate].
  destruct r as [[|[text|] rest]|]; try discriminate.
  cbn [parse_row has_key].
  destruct (negb (String.eqb (strip text) "")); [reflexivity | discriminate].
Qed.

(** X21.  When no header was found, [parse_table] does not return an
    empty result: it still scrolls to the target, and returns one empty
    dictionary for each row it has fetched that has a key (a first cell
    that can be read and is not blank), whatever the other cells are: the
    rows of the passes before the one that fetched the target, and the rows
    of that pass up to and including the target row.  Whenever it returns
    a list, the list is of this form, so it is not empty. *)
Theorem no_headers_records_empty_rows (pg : page) (begin_date : string) :
  header_texts pg = [] ->
  let quiet k :=
    (forall r, In r (visible_rows pg k) -> accepted [] begin_date r = false) /\
    scroll_script pg k <> Raised in
  let empty_rows rows := map (fun _ : row => PDict []) (filter has_key rows) in
  (forall k pre r post fuel,
     (forall j, j < k -> quiet j) ->
     visible_rows pg k = pre ++ r :: post ->
     (forall x, In x pre -> accepted [] begin_date x = false) ->
     accepted [] begin_date r = true ->
     k < fuel ->
     parse_table pg fuel begin_date
     = Some (PList (empty_rows (fetched_before pg k ++ pre ++ [r])))) /\
  (forall fuel out,
     parse_table pg fuel begin_date = Some (PList out) ->
     out <> [] /\
     exists k pre r post,
       k < fuel /\ (forall j, j < k -> quiet j) /\
       visible_rows pg k = pre ++ r :: post /\
       (forall x, In x pre -> accepted [] begin_date x = false) /\
       accepted [] begin_date r = true /\
       out = empty_rows (fetched_before pg k ++ pre ++ [r])).
Proof.
  intros Hh quiet empty_rows.
  destruct (alternative_date_of_total begin_date) as [alt Ha].
  assert (Hpt : forall fuel,
            parse_table pg fuel begin_date
            = match scroll_loop pg [] begin_date alt (empty_set string) fuel 0 [] with
              | None => None
              | Some (Ok data) => Some (PList (map row_to_py data))
              | Some Raised => Some error_table
              end)
    by (intros fuel; unfold parse_table; rewrite Ha, Hh; reflexivity).
  split.
  - intros k pre r post fuel Hq Hk Hpre Hr Hlt. rewrite Hpt.
    rewrite (scroll_loop_on_target pg [] begin_date alt Ha
               k pre r post fuel Hq Hk Hpre Hr Hlt).
    rewrite recorded_rows_no_columns. reflexivity.
  - intros fuel out Hv. rewrite Hpt in Hv.
    destruct (scroll_loop pg [] begin_date alt (empty_set string) fuel 0 [])
      as [res|] eqn:E; [|discriminate].
    destruct (scroll_loop_returns pg [] begin_date alt Ha fuel res E)
      as [k [Hk [Hq Hend]]].
    destruct Hend as [[pre [r [post [Hvk [Hpre [Hr ->]]]]]] | [_ [_ ->]]];
      [|discriminate].
    injection Hv as <-. rewrite recorded_rows_no_columns.
    split.
    + rewrite !app_assoc, filter_app, map_app. cbn [filter].
      rewrite (accepted_has_key _ _ _ Hr). cbn [map].
      intros Hnil. apply app_eq_nil in Hnil. destruct Hnil as [_ Hnil].
      discriminate.
    + exists k, pre, r, post. auto 10.
Qed.

(** Three rows with a key, the second with a cell that cannot be read:
    three empty dictionaries. *)
Lemma no_headers_records_empty_rows_witness :
  parse_table headless_page 2 "01-2023" = Some (PList [PDict []; PDict []; PDict []]).
Proof.
  pose proof (no_headers_records_empty_rows headless_page "01-2023" eq_refl)
    as [Hto _].
  apply (Hto 1 [] (readable ["01-2023"; "18.7"]) [] 2).
  - intros j Hj. assert (j = 0) as -> by lia. split.
    + intros r [<- | [<- | []]]; reflexivity.
    + discriminate.
  - reflexivity.
  - intros x [].
  - reflexivity.
  - lia.
Defined.

Lemma dict_set_fresh {V : Type} (d : list (string * V)) k v :
  ~ In k (map fst d) -> dict_set d k v = d ++ [(k, v)].
Proof.
  induction d as [|[k' v'] d IH]; intros Hk; [reflexivity|].
  cbn [dict_set app]. cbn [map fst In] in Hk.
  destruct (String.eqb_spec k' k) as [-> | _]; [exfalso; apply Hk; left; reflexivity|].
  rewrite IH by (intros H; apply Hk; right; exact H). reflexivity.
Qed.

Lemma fill_row_past column_names cells : forall idx acc,
  length column_names <= idx -> fill_row column_names idx cells acc = Ok acc.
Proof.
  induction cells as [|c cells IH]; intros idx acc Hle; [reflexivity|].
  cbn [fill_row]. destruct (Nat.ltb_spec idx (length column_names)); [lia|].
  apply IH. lia.
Qed.

Lemma fill_row_distinct texts : forall done todo acc,
  NoDup (done ++ todo) ->
  map fst acc = done ->
  fill_row (done ++ todo) (length done) (map Ok texts) acc
  = Ok (acc ++ combine todo (map strip texts)).
Proof.
  induction texts as [|x texts IH]; intros done todo acc Hnd Hacc.
  - cbn [map fill_row]. rewrite combine_nil, app_nil_r. reflexivity.
  - cbn [map fill_row]. destruct todo as [|k todo].
    + rewrite app_nil_r.
      destruct (Nat.ltb_spec (length done) (length done)); [lia|].
      rewrite fill_row_past by lia. cbn [combine]. rewrite app_nil_r. reflexivity.
    + destruct (Nat.ltb_spec (length done) (length (done ++ k :: todo))) as [_ | Hge];
        [|rewrite length_app in Hge; cbn [length] in Hge; lia].
      cbn [obind]. rewrite nth_middle.
      rewrite dict_set_fresh
        by (rewrite Hacc; intros Hin;
            exact (NoDup_remove_2 done todo k Hnd (in_or_app _ _ _ (or_introl Hin)))).
      replace (done ++ k :: todo) with ((done ++ [k]) ++ todo)
        by (rewrite <- app_assoc; reflexivity).
      replace (S (length done)) with (length (done ++ [k]))
        by (rewrite length_app; cbn [length]; lia).
      rewrite IH.
      * cbn [map combine]. rewrite <- app_assoc. reflexivity.
      * rewrite <- app_assoc. exact Hnd.
      * rewrite map_app, Hacc. reflexivity.
Qed.

(** X22.  With distinct column names, a row that is recorded is recorded
    as the column names paired, in order, with the stripped texts of the
    cells at the same positions; the cells beyond the last column name
    are ignored.  (The row is recorded when its key is not empty and it
    has a cell for each column name.) *)
Theorem recorded_row_pairs_columns_with_cells (column_names : list string)
    (begin_date : string) (alternative_date : option string)
    (texts : list string) :
  NoDup column_names ->
  length column_names <= length texts ->
  row_key texts <> "" ->
  parse_row column_names begin_date alternative_date (empty_set string)
            (readable texts)
  = Appended (combine column_names (map strip texts))
             (is_begin_date begin_date alternative_date (row_key texts)).
Proof.
  intros Hnd Hlen Hkey.
  destruct texts as [|x texts]; [exfalso; apply Hkey; reflexivity|].
  unfold parse_row, readable, row_key in *. cbn [map hd] in *.
  apply String.eqb_neq in Hkey. rewrite Hkey. cbn [negb andb set_mem empty_set].
  match goal with
  | |- context [(?a <=? ?b)%nat] => destruct (Nat.leb_spec a b) as [_ | Hgt]
  end.
  - pose proof (fill_row_distinct (x :: texts) [] column_names [] Hnd eq_refl) as H.
    cbn [app length map] in H. rewrite H. reflexivity.
  - cbn [length] in *. rewrite length_map in Hgt. lia.
Qed.

Lemma recorded_row_pairs_columns_with_cells_witness :
  parse_row two_columns "01-2023" (Some "2023-01") (empty_set string)
            (readable [" 02-2023 "; "18.8 "; "extra"])
  = Appended [("Tarih", "02-2023"); ("TP DK USD A", "18.8")] false.
Proof.
  apply (recorded_row_pairs_columns_with_cells two_columns "01-2023"
           (Some "2023-01") [" 02-2023 "; "18.8 "; "extra"]).
  - repeat constructor; simpl; intuition discriminate.
  - simpl. lia.
  - discriminate.
Defined.

(** X23.  The scan of a batch stops at the first row accepted as the
    target: the rows that follow it in the batch are neither read nor
    recorded, and the list that the batch yields ends with that row. *)
Theorem scan_stops_at_target (column_names : list string) (begin_date : string)
    (alternative_date : option string) (processed_rows : set string)
    (pre : list row) (r : row) (rd : row_data) (post : list row)
    (data : list row_data) :
  (forall x rdx, In x pre ->
     parse_row column_names begin_date alternative_date processed_rows x
     <> Appended rdx true) ->
  parse_row column_names begin_date alternative_date processed_rows r
  = Appended rd true ->
  scan_rows column_names begin_date alternative_date processed_rows
            (pre ++ r :: post) data
  = (fst (scan_rows column_names begin_date alternative_date processed_rows
                    pre data) ++ [rd], true) /\
  scan_rows column_names begin_date alternative_date processed_rows
            (pre ++ r :: post) data
  = scan_rows column_names begin_date alternative_date processed_rows
              (pre ++ [r]) data.
Proof.
  intros Hpre Hr.
  assert (H : forall tail data,
    scan_rows column_names begin_date alternative_date processed_rows
              (pre ++ r :: tail) data
    = (fst (scan_rows column_names begin_date alternative_date processed_rows
                      pre data) ++ [rd], true)).
  { intros tail. induction pre as [|x pre IH]; intros data0; cbn [app scan_rows].
    - rewrite Hr. reflexivity.
    - destruct (parse_row column_names begin_date alternative_date processed_rows x)
        as [|rdx [|]] eqn:Ex.
      + apply IH. intros y rdy Hy. apply Hpre. right; exact Hy.
      + exfalso. exact (Hpre x rdx (or_introl eq_refl) Ex).
      + apply IH. intros y rdy Hy. apply Hpre. right; exact Hy. }
  split; [apply H|]. rewrite (H post data), (H [] data). reflexivity.
Qed.

Lemma scan_stops_at_target_witness :
  scan_rows two_columns "02-2023" (Some "2023-02") (empty_set string)
            [readable ["03-2023"; "18.9"]; readable ["02-2023"; "18.8"];
             readable ["01-2023"; "18.7"]] []
  = ([ [("Tarih", "03-2023"); ("TP DK USD A", "18.9")];
       [("Tarih", "02-2023"); ("TP DK USD A", "18.8")] ], true).
Proof.
  apply (scan_stops_at_target two_columns "02-2023" (Some "2023-02")
           (empty_set string) [readable ["03-2023"; "18.9"]]
           (readable ["02-2023"; "18.8"])
           [("Tarih", "02-2023"); ("TP DK USD A", "18.8")]
           [readable ["01-2023"; "18.7"]] []).
  - intros x rdx [<- | []]. discriminate.
  - reflexivity.
Defined.

(** A row that is recorded has a non-empty, stripped key, and is taken for
    the target by comparing that key. *)
Lemma parse_row_appended_key column_names begin_date alternative_date
    processed_rows r rd found :
  parse_row column_names begin_date alternative_date processed_rows r
  = Appended rd found ->
  exists text,
    strip text <> "" /\
    found = is_begin_date begin_date alternative_date (strip text).
Proof.
  unfold parse_row.
  destruct r as [cells|]; [|discriminate].
  destruct cells as [|first rest]; [discriminate|].
  destruct first as [text|]; [|discriminate].
  destruct (String.eqb_spec (strip text) "") as [E | E]; [discriminate|].
  cbn [negb andb].
  destruct (negb (set_mem string_dec (strip text) processed_rows)); [|discriminate].
  match goal with
  | |- context [(?a <=? ?b)%nat] => destruct (a <=? b)%nat
  end; [|discriminate].
  match goal with
  | |- context [fill_row ?c ?i ?l ?a] => destruct (fill_row c i l a)
  end; [|discriminate].
  intros H. injection H as _ <-. exists text. split; [exact E | reflexivity].
Qed.

Lemma scan_rows_never_found column_names begin_date alternative_date
    processed_rows rows :
  (forall r rd, parse_row column_names begin_date alternative_date processed_rows r
                <> Appended rd true) ->
  forall data,
    snd (scan_rows column_names begin_date alternative_date processed_rows
                   rows data) = false.
Proof.
  intros Hno. induction rows as [|r rows IH]; intros data; [reflexivity|].
  cbn [scan_rows].
  destruct (parse_row column_names begin_date alternative_date processed_rows r)
    as [|rd [|]] eqn:E.
  - apply IH.
  - exfalso. exact (Hno r rd E).
  - apply IH.
Qed.

(** X24.  A target that no row key can equal is never found.  Row keys are
    stripped and not empty; so for a target that is empty, or that has
    white space at an end, and that has no alternate (no hyphen, or more
    than one), every row is passed over, and [parse_table] scrolls for ever
    unless a scroll raises.  The dates of the configuration reach
    [parse_table] unstripped. *)
Theorem unmatchable_target_never_found (pg : page) (begin_date : string) :
  begin_date = "" \/ strip begin_date <> begin_date ->
  count "-" begin_date <> 1 ->
  (forall h, In h (header_texts pg) -> h <> Raised) ->
  (forall column_names r,
     accepted column_names begin_date r = false) /\
  ((forall k, scroll_script pg k <> Raised) ->
   forall fuel, parse_table pg fuel begin_date = None).
Proof.
  intros Hbad Hcount Hheaders.
  pose proof (alternative_date_of_other begin_date Hcount) as Ha.
  assert (Hno : forall column_names processed_rows r rd,
            parse_row column_names begin_date None processed_rows r
            <> Appended rd true).
  { intros column_names processed_rows r rd H.
    destruct (parse_row_appended_key _ _ _ _ _ _ _ H) as [text [Hne Hf]].
    unfold is_begin_date in Hf. rewrite orb_false_r in Hf.
    symmetry in Hf. apply String.eqb_eq in Hf.
    destruct Hbad as [-> | Hbad]; [exact (Hne Hf)|].
    apply Hbad. rewrite <- Hf. apply strip_idem. }
  split.
  - intros column_names r. unfold accepted. rewrite Ha.
    destruct (parse_row column_names begin_date None (empty_set string) r)
      as [|rd [|]] eqn:E; [reflexivity | | reflexivity].
    exfalso. exact (Hno _ _ _ _ E).
  - intros Hscroll fuel. unfold parse_table. rewrite Ha. cbn [obind].
    destruct (header_names_readable _ Hheaders) as [names ->]. cbn [obind].
    destruct (scroll_loop pg names begin_date None (empty_set string) fuel 0 [])
      as [r|] eqn:E; [|reflexivity].
    exfalso.
    destruct (scroll_loop_ends _ _ _ _ _ _ _ _ E) as [n [_ [_ Hend]]].
    destruct Hend as [[Hf _] | [_ [Hs _]]].
    + unfold batch_found in Hf.
      rewrite (scan_rows_never_found names begin_date None (empty_set string)
                 (visible_rows pg (0 + n)) (Hno names (empty_set string)) [])
        in Hf.
      discriminate.
    + exact (Hscroll _ Hs).
Qed.

Lemma unmatchable_target_never_found_witness :
  (forall fuel, parse_table monthly_page fuel "" = None) /\
  (forall fuel, parse_table monthly_page fuel " 01-01-2023" = None).
Proof.
  split.
  - apply (unmatchable_target_never_found monthly_page "").
    + left. reflexivity.
    + discriminate.
    + intros h [<- | [<- | []]]; discriminate.
    + intros k. discriminate.
  - apply (unmatchable_target_never_found monthly_page " 01-01-2023").
    + right. discriminate.
    + discriminate.
    + intros h [<- | [<- | []]]; discriminate.
    + intros k. discriminate.
Defined.

(* ===================================================================== *)
(** * More on [export_configuration] and the interactive loop             *)
(* ===================================================================== *)

Import Interactive.

(** X25.  The [.json] suffix is added at most once.  Exporting to a path
    that does not end in [.json] and exporting to that path with [.json]
    appended do the same: the same document goes to the same file, the one
    with the suffix.  A path that already ends in [.json] is used as it is:
    given again to the suffix rule it is unchanged, and no other file is
    written. *)
Theorem json_suffix_added_once (filepath : string) (self : EVDSScraper)
    (fs : filesystem) :
  (endswith filepath ".json" = false ->
   with_json_suffix filepath = (filepath ++ ".json")%string /\
   with_json_suffix (filepath ++ ".json") = (filepath ++ ".json")%string /\
   export_configuration self fs (filepath ++ ".json")
   = export_configuration self fs filepath) /\
  (endswith filepath ".json" = true ->
   with_json_suffix filepath = filepath /\
   forall p, p <> filepath ->
     document (fst (export_configuration self fs filepath)) p = document fs p).
Proof.
  split.
  - intros Hn.
    assert (H1 : with_json_suffix filepath = (filepath ++ ".json")%string)
      by (unfold with_json_suffix; rewrite Hn; reflexivity).
    assert (H2 : with_json_suffix (filepath ++ ".json") = (filepath ++ ".json")%string)
      by (unfold with_json_suffix; rewrite endswith_app; reflexivity).
    split; [exact H1|]. split; [exact H2|].
    unfold export_configuration. rewrite H1, H2. reflexivity.
  - intros Hy.
    assert (H1 : with_json_suffix filepath = filepath)
      by (unfold with_json_suffix; rewrite Hy; reflexivity).
    split; [exact H1|]. intros p Hp.
    unfold export_configuration. rewrite H1.
    destruct (can_open fs filepath); [|reflexivity].
    cbn [fst write_file document].
    apply String.eqb_neq in Hp. rewrite Hp. reflexivity.
Qed.

Lemma json_suffix_added_once_witness :
  export_configuration dict_scraper open_disk "config.json"
  = export_configuration dict_scraper open_disk "config" /\
  document (fst (export_configuration dict_scraper open_disk "config.json"))
           "config.json.json" = None.
Proof.
  destruct (json_suffix_added_once "config" dict_scraper open_disk) as [Hadd _].
  destruct (json_suffix_added_once "config.json" dict_scraper open_disk) as [_ Hkeep].
  split.
  - apply Hadd. reflexivity.
  - destruct (Hkeep eq_refl) as [_ Hother].
    rewrite Hother; [reflexivity | discriminate].
Defined.

(** A turn after which the loop goes on: the cart took the variable and
    the answer, in lower case and stripped, was [y]. *)
Lemma interactive_loop_goes_on used : forall turns var,
  (forall t, In t used -> cart t <> Raised /\ strip (lower (answer t)) = "y") ->
  interactive_loop (used ++ turns) var
  = interactive_loop turns (var ++ map recorded_variable used).
Proof.
  induction used as [|t used IH]; intros turns var Hall.
  - cbn. rewrite app_nil_r. reflexivity.
  - destruct (Hall t (or_introl eq_refl)) as [Hc Hy].
    cbn [app interactive_loop].
    destruct (cart t) as [u|]; [|contradiction].
    rewrite Hy. cbn [String.eqb Ascii.eqb Bool.eqb negb andb].
    fold (recorded_variable t).
    rewrite IH by (intros x Hx; apply Hall; right; exact Hx).
    cbn [map]. rewrite <- app_assoc. reflexivity.
Qed.

Lemma interactive_loop_ends turns : forall var res,
  interactive_loop turns var = Some res ->
  exists used last rest,
    turns = used ++ last :: rest /\
    (forall t, In t used -> cart t <> Raised /\ strip (lower (answer t)) = "y") /\
    ((cart last <> Raised /\ strip (lower (answer last)) <> "y" /\
      res = Ok (var ++ map recorded_variable (used ++ [last]))) \/
     (cart last = Raised /\ res = Raised)).
Proof.
  induction turns as [|t turns IH]; intros var res H; [discriminate|].
  cbn [interactive_loop] in H.
  destruct (cart t) as [u|] eqn:Hc.
  - fold (recorded_variable t) in H.
    destruct (String.eqb_spec (strip (lower (answer t))) "y") as [Hy | Hy];
      cbn [negb] in H.
    + destruct (IH _ _ H) as [used [last [rest [-> [Hall Hend]]]]].
      exists (t :: used), last, rest. split; [reflexivity|]. split.
      * intros x [<- | Hx]; [|exact (Hall x Hx)].
        split; [rewrite Hc; discriminate | exact Hy].
      * destruct Hend as [[Hl [Hn ->]] | [Hl ->]].
        -- left. split; [exact Hl|]. split; [exact Hn|].
           cbn [app map]. rewrite <- app_assoc. reflexivity.
        -- right. split; [exact Hl | reflexivity].
    + injection H as <-. exists [], t, turns.
      split; [reflexivity|]. split; [intros x []|].
      left. split; [rewrite Hc; discriminate|]. split; [exact Hy | reflexivity].
  - injection H as <-. exists [], t, turns.
    split; [reflexivity|]. split; [intros x []|].
    right. split; [exact Hc | reflexivity].
Qed.

Lemma collect_recorded used : forall acc,
  collect_variables (map recorded_variable used) acc
  = acc ++ map exported_object used.
Proof.
  induction used as [|t used IH]; intros acc.
  - cbn. rewrite app_nil_r. reflexivity.
  - cbn [map collect_variables recorded_variable length Nat.eqb nth].
    rewrite IH. rewrite <- app_assoc. reflexivity.
Qed.

(** X26.  What the interactive loop of [scrape] stores is exported whole.
    The loop goes on while the cart takes the variable and the answer is
    [y] (in any case, with blanks around it); at the first turn answered
    otherwise it returns one list of four for every turn so far, that turn
    included, also for a turn in which a selection returned [None], and
    [export_configuration] then writes one object per turn, in order, with
    [None] for what was not selected, omitting none.  The loop returns a
    list in no other way: it raises at the first turn whose click on the
    cart raises, and is still asking while every answer is [y]. *)
Theorem interactive_variables_all_exported (turns : list turn) :
  let goes_on t := cart t <> Raised /\ strip (lower (answer t)) = "y" in
  (forall used last rest,
     turns = used ++ last :: rest ->
     (forall t, In t used -> goes_on t) ->
     cart last <> Raised ->
     strip (lower (answer last)) <> "y" ->
     interactive_loop turns [] = Some (Ok (map recorded_variable (used ++ [last]))) /\
     collect_variables (map recorded_variable (used ++ [last])) []
     = map exported_object (used ++ [last]) /\
     forall self fs filepath,
       selected_variables self = map recorded_variable (used ++ [last]) ->
       can_open fs (with_json_suffix filepath) = true ->
       snd (export_configuration self fs filepath) = true /\
       document (fst (export_configuration self fs filepath))
                (with_json_suffix filepath)
       = Some (PDict [("language", PStr (language (config self)));
                      ("variables", PList (map exported_object (used ++ [last])))])) /\
  (forall var,
     interactive_loop turns [] = Some (Ok var) ->
     exists used last rest,
       turns = used ++ last :: rest /\
       (forall t, In t used -> goes_on t) /\
       cart last <> Raised /\
       strip (lower (answer last)) <> "y" /\
       var = map recorded_variable (used ++ [last]) /\
       collect_variables var [] = map exported_object (used ++ [last]) /\
       length (collect_variables var []) = length var) /\
  (forall used last rest,
     turns = used ++ last :: rest ->
     (forall t, In t used -> goes_on t) ->
     cart last = Raised ->
     interactive_loop turns [] = Some Raised) /\
  ((forall t, In t turns -> goes_on t) -> interactive_loop turns [] = None).
Proof.
  intros goes_on.
  split; [|split; [|split]].
  - intros used last rest -> Hall Hc Hn.
    split; [|split].
    + rewrite (interactive_loop_goes_on used (last :: rest) [] Hall).
      cbn [app interactive_loop].
      destruct (cart last) as [u|]; [|contradiction].
      apply String.eqb_neq in Hn. rewrite Hn. cbn [negb].
      fold (recorded_variable last). rewrite map_app. reflexivity.
    + rewrite collect_recorded. reflexivity.
    + intros self fs filepath Hsel Hopen.
      unfold export_configuration. rewrite Hopen, Hsel, collect_recorded.
      cbn [fst snd write_file document app]. rewrite String.eqb_refl.
      split; reflexivity.
  - intros var H.
    destruct (interactive_loop_ends turns [] (Ok var) H)
      as [used [last [rest [Ht [Hall Hend]]]]].
    destruct Hend as [[Hc [Hn Hv]] | [_ Hv]]; [|discriminate].
    injection Hv as ->. cbn [app].
    exists used, last, rest.
    split; [exact Ht|]. split; [exact Hall|]. split; [exact Hc|].
    split; [exact Hn|]. split; [reflexivity|].
    rewrite collect_recorded. cbn [app].
    split; [reflexivity | rewrite !length_map; reflexivity].
  - intros used last rest -> Hall Hc.
    rewrite (interactive_loop_goes_on used (last :: rest) [] Hall).
    cbn [interactive_loop]. rewrite Hc. reflexivity.
  - intros Hall.
    rewrite <- (app_nil_r turns).
    rewrite (interactive_loop_goes_on turns [] [] Hall). reflexivity.
Qed.

(** Two turns, the first answered " Y " and without an item: both are
    stored and both are exported. *)
Lemma interactive_variables_all_exported_witness :
  interactive_loop two_turns []
  = Some (Ok [ PList [PStr "Exchange Rates"; PStr "Indicative Rates"; PNone; PStr "Level"];
               PList [PStr "Prices"; PStr "CPI"; PStr "General"; PStr "Level"] ]) /\
  collect_variables
    [ PList [PStr "Exchange Rates"; PStr "Indicative Rates"; PNone; PStr "Level"];
      PList [PStr "Prices"; PStr "CPI"; PStr "General"; PStr "Level"] ] []
  = map exported_object two_turns.
Proof.
  pose proof (interactive_variables_all_exported two_turns) as [Hto _].
  destruct (Hto [_] _ [] eq_refl)
    as [Hloop [Hcol _]].
  - intros t [<- | []]. split; [discriminate | reflexivity].
  - discriminate.
  - discriminate.
  - split; [exact Hloop | exact Hcol].
Defined.

(** X27.  An item row whose text is empty matches any text selector that
    has no exact match and no earlier containment match, because the empty
    text is contained in every selector: the resolver ticks its check box
    and returns the empty text, which [process_single_variable] then takes
    for a failed selection. *)
Theorem blank_item_matches_any_selector (t : string)
    (pre : list checkbox_entry) (e : checkbox_entry) (post : list checkbox_entry) :
  entry_text e = "" ->
  (forall x, In x (pre ++ e :: post) -> entry_text x <> t) ->
  (forall x, In x pre ->
     str_in t (entry_text x) = false /\ str_in (entry_text x) t = false) ->
  element_click (checkbox e) <> Raised ->
  _select_item_base (SelStr t) (pre ++ e :: post)
  = (map GetText (pre ++ e :: post) ++ map GetText pre ++ [GetText e; Click e],
     Some "") /\
  not_str (snd (_select_item_base (SelStr t) (pre ++ e :: post))) = true.
Proof.
  intros He Hall Hpre Hclick.
  assert (Hsel : _select_item_base (SelStr t) (pre ++ e :: post)
                 = (map GetText (pre ++ e :: post) ++ map GetText pre
                      ++ [GetText e; Click e], Some "")).
  { unfold _select_item_base, _select_base, select_body.
    rewrite (exact_scan_all checkbox_entry (fun x => Ok (entry_text x)) t
               (pre ++ e :: post)).
    2:{ intros x Hx. exists (entry_text x). split; [reflexivity | exact (Hall x Hx)]. }
    rewrite (contained_scan_first checkbox_entry (fun x => Ok (entry_text x)) t
               pre e "" post).
    - unfold bind, call, ret, emit, not_, object_truth. cbn.
      destruct (element_click (checkbox e)) as [u|]; [|contradiction].
      cbn. rewrite He. rewrite ?app_nil_r, <- ?app_assoc. reflexivity.
    - intros x Hx. exists (entry_text x). split; [reflexivity | exact (Hpre x Hx)].
    - rewrite He. reflexivity.
    - destruct t; reflexivity. }
  split; [exact Hsel | rewrite Hsel; reflexivity].
Qed.

Lemma blank_item_matches_any_selector_witness :
  _select_item_base (SelStr "USD")
    [ {| entry_text := "(EUR) Euro"; checkbox := link 21 "" |};
      {| entry_text := ""; checkbox := link 22 "" |};
      {| entry_text := "(USD) US Dollar"; checkbox := link 23 "" |} ]
  = (map GetText [ {| entry_text := "(EUR) Euro"; checkbox := link 21 "" |};
                   {| entry_text := ""; checkbox := link 22 "" |};
                   {| entry_text := "(USD) US Dollar"; checkbox := link 23 "" |} ]
       ++ [ GetText {| entry_text := "(EUR) Euro"; checkbox := link 21 "" |};
            GetText {| entry_text := ""; checkbox := link 22 "" |};
            Click {| entry_text := ""; checkbox := link 22 "" |} ],
     Some "").
Proof.
  apply (blank_item_matches_any_selector "USD"
           [ {| entry_text := "(EUR) Euro"; checkbox := link 21 "" |} ]
           {| entry_text := ""; checkbox := link 22 "" |}
           [ {| entry_text := "(USD) US Dollar"; checkbox := link 23 "" |} ]).
  - reflexivity.
  - intros x [<- | [<- | [<- | []]]]; discriminate.
  - intros x [<- | []]. split; reflexivity.
  - discriminate.
Defined.
